(** * SME portal backend: response extraction, slugs and the stage handlers

    A shallow embedding of [backend/server.js] (the Express handlers of the
    SME portal and their helpers) together with the properties of the
    specification that concern them.

    Conventions of the embedding.

    - A JavaScript string is a Rocq [string]: its characters are the UTF-16
      code units of the JavaScript string, restricted to the range 0..255
      (ISO Latin-1).  [toLowerCase], [trim] and the regular expressions are
      modelled exactly on that range.
    - The regular-expression literals of the source are values of [regex],
      run by a small backtracking matcher that follows the ECMAScript
      matching order (leftmost match, alternatives left to right, greedy
      quantifiers).
    - [JSON.parse] is a recursive-descent parser of the JSON grammar; it
      keeps a number as its lexeme and the members of an object in source
      order.
    - The PostgreSQL tables are lists of rows; a statement sent through
      [pool.query] either runs atomically or fails and changes nothing, as
      dictated by a fault schedule carried in the state.  The unique
      constraint on [websites.sme_id] is a hypothesis where it matters.
    - A text parameter that holds U+0000 is refused by PostgreSQL before
      the statement runs.
    - A call of the generative model is an oracle from requests to
      responses.  The wording of the prompts is a parameter: a template
      gives the text of a prompt for the name and the descriptive columns
      of an SME row, or throws, as [.join] does on a value that is not an
      array.
    - [NOW()] is a timestamp handed to the handler.

    Layout: the embedding of the source, the wording of the specification
    ([Spec]) and auxiliary definitions first; then the lemmas and the
    theorems. *)

From Stdlib Require Import String Ascii List ZArith NArith Bool Lia Arith.
Import ListNotations.
Set Warnings "-register-all".
Local Open Scope string_scope.
Local Open Scope bool_scope.

(* ================================================================== *)
(** * JavaScript strings *)
(* ================================================================== *)

Module JsString.

Definition code (c : ascii) : nat := nat_of_ascii c.

Definition in_range (lo hi : ascii) (c : ascii) : bool :=
  (code lo <=? code c)%nat && (code c <=? code hi)%nat.

(** [String.prototype.toLowerCase] on one Latin-1 code unit: the letters
    A-Z, and the accented capitals U+00C0..U+00DE without the
    multiplication sign U+00D7, move up by 32. *)
Definition lower_char (c : ascii) : ascii :=
  let n := code c in
  if ((65 <=? n) && (n <=? 90))%nat then ascii_of_nat (n + 32)
  else if ((192 <=? n) && (n <=? 222) && negb (n =? 215))%nat
       then ascii_of_nat (n + 32)
  else c.

Fixpoint toLowerCase (s : string) : string :=
  match s with
  | EmptyString => EmptyString
  | String c s' => String (lower_char c) (toLowerCase s')
  end.

(** White space and line terminators removed by [trim], below U+0100:
    TAB, LF, VT, FF, CR, SPACE and NO-BREAK SPACE. *)
Definition is_space (c : ascii) : bool :=
  let n := code c in
  ((9 <=? n) && (n <=? 13) || (n =? 32) || (n =? 160))%nat.

Fixpoint trimStart (s : string) : string :=
  match s with
  | EmptyString => EmptyString
  | String c s' => if is_space c then trimStart s' else s
  end.

Definition is_empty (s : string) : bool :=
  match s with EmptyString => true | _ => false end.

Fixpoint trimEnd (s : string) : string :=
  match s with
  | EmptyString => EmptyString
  | String c s' =>
      let t := trimEnd s' in
      if is_space c && is_empty t then EmptyString else String c t
  end.

Definition trim (s : string) : string := trimEnd (trimStart s).

Fixpoint drop (n : nat) (s : string) : string :=
  match n, s with
  | O, _ => s
  | S _, EmptyString => EmptyString
  | S k, String _ s' => drop k s'
  end.

Fixpoint take (n : nat) (s : string) : string :=
  match n, s with
  | O, _ => EmptyString
  | S _, EmptyString => EmptyString
  | S k, String c s' => String c (take k s')
  end.

Definition startsWith (s p : string) : bool := prefix p s.

(** [s.indexOf(p)]: the least index at which [p] occurs, or -1. *)
Fixpoint indexOf_from (p s : string) (i : Z) : Z :=
  if prefix p s then i
  else match s with
       | EmptyString => (-1)%Z
       | String _ s' => indexOf_from p s' (i + 1)%Z
       end.

Definition indexOf (s p : string) : Z := indexOf_from p s 0%Z.

(** [s.lastIndexOf(p)]: the greatest index at which [p] occurs, or -1. *)
Fixpoint lastIndexOf_from (p s : string) (i found : Z) : Z :=
  let found' := if prefix p s then i else found in
  match s with
  | EmptyString => found'
  | String _ s' => lastIndexOf_from p s' (i + 1)%Z found'
  end.

Definition lastIndexOf (s p : string) : Z :=
  lastIndexOf_from p s 0%Z (-1)%Z.

(** [s.slice(from, to)]: negative indices count from the end, both are
    clamped to the string, and an empty span gives the empty string. *)
Definition clamp_index (len i : Z) : Z :=
  if (i <? 0)%Z then Z.max (len + i) 0 else Z.min i len.

Definition slice (s : string) (from to : Z) : string :=
  let len := Z.of_nat (String.length s) in
  let a := clamp_index len from in
  let b := clamp_index len to in
  take (Z.to_nat (Z.max (b - a) 0)) (drop (Z.to_nat a) s).

(** [s.slice(from)] *)
Definition slice_from (s : string) (from : Z) : string :=
  slice s from (Z.of_nat (String.length s)).

End JsString.

(* ================================================================== *)
(** * Regular expressions *)
(* ================================================================== *)

Module Regex.
Import JsString.

(** A character class: a union of ranges, possibly negated. *)
Record charset := { negated : bool; ranges : list (ascii * ascii) }.

Definition mem (c : ascii) (cs : charset) : bool :=
  xorb (negated cs)
       (existsb (fun r => in_range (fst r) (snd r) c) (ranges cs)).

(** The fragment of the ECMAScript syntax that the source uses. *)
Inductive regex :=
| Eps                        (* the empty pattern *)
| Atom (cs : charset)        (* one character of a class *)
| Plus (cs : charset)        (* [cs+], greedy *)
| Opt (r : regex)            (* [r?], greedy *)
| Seq (r1 r2 : regex)
| Alt (r1 r2 : regex)        (* [r1|r2] *)
| Bol                        (* [^] without the m flag *)
| Eol.                       (* [$] without the m flag *)

Definition chr (c : ascii) : regex :=
  Atom {| negated := false; ranges := [(c, c)] |}.

(** A letter under the [i] flag: it and its other case. *)
Definition chr_i (lower upper : ascii) : regex :=
  Atom {| negated := false; ranges := [(lower, lower); (upper, upper)] |}.

Fixpoint lit (s : string) : regex :=
  match s with
  | EmptyString => Eps
  | String c EmptyString => chr c
  | String c s' => Seq (chr c) (lit s')
  end.

(** Length of the longest prefix of [s] made of characters of [cs]. *)
Fixpoint run_length (cs : charset) (s : string) : nat :=
  match s with
  | EmptyString => O
  | String c s' => if mem c cs then S (run_length cs s') else O
  end.

(** [k; k-1; ...; 1] *)
Fixpoint countdown (k : nat) : list nat :=
  match k with
  | O => []
  | S k' => k :: countdown k'
  end.

(** [matches r bos s]: the lengths of the prefixes of [s] that [r]
    matches, in the order in which a backtracking matcher tries them;
    [bos] tells whether [s] starts at index 0 of the subject string. *)
Fixpoint matches (r : regex) (bos : bool) (s : string) : list nat :=
  match r with
  | Eps => [O]
  | Atom cs =>
      match s with
      | String c _ => if mem c cs then [1%nat] else []
      | EmptyString => []
      end
  | Plus cs => countdown (run_length cs s)
  | Opt r' => matches r' bos s ++ [O]
  | Seq r1 r2 =>
      flat_map
        (fun n1 =>
           map (fun n2 => (n1 + n2)%nat)
               (matches r2 (bos && (n1 =? 0)%nat) (drop n1 s)))
        (matches r1 bos s)
  | Alt r1 r2 => matches r1 bos s ++ matches r2 bos s
  | Bol => if bos then [O] else []
  | Eol => if is_empty s then [O] else []
  end.

(** The match the engine reports at the current position, if any. *)
Definition match_here (r : regex) (bos : bool) (s : string) : option nat :=
  hd_error (matches r bos s).

(** [s.replace(r, rep)] for a regex without the [g] flag: the leftmost
    match is replaced. *)
Fixpoint replace_first_from (r : regex) (rep : string) (bos : bool)
         (s : string) : string :=
  match match_here r bos s with
  | Some n => rep ++ drop n s
  | None =>
      match s with
      | EmptyString => EmptyString
      | String c s' => String c (replace_first_from r rep false s')
      end
  end.

Definition replace (r : regex) (rep : string) (s : string) : string :=
  replace_first_from r rep true s.

(** [s.replace(r, rep)] for a regex with the [g] flag: matches are
    searched from left to right, each search starting where the previous
    match ended (one further after an empty match).  [skip] counts the
    characters of the current match still to be dropped. *)
Fixpoint replace_all_from (r : regex) (rep : string) (bos : bool)
         (skip : nat) (s : string) : string :=
  match skip with
  | S k =>
      match s with
      | EmptyString => EmptyString
      | String _ s' => replace_all_from r rep false k s'
      end
  | O =>
      match match_here r bos s with
      | Some (S k) =>
          rep ++ match s with
                 | EmptyString => EmptyString
                 | String _ s' => replace_all_from r rep false k s'
                 end
      | Some O =>
          rep ++ match s with
                 | EmptyString => EmptyString
                 | String c s' => String c (replace_all_from r rep false O s')
                 end
      | None =>
          match s with
          | EmptyString => EmptyString
          | String c s' => String c (replace_all_from r rep false O s')
          end
      end
  end.

Definition replace_all (r : regex) (rep : string) (s : string) : string :=
  replace_all_from r rep true O s.

(** Whether the regex matches anywhere in [s] ([r.test(s)]). *)
Fixpoint test_from (r : regex) (bos : bool) (s : string) : bool :=
  match match_here r bos s with
  | Some _ => true
  | None =>
      match s with
      | EmptyString => false
      | String _ s' => test_from r false s'
      end
  end.

Definition test (r : regex) (s : string) : bool := test_from r true s.

End Regex.

Import JsString Regex.

Definition backtick : ascii := ascii_of_nat 96.
Definition newline : ascii := ascii_of_nat 10.
Definition fence : string := String backtick (String backtick (String backtick "")).
Definition nl : string := String newline "".

Definition class_az09 : list (ascii * ascii) :=
  [("a"%char, "z"%char); ("0"%char, "9"%char)].

(** [[^a-z0-9]] *)
Definition non_alnum : charset := {| negated := true; ranges := class_az09 |}.

(** [/[^a-z0-9]+/g] *)
Definition re_non_alnum : regex := Plus non_alnum.

(** [/^-|-$/g] *)
Definition re_edge_hyphen : regex :=
  Alt (Seq Bol (chr "-")) (Seq (chr "-") Eol).

(** Line 377: the slug of the deploy stage. *)
Definition deploy_slug (name : string) : string :=
  replace_all re_edge_hyphen ""
    (replace_all re_non_alnum "-" (toLowerCase name)).


(** [/[^a-z0-9]+/g] of line 358, the same class without trimming. *)
Definition download_slug (name : string) : string :=
  replace_all re_non_alnum "-" (toLowerCase name).

(* ================================================================== *)
(** * JSON.parse *)
(* ================================================================== *)

Module Json.

(** A parsed JSON value.  A number is kept as its lexeme (the value is the
    IEEE double it denotes); a string is its sequence of UTF-16 code
    units, which a unicode escape can take beyond Latin-1; the members
    of an object are in source order, a later duplicate key shadowing an
    earlier one. *)
Inductive json :=
| JNull
| JBool (b : bool)
| JNumber (lexeme : string)
| JString (units : list N)
| JArray (items : list json)
| JObject (members : list (list N * json)).

Definition dquote : ascii := ascii_of_nat 34.
Definition backslash : ascii := ascii_of_nat 92.

Fixpoint units_of (s : string) : list N :=
  match s with
  | EmptyString => []
  | String c s' => N_of_ascii c :: units_of s'
  end.

(** JSON white space: TAB, LF, CR and SPACE. *)
Definition is_json_ws (c : ascii) : bool :=
  let n := code c in ((n =? 9) || (n =? 10) || (n =? 13) || (n =? 32))%nat.

Fixpoint skip_ws (s : string) : string :=
  match s with
  | String c s' => if is_json_ws c then skip_ws s' else s
  | EmptyString => EmptyString
  end.

Definition is_digit (c : ascii) : bool := in_range "0" "9" c.

Definition hex_value (c : ascii) : option N :=
  let n := N_of_ascii c in
  if in_range "0" "9" c then Some (n - 48)%N
  else if in_range "a" "f" c then Some (n - 87)%N
  else if in_range "A" "F" c then Some (n - 55)%N
  else None.

Definition hex4 (a b c d : ascii) : option N :=
  match hex_value a, hex_value b, hex_value c, hex_value d with
  | Some x, Some y, Some z, Some w => Some (((x * 16 + y) * 16 + z) * 16 + w)%N
  | _, _, _, _ => None
  end.

Definition escape_unit (c : ascii) : option N :=
  if (c =? dquote)%char then Some 34%N
  else if (c =? backslash)%char then Some 92%N
  else if (c =? "/")%char then Some 47%N
  else if (c =? "b")%char then Some 8%N
  else if (c =? "f")%char then Some 12%N
  else if (c =? "n")%char then Some 10%N
  else if (c =? "r")%char then Some 13%N
  else if (c =? "t")%char then Some 9%N
  else None.

(** The characters of a string after its opening quote, up to and
    including the closing quote; [acc] holds the decoded units, last
    first. *)
Fixpoint string_body (s : string) (acc : list N) : option (list N * string) :=
  match s with
  | EmptyString => None
  | String c s' =>
      if (c =? dquote)%char then Some (rev acc, s')
      else if (c =? backslash)%char then
        match s' with
        | String e s'' =>
            if (e =? "u")%char then
              match s'' with
              | String h1 (String h2 (String h3 (String h4 rest))) =>
                  match hex4 h1 h2 h3 h4 with
                  | Some u => string_body rest (u :: acc)
                  | None => None
                  end
              | _ => None
              end
            else
              match escape_unit e with
              | Some u => string_body s'' (u :: acc)
              | None => None
              end
        | EmptyString => None
        end
      else if (code c <? 32)%nat then None
      else string_body s' (N_of_ascii c :: acc)
  end.

Fixpoint span_digits (s : string) : string * string :=
  match s with
  | String c s' =>
      if is_digit c then
        let (d, r) := span_digits s' in (String c d, r)
      else (EmptyString, s)
  | EmptyString => (EmptyString, EmptyString)
  end.

(** One or more digits. *)
Definition digits1 (s : string) : option (string * string) :=
  match span_digits s with
  | (EmptyString, _) => None
  | (d, r) => Some (d, r)
  end.

(** The integer part: a single 0, or a non-zero digit and more digits. *)
Definition int_part (s : string) : option (string * string) :=
  match s with
  | String c s' =>
      if (c =? "0")%char then Some ("0", s')
      else if is_digit c then
        let (d, r) := span_digits s' in Some (String c d, r)
      else None
  | EmptyString => None
  end.

Definition frac_part (s : string) : option (string * string) :=
  match s with
  | String c s' =>
      if (c =? ".")%char then
        match digits1 s' with
        | Some (d, r) => Some (String c d, r)
        | None => None
        end
      else Some (EmptyString, s)
  | EmptyString => Some (EmptyString, s)
  end.

Definition exp_sign (s : string) : string * string :=
  match s with
  | String c s' =>
      if (c =? "+")%char || (c =? "-")%char then (String c "", s')
      else (EmptyString, s)
  | EmptyString => (EmptyString, s)
  end.

Definition exp_part (s : string) : option (string * string) :=
  match s with
  | String c s' =>
      if (c =? "e")%char || (c =? "E")%char then
        let (sg, r) := exp_sign s' in
        match digits1 r with
        | Some (d, r') => Some (String c (sg ++ d), r')
        | None => None
        end
      else Some (EmptyString, s)
  | EmptyString => Some (EmptyString, s)
  end.

Definition minus_sign (s : string) : string * string :=
  match s with
  | String c s' =>
      if (c =? "-")%char then (String c "", s') else (EmptyString, s)
  | EmptyString => (EmptyString, s)
  end.

(** A number: its lexeme and what follows it. *)
Definition number (s : string) : option (string * string) :=
  let (sg, r0) := minus_sign s in
  match int_part r0 with
  | None => None
  | Some (i, r1) =>
      match frac_part r1 with
      | None => None
      | Some (f, r2) =>
          match exp_part r2 with
          | None => None
          | Some (e, r3) => Some (sg ++ i ++ f ++ e, r3)
          end
      end
  end.

Inductive outcome (A : Type) :=
| Parsed (a : A)
| Invalid
| OutOfFuel.
Arguments Parsed {A} a.
Arguments Invalid {A}.
Arguments OutOfFuel {A}.

Definition keyword (k : string) (v : json) (s : string)
  : outcome (json * string) :=
  if prefix k s then Parsed (v, drop (String.length k) s) else Invalid.

(** The character that [s] starts with, after white space. *)
Definition next_is (c : ascii) (s : string) : option string :=
  match skip_ws s with
  | String d r => if (d =? c)%char then Some r else None
  | EmptyString => None
  end.

(** [value fuel s] reads one JSON value at the head of [s], after white
    space, and returns it with the rest of the input.  [elements] reads
    the items of an array after its first bracket, [members] those of
    an object after its brace. *)
Fixpoint value (fuel : nat) (s : string) : outcome (json * string) :=
  match fuel with
  | O => OutOfFuel
  | S f =>
      match skip_ws s with
      | EmptyString => Invalid
      | String c r =>
          if (c =? "[")%char then
            match next_is "]" r with
            | Some r' => Parsed (JArray [], r')
            | None => elements f [] r
            end
          else if (c =? "{")%char then
            match next_is "}" r with
            | Some r' => Parsed (JObject [], r')
            | None => members f [] r
            end
          else if (c =? dquote)%char then
            match string_body r [] with
            | Some (u, r') => Parsed (JString u, r')
            | None => Invalid
            end
          else if (c =? "t")%char then keyword "true" (JBool true) (String c r)
          else if (c =? "f")%char then keyword "false" (JBool false) (String c r)
          else if (c =? "n")%char then keyword "null" JNull (String c r)
          else
            match number (String c r) with
            | Some (lx, r') => Parsed (JNumber lx, r')
            | None => Invalid
            end
      end
  end

with elements (fuel : nat) (acc : list json) (s : string)
  : outcome (json * string) :=
  match fuel with
  | O => OutOfFuel
  | S f =>
      match value f s with
      | Parsed (v, r) =>
          match next_is "," r with
          | Some r' => elements f (v :: acc) r'
          | None =>
              match next_is "]" r with
              | Some r' => Parsed (JArray (rev (v :: acc)), r')
              | None => Invalid
              end
          end
      | Invalid => Invalid
      | OutOfFuel => OutOfFuel
      end
  end

with members (fuel : nat) (acc : list (list N * json)) (s : string)
  : outcome (json * string) :=
  match fuel with
  | O => OutOfFuel
  | S f =>
      match next_is dquote s with
      | Some r =>
          match string_body r [] with
          | Some (k, r1) =>
              match next_is ":" r1 with
              | Some r2 =>
                  match value f r2 with
                  | Parsed (v, r3) =>
                      match next_is "," r3 with
                      | Some r4 => members f ((k, v) :: acc) r4
                      | None =>
                          match next_is "}" r3 with
                          | Some r4 => Parsed (JObject (rev ((k, v) :: acc)), r4)
                          | None => Invalid
                          end
                      end
                  | Invalid => Invalid
                  | OutOfFuel => OutOfFuel
                  end
              | None => Invalid
              end
          | None => Invalid
          end
      | None => Invalid
      end
  end.

(** Fuel that no input exhausts (lemma [value_fuel_enough]). *)
Definition fuel_for (s : string) : nat := S (2 * String.length s).

(** [JSON.parse(s)]: [None] stands for the SyntaxError it throws. *)
Definition JSON_parse (s : string) : option json :=
  match value (fuel_for s) s with
  | Parsed (v, r) => if is_empty (skip_ws r) then Some v else None
  | _ => None
  end.

Definition is_array (v : json) : bool :=
  match v with JArray _ => true | _ => false end.

End Json.

Import Json.

(* ================================================================== *)
(** * The response extractor *)
(* ================================================================== *)

(** [/```json\n?|\n?```/g] *)
Definition re_json_fence : regex :=
  Alt (Seq (lit (fence ++ "json")) (Opt (chr newline)))
      (Seq (Opt (chr newline)) (lit fence)).

(** [/```\n?/g] *)
Definition re_bare_fence : regex :=
  Seq (lit fence) (Opt (chr newline)).

(** Line 114: the two replacements and [trim]. *)
Definition strip_json_fences (text : string) : string :=
  trim (replace_all re_bare_fence "" (replace_all re_json_fence "" text)).

(** Lines 113-119.  [inl msg] is the exception thrown. *)
Definition parseJsonArray (text : string) : string + json :=
  let cleaned := strip_json_fences text in
  let start := indexOf cleaned "[" in
  let end_ := lastIndexOf cleaned "]" in
  if (start =? -1)%Z || (end_ =? -1)%Z
  then inl "Could not find JSON array in response"
  else match JSON_parse (slice cleaned start (end_ + 1)%Z) with
       | Some v => inr v
       | None => inl "SyntaxError"
       end.

(** [/^```html?\n?/i] *)
Definition re_html_fence_open : regex :=
  Seq Bol
    (Seq (lit fence)
       (Seq (chr_i "h" "H")
          (Seq (chr_i "t" "T")
             (Seq (chr_i "m" "M")
                (Seq (Opt (chr_i "l" "L")) (Opt (chr newline))))))).

(** [/^```\n?/] *)
Definition re_fence_open : regex :=
  Seq Bol (Seq (lit fence) (Opt (chr newline))).

(** [/\n?```$/] *)
Definition re_fence_close : regex :=
  Seq (Opt (chr newline)) (Seq (lit fence) Eol).

Definition strip_html_fences (html : string) : string :=
  trim (replace re_fence_close ""
          (replace re_fence_open ""
             (replace re_html_fence_open "" html))).

(** Lines 294-298, the cleanup of the generated page (the specification
    calls it extractHtmlDocument). *)
Definition extractHtmlDocument (raw : string) : string :=
  let html := strip_html_fences raw in
  if negb (startsWith (toLowerCase html) "<!doctype")
     && negb (startsWith (toLowerCase html) "<html")
  then
    let start := indexOf html "<!DOCTYPE" in
    if (start >? -1)%Z then slice_from html start else html
  else html.

(* ================================================================== *)
(** * Stored state, the model client and the handler monad *)
(* ================================================================== *)

Definition uuid := string.
Definition timestamp := N.

(** The values the handlers write into [smes.status]. *)
Inductive status := discovered | website_built | deployed | email_ready.

(** A row of [smes].  The descriptive columns that no stage updates and
    that only feed the prompts are gathered in [profile]. *)
Record sme_row := {
  sme_id : uuid;
  country_id : uuid;
  sme_name : string;
  profile : list (string * string);
  sme_status : status;
  sme_deployed_url : option string
}.

(** A row of [websites] (its own generated key left out).  [NULL] is
    [None]. *)
Record website_row := {
  w_sme_id : uuid;
  w_html : string;
  w_deployed_url : option string;
  w_slug : option string;
  w_built_at : timestamp;
  w_deployed_at : option timestamp
}.

Record database := {
  smes : list sme_row;
  websites : list website_row
}.

(** Content blocks of a model response, by their [type]. *)
Inductive block :=
| text_block (text : string)
| tool_use (id : string)
| server_tool_use (id : string)
| web_search_tool_result (id : string).

Record tool_result := {
  tool_use_id : string;
  result_content : string
}.

Inductive role := user | assistant.

Inductive content :=
| Plain (text : string)
| Blocks (bs : list block)
| ToolResults (rs : list tool_result).

Record message := { msg_role : role; msg_content : content }.

Record request := {
  max_tokens : N;
  tools : list string;
  system : string;
  messages : list message
}.

(** The model endpoint: [None] when the call is rejected. *)
Definition oracle := request -> option (list block).

(** The wording of the prompts.  Those of the search take the name of
    the country.  The template of the website builder (lines 261-289)
    reads the name and the descriptive columns of the SME row and no
    other column; evaluating it throws a [TypeError] when [products] or
    [tags] holds a value that has no [join] (lines 265, 273): the
    template then gives [None]. *)
Record prompts := {
  search_system : string -> string;
  search_user : string -> string;
  history_user : string -> string;
  final_system : string -> string;
  builder_system : string;
  builder_prompt : string -> list (string * string) -> option string
}.

(** What a handler runs in: the stored tables, the outcome of the coming
    statements ([true]: the statement fails; past the end of the list
    every statement succeeds) and the requests sent to the model so far. *)
Record world := {
  store : database;
  faults : list bool;
  sent : list request
}.

Inductive result (A : Type) :=
| Return (a : A)
| Throw (msg : string).
Arguments Return {A} a.
Arguments Throw {A} msg.

Definition M (A : Type) : Type := world -> result A * world.

Definition ret {A} (a : A) : M A := fun w => (Return a, w).

Definition throw {A} (msg : string) : M A := fun w => (Throw msg, w).

Definition bind {A B} (m : M A) (k : A -> M B) : M B :=
  fun w =>
    match m w with
    | (Return a, w') => k a w'
    | (Throw e, w') => (Throw e, w')
    end.

(** [try { m } catch (err) { h err }]: what [m] wrote before it threw
    stays written. *)
Definition try_catch {A} (m : M A) (h : string -> M A) : M A :=
  fun w =>
    match m w with
    | (Return a, w') => (Return a, w')
    | (Throw e, w') => h e w'
    end.

Declare Scope js_scope.
Delimit Scope js_scope with js.
Notation "x <- m ;; k" := (bind m (fun x => k))
  (at level 61, m at next level, right associativity) : js_scope.
Notation "m ;; k" := (bind m (fun _ => k))
  (at level 61, right associativity) : js_scope.
Local Open Scope js_scope.

(** [await pool.query(...)]: one statement.  A statement that fails,
    through the fault schedule or by violating a constraint, changes
    nothing. *)
Definition pool_query {A} (stmt : database -> string + (database * A)) : M A :=
  fun w =>
    let failing := hd false (faults w) in
    let w' := {| store := store w; faults := tl (faults w); sent := sent w |} in
    if failing then (Throw "storage failure", w')
    else match stmt (store w) with
         | inl e => (Throw e, w')
         | inr (d, a) =>
             (Return a, {| store := d; faults := tl (faults w); sent := sent w |})
         end.

(** [await anthropic.messages.create(req)] *)
Definition messages_create (llm : oracle) (req : request) : M (list block) :=
  fun w =>
    let w' := {| store := store w; faults := faults w;
                 sent := (sent w ++ [req])%list |} in
    match llm req with
    | Some c => (Return c, w')
    | None => (Throw "model call failed", w')
    end.

(** Lines 17-25.  The result is [None] for [undefined], when the first
    block has no [text]; with no block at all reading [.text] throws. *)
Definition callClaude (llm : oracle) (systemPrompt userPrompt : string)
           (maxTokens : N) : M (option string) :=
  response <- messages_create llm
    {| max_tokens := maxTokens; tools := [];
       system := systemPrompt;
       messages := [{| msg_role := user; msg_content := Plain userPrompt |}] |} ;;
  match response with
  | [] => throw "TypeError"
  | text_block t :: _ => ret (Some t)
  | _ :: _ => ret None
  end.

(** A thrown parse error propagates to the caller. *)
Definition lift {A} (r : string + A) : M A :=
  match r with
  | inl e => throw e
  | inr a => ret a
  end.

(* ================================================================== *)
(** * The conversational search driver *)
(* ================================================================== *)

Definition is_tool_use (b : block) : bool :=
  match b with tool_use _ => true | _ => false end.

Definition is_text (b : block) : bool :=
  match b with text_block _ => true | _ => false end.

Definition block_id (b : block) : string :=
  match b with
  | text_block _ => ""
  | tool_use i | server_tool_use i | web_search_tool_result i => i
  end.

(** Whether a value is not [undefined]. *)
Definition defined {A} (v : option A) : bool :=
  match v with Some _ => true | None => false end.

(** [b?.text || ''] *)
Definition text_or_empty (b : option block) : string :=
  match b with
  | Some (text_block t) => t
  | _ => ""
  end.

Definition user_says (c : content) : message :=
  {| msg_role := user; msg_content := c |}.

(** The first request of the driver (lines 30-74). *)
Definition search_request (P : prompts) (countryName : string) : request :=
  {| max_tokens := 8000; tools := ["web_search"];
     system := search_system P countryName;
     messages := [user_says (Plain (search_user P countryName))] |}.

(** Lines 91-93: one acknowledgment for each tool invocation. *)
Definition tool_acknowledgments (response : list block) : list tool_result :=
  map (fun b => {| tool_use_id := block_id b;
                   result_content := "Search results retrieved." |})
      (filter is_tool_use response).

(** Lines 28-111. *)
Definition searchSMEsWithWebSearch (P : prompts) (llm : oracle)
           (countryName : string) : M json :=
  searchResponse <- messages_create llm (search_request P countryName) ;;
  let messages0 :=
    [user_says (Plain (history_user P countryName));
     {| msg_role := assistant; msg_content := Blocks searchResponse |}] in
  let hasToolUse := existsb is_tool_use searchResponse in
  let textBlock := find is_text searchResponse in
  if hasToolUse || negb (defined textBlock) then
    let toolResults := tool_acknowledgments searchResponse in
    let messages1 :=
      if (0 <? List.length toolResults)%nat
      then (messages0 ++ [user_says (ToolResults toolResults)])%list
      else messages0 in
    finalResponse <- messages_create llm
      {| max_tokens := 8000; tools := [];
         system := final_system P countryName;
         messages := messages1 |} ;;
    let finalText := text_or_empty (find is_text finalResponse) in
    lift (parseJsonArray finalText)
  else lift (parseJsonArray (text_or_empty textBlock)).

(* ================================================================== *)
(** * Statements *)
(* ================================================================== *)

Definition statement (A : Type) : Type := database -> string + (database * A).

(** [SELECT * FROM smes WHERE id = $1] *)
Definition select_sme (id : uuid) : statement (list sme_row) :=
  fun d => inr (d, filter (fun r => sme_id r =? id) (smes d)).

(** [SELECT ... FROM websites WHERE sme_id = $1] *)
Definition select_website (id : uuid) : statement (list website_row) :=
  fun d => inr (d, filter (fun r => w_sme_id r =? id) (websites d)).

Definition rebuilt (now : timestamp) (page : string) (r : website_row)
  : website_row :=
  {| w_sme_id := w_sme_id r; w_html := page;
     w_deployed_url := None; w_slug := w_slug r;
     w_built_at := now; w_deployed_at := None |}.

Definition fresh_website (now : timestamp) (id : uuid) (page : string)
  : website_row :=
  {| w_sme_id := id; w_html := page;
     w_deployed_url := None; w_slug := None;
     w_built_at := now; w_deployed_at := None |}.

(** Lines 300-305:
    [INSERT INTO websites (sme_id, html) VALUES ($1, $2)
     ON CONFLICT (sme_id) DO UPDATE SET html = $2, built_at = NOW(),
     deployed_url = NULL, deployed_at = NULL].
    The insertion needs the referenced SME row.  This is the statement as
    it runs once PostgreSQL has taken its parameters; the handler sends
    it through [store_page], which reads the page first. *)
Definition upsert_website (now : timestamp) (id : uuid) (page : string)
  : statement unit :=
  fun d =>
    if existsb (fun r => w_sme_id r =? id) (websites d) then
      inr ({| smes := smes d;
              websites :=
                map (fun r => if w_sme_id r =? id then rebuilt now page r else r)
                    (websites d) |}, tt)
    else if existsb (fun r => sme_id r =? id) (smes d) then
      inr ({| smes := smes d;
              websites := (websites d ++ [fresh_website now id page])%list |}, tt)
    else inl "violates foreign key constraint".

Definition update_smes (id : uuid) (f : sme_row -> sme_row) : statement unit :=
  fun d =>
    inr ({| smes := map (fun r => if sme_id r =? id then f r else r) (smes d);
            websites := websites d |}, tt).

(** Whether a text holds the character U+0000. *)
Fixpoint has_nul (t : string) : bool :=
  match t with
  | EmptyString => false
  | String c t' => (nat_of_ascii c =? 0)%nat || has_nul t'
  end.

(** The error of PostgreSQL for such a text. *)
Definition refused_text : string :=
  "invalid byte sequence for encoding "
  ++ String dquote ("UTF8" ++ String dquote ": 0x00").

(** A statement with a text parameter [t]: PostgreSQL refuses a text
    that holds U+0000 when it reads the parameters, before the statement
    runs. *)
Definition with_text {A} (t : string) (stmt : statement A) : statement A :=
  fun d => if has_nul t then inl refused_text else stmt d.

(** Lines 300-305 with their parameters: the upsert of the page, refused
    when the page holds U+0000. *)
Definition store_page (now : timestamp) (id : uuid) (page : string)
  : statement unit :=
  with_text page (upsert_website now id page).

Definition as_built (r : sme_row) : sme_row :=
  {| sme_id := sme_id r; country_id := country_id r;
     sme_name := sme_name r; profile := profile r;
     sme_status := website_built; sme_deployed_url := None |}.

(** Line 306:
    [UPDATE smes SET status = 'website_built', deployed_url = NULL
     WHERE id = $1] *)
Definition mark_built (id : uuid) : statement unit :=
  update_smes id as_built.

Definition deployed_site (now : timestamp) (url slug_ : string)
           (r : website_row) : website_row :=
  {| w_sme_id := w_sme_id r; w_html := w_html r;
     w_deployed_url := Some url; w_slug := Some slug_;
     w_built_at := w_built_at r; w_deployed_at := Some now |}.

(** Lines 381-384:
    [UPDATE websites SET deployed_url = $1, slug = $2, deployed_at = NOW()
     WHERE sme_id = $3] *)
Definition set_deployment (now : timestamp) (url slug_ : string) (id : uuid)
  : statement unit :=
  fun d =>
    inr ({| smes := smes d;
            websites :=
              map (fun r => if w_sme_id r =? id
                            then deployed_site now url slug_ r else r)
                  (websites d) |}, tt).

Definition as_deployed (url : string) (r : sme_row) : sme_row :=
  {| sme_id := sme_id r; country_id := country_id r;
     sme_name := sme_name r; profile := profile r;
     sme_status := deployed; sme_deployed_url := Some url |}.

(** Line 385:
    [UPDATE smes SET status = 'deployed', deployed_url = $1 WHERE id = $2] *)
Definition mark_deployed (url : string) (id : uuid) : statement unit :=
  update_smes id (as_deployed url).

(* ================================================================== *)
(** * The handlers *)
(* ================================================================== *)

Inductive body :=
| error_body (error : string) (detail : option string)
| ok_body
| deploy_body (url slug_ note : string)
| metadata_body (deployedUrl slug_ : option string) (builtAt : timestamp)
| attachment (filename page : string)
| text_body (s : string).

(** What the client gets: a response, or nothing when the handler's
    promise is rejected outside any [try]. *)
Inductive reply :=
| Reply (code : Z) (b : body)
| Unhandled (msg : string).

Definition handler (m : M reply) (w : world) : reply * world :=
  match m w with
  | (Return r, w') => (r, w')
  | (Throw e, w') => (Unhandled e, w')
  end.

(** Lines 254-313, [POST /api/smes/:smeId/build-website].  The template
    of the prompt is evaluated between the 404 check and the [try] block
    (lines 261-289): when it throws, the rejection escapes the handler
    as that of the first SELECT does. *)
Definition build_website (P : prompts) (llm : oracle) (now : timestamp)
           (smeId : uuid) : world -> reply * world :=
  handler (
    rows <- pool_query (select_sme smeId) ;;
    match hd_error rows with
    | None => ret (Reply 404 (error_body "SME not found" None))
    | Some sme =>
        match builder_prompt P (sme_name sme) (profile sme) with
        | None => throw "TypeError"
        | Some prompt =>
            try_catch
              (generated <- callClaude llm (builder_system P) prompt 8000 ;;
               match generated with
               | None => throw "TypeError"
               | Some raw =>
                   let page := extractHtmlDocument raw in
                   pool_query (store_page now (sme_id sme) page) ;;
                   pool_query (mark_built (sme_id sme)) ;;
                   ret (Reply 200 ok_body)
               end)
              (fun err =>
                 ret (Reply 500
                        (error_body "Website builder failed" (Some err))))
        end
    end).

Definition site_url (slug_ : string) : string :=
  "https://" ++ slug_ ++ ".netlify.app".

Definition deploy_note : string :=
  "Simulated URL. Add NETLIFY_TOKEN to .env for live deploys.".

(** Lines 369-390, [POST /api/smes/:smeId/deploy]. *)
Definition deploy (now : timestamp) (smeId : uuid) : world -> reply * world :=
  handler (
    rows <- pool_query (select_sme smeId) ;;
    match hd_error rows with
    | None => ret (Reply 404 (error_body "SME not found" None))
    | Some sme =>
        siteRows <- pool_query (select_website smeId) ;;
        match hd_error siteRows with
        | None => ret (Reply 400 (error_body "Build website first" None))
        | Some _ =>
            let slug_ := deploy_slug (sme_name sme) in
            let url := site_url slug_ in
            try_catch
              (pool_query (set_deployment now url slug_ (sme_id sme)) ;;
               pool_query (mark_deployed url (sme_id sme)) ;;
               ret (Reply 200 (deploy_body url slug_ deploy_note)))
              (fun err =>
                 ret (Reply 500 (error_body "Deploy failed" (Some err))))
        end
    end).

(** [v || d] for a string that may be [undefined]. *)
Definition or_default (v : option string) (d : string) : string :=
  match v with
  | Some s => if is_empty s then d else s
  | None => d
  end.

(** Line 358: the slug that names the downloaded file. *)
Definition download_name (smeRows : list sme_row) : string :=
  download_slug (or_default (option_map sme_name (hd_error smeRows)) "website").

(** Lines 353-365, [GET /api/smes/:smeId/website/download]. *)
Definition download (smeId : uuid) : world -> reply * world :=
  handler (
    try_catch
      (smeRows <- pool_query (select_sme smeId) ;;
       rows <- pool_query (select_website smeId) ;;
       match hd_error rows with
       | None => ret (Reply 404 (text_body "Not found"))
       | Some site =>
           ret (Reply 200 (attachment (download_name smeRows ++ ".html")
                                      (w_html site)))
       end)
      (fun _ => ret (Reply 500 (error_body "DB error" None)))).

(** Lines 325-336, [GET /api/smes/:smeId/website]. *)
Definition get_website (smeId : uuid) : world -> reply * world :=
  handler (
    try_catch
      (rows <- pool_query (select_website smeId) ;;
       match hd_error rows with
       | None => ret (Reply 404 (error_body "No website built yet" None))
       | Some r =>
           ret (Reply 200 (metadata_body (w_deployed_url r) (w_slug r)
                                         (w_built_at r)))
       end)
      (fun err => ret (Reply 500 (error_body "DB error" (Some err))))).

Definition dq : string := String dquote "".

(* ================================================================== *)
(** * The specification's wording *)
(* ================================================================== *)

Module Spec.

(** Alphanumeric, for a lowercased name: a letter a-z or a digit. *)
Definition alphanumeric (c : ascii) : bool :=
  in_range "a" "z" c || in_range "0" "9" c.

(** Every maximal run of non-alphanumeric characters becomes one hyphen;
    [in_run] tells that the run the next character may continue has
    already been given its hyphen. *)
Fixpoint collapse_runs (in_run : bool) (s : string) : string :=
  match s with
  | EmptyString => EmptyString
  | String c s' =>
      if alphanumeric c then String c (collapse_runs false s')
      else if in_run then collapse_runs true s'
      else String "-" (collapse_runs true s')
  end.

Fixpoint strip_leading_hyphens (s : string) : string :=
  match s with
  | EmptyString => EmptyString
  | String c s' => if (c =? "-")%char then strip_leading_hyphens s' else s
  end.

Fixpoint strip_trailing_hyphens (s : string) : string :=
  match s with
  | EmptyString => EmptyString
  | String c s' =>
      let t := strip_trailing_hyphens s' in
      if (c =? "-")%char && is_empty t then EmptyString else String c t
  end.

Fixpoint contains (c : ascii) (s : string) : bool :=
  match s with
  | EmptyString => false
  | String d s' => (d =? c)%char || contains c s'
  end.

(** Whether [s] ends with [p]. *)
Fixpoint ends_with (p s : string) : bool :=
  (s =? p)
  || match s with
     | EmptyString => false
     | String _ s' => ends_with p s'
     end.

(** The text from its first opening bracket on. *)
Fixpoint from_first_open (s : string) : string :=
  match s with
  | EmptyString => EmptyString
  | String c s' => if (c =? "[")%char then s else from_first_open s'
  end.

(** The text up to its last closing bracket, the bracket included; empty
    when it has none. *)
Fixpoint upto_last_close (s : string) : string :=
  match s with
  | EmptyString => EmptyString
  | String c s' =>
      let t := upto_last_close s' in
      if is_empty t
      then (if (c =? "]")%char then String c EmptyString else EmptyString)
      else String c t
  end.

(** "the substring between the first [[] and the last []] (inclusive)" *)
Definition bracket_span (s : string) : string :=
  upto_last_close (from_first_open s).

(** White space below U+0100: TAB, LF, VT, FF, CR, SPACE and NO-BREAK
    SPACE. *)
Definition whitespace (c : ascii) : bool :=
  existsb (Nat.eqb (nat_of_ascii c)) [9; 10; 11; 12; 13; 32; 160]%nat.

Fixpoint strip_leading_space (s : string) : string :=
  match s with
  | EmptyString => EmptyString
  | String c s' => if whitespace c then strip_leading_space s' else s
  end.

Fixpoint strip_trailing_space (s : string) : string :=
  match s with
  | EmptyString => EmptyString
  | String c s' =>
      match strip_trailing_space s' with
      | EmptyString => if whitespace c then EmptyString else String c EmptyString
      | t => String c t
      end
  end.

(** "trims whitespace" *)
Definition trimmed (s : string) : string :=
  strip_trailing_space (strip_leading_space s).

(** The length of the marker that a text starts with, [0] when it starts
    with none.  A tagged marker is taken with the newline after it, an
    untagged one with the newline before it; a marker that follows a
    newline is met at that newline, and so taken as an untagged one,
    without its tag. *)
Definition tagged_marker (s : string) : nat :=
  if prefix (fence ++ "json" ++ nl) s then 8
  else if prefix (fence ++ "json") s then 7
  else if prefix (nl ++ fence) s then 4
  else if prefix fence s then 3
  else 0.

(** An untagged marker, taken with the newline after it. *)
Definition bare_marker (s : string) : nat :=
  if prefix (fence ++ nl) s then 4
  else if prefix fence s then 3
  else 0.

(** The text without the markers that [marker] finds in it from left to
    right, the search going on where a marker ended; [skip] counts the
    characters of the current marker still to be dropped. *)
Fixpoint without (marker : string -> nat) (skip : nat) (s : string) : string :=
  match s with
  | EmptyString => EmptyString
  | String c s' =>
      match skip with
      | S k => without marker k s'
      | O =>
          match marker s with
          | S k => without marker k s'
          | O => String c (without marker O s')
          end
      end
  end.

(** "strips any markdown code-fence markers (triple-backtick, optionally
    tagged json), trims whitespace": the markers met from left to right,
    then the markers that their removal has put together. *)
Definition cleaned (text : string) : string :=
  trimmed (without bare_marker 0 (without tagged_marker 0 text)).

(** "lowercase; any run of non-alphanumeric characters collapsed to a
    single hyphen; leading/trailing hyphens trimmed" *)
Definition slug_of (name : string) : string :=
  strip_trailing_hyphens
    (strip_leading_hyphens (collapse_runs false (toLowerCase name))).

End Spec.

(* ================================================================== *)
(** * Closed forms of the replacements *)
(* ================================================================== *)

(** What [/-$/] removes after index 0: a hyphen that ends the string. *)
Fixpoint strip_last_hyphen (s : string) : string :=
  match s with
  | EmptyString => EmptyString
  | String c s' =>
      if (c =? "-")%char && is_empty s' then EmptyString
      else String c (strip_last_hyphen s')
  end.

(** What [/^-|-$/g] removes: one hyphen at index 0 and one at the end. *)
Definition strip_edge_hyphens (s : string) : string :=
  match s with
  | EmptyString => EmptyString
  | String c s' =>
      if (c =? "-")%char then strip_last_hyphen s' else strip_last_hyphen s
  end.

(** No two hyphens in a row. *)
Fixpoint single_hyphens (s : string) : bool :=
  match s with
  | String c ((String d _) as s') =>
      negb ((c =? "-")%char && (d =? "-")%char) && single_hyphens s'
  | _ => true
  end.

(** The index of the first occurrence of [p] in [s], counted from the
    head of [s]. *)
Fixpoint first_at (p s : string) : option nat :=
  if prefix p s then Some O
  else match s with
       | EmptyString => None
       | String _ s' => option_map S (first_at p s')
       end.

(** The index of the last occurrence. *)
Fixpoint last_at (p s : string) : option nat :=
  match s with
  | EmptyString => if prefix p s then Some O else None
  | String _ s' =>
      match last_at p s' with
      | Some k => Some (S k)
      | None => if prefix p s then Some O else None
      end
  end.



(* ================================================================== *)
(** * Reading the stored state *)
(* ================================================================== *)

(** The rows of [websites] that belong to an SME. *)
Definition website_of (id : uuid) (d : database) : list website_row :=
  filter (fun r => w_sme_id r =? id) (websites d).

(** The rows of [smes] with a given key. *)
Definition sme_of (id : uuid) (d : database) : list sme_row :=
  filter (fun r => sme_id r =? id) (smes d).

(** The model answers every request with a text block holding [raw]
    first. *)
Definition answers (llm : oracle) (raw : string) : Prop :=
  forall req, exists rest, llm req = Some (text_block raw :: rest).

(** The first two statements of the schedule succeed. *)
Definition reads_succeed (w : world) : Prop :=
  hd false (faults w) = false /\ hd false (tl (faults w)) = false.

Definition to_result {A} (r : string + A) : result A :=
  match r with
  | inl e => Throw e
  | inr a => Return a
  end.

(** ** Sample data *)

Definition acme_url : string := "https://acme-co.netlify.app".

Definition acme : sme_row :=
  {| sme_id := "s1"; country_id := "c1"; sme_name := "Acme & Co.";
     profile := []; sme_status := deployed;
     sme_deployed_url := Some acme_url |}.

Definition acme_site : website_row :=
  {| w_sme_id := "s1"; w_html := "<html>first</html>";
     w_deployed_url := Some acme_url; w_slug := Some "acme-co";
     w_built_at := 1%N; w_deployed_at := Some 2%N |}.

Definition acme_deployed : database :=
  {| smes := [acme]; websites := [acme_site] |}.

Definition acme_discovered : database :=
  {| smes := [{| sme_id := "s1"; country_id := "c1";
                 sme_name := "Acme & Co."; profile := [];
                 sme_status := discovered; sme_deployed_url := None |}];
     websites := [] |}.

Definition plain_prompts : prompts :=
  {| search_system := fun c => "research " ++ c;
     search_user := fun c => "search " ++ c;
     history_user := fun c => "searched " ++ c;
     final_system := fun c => "answer for " ++ c;
     builder_system := "designer";
     builder_prompt := fun name _ => Some ("build " ++ name) |}.

(** A model that always answers with the same text. *)
Definition canned (raw : string) : oracle := fun _ => Some [text_block raw].

Definition quiet (d : database) : world :=
  {| store := d; faults := []; sent := [] |}.

(** The deployed SME, with the third statement to come failing: for
    build-website that is the status update. *)
Definition acme_third_fails : world :=
  {| store := acme_deployed; faults := [false; false; true]; sent := [] |}.

(** The same with the fourth failing: the status update of deploy. *)
Definition acme_fourth_fails : world :=
  {| store := acme_deployed; faults := [false; false; false; true];
     sent := [] |}.

(** A model that asks for a search first and answers the request that
    offers no tool with an array. *)
Definition searching_model : oracle :=
  fun req =>
    match tools req with
    | [] => Some [text_block "[1]"]
    | _ => Some [tool_use "t1"; text_block "Searching"]
    end.

(** The prompt of the website builder for an SME row, when its template
    evaluates. *)
Definition builder_prompt_of (P : prompts) (row : sme_row) : option string :=
  builder_prompt P (sme_name row) (profile row).

(** The request that the website builder sends with a prompt. *)
Definition builder_request (P : prompts) (prompt : string) : request :=
  {| max_tokens := 8000; tools := [];
     system := builder_system P;
     messages := [user_says (Plain prompt)] |}.

(** The world after [k] statements and the requests [reqs], with the
    tables [d]. *)
Definition advance (k : nat) (reqs : list request) (d : database) (w : world)
  : world :=
  {| store := d; faults := skipn k (faults w);
     sent := (sent w ++ reqs)%list |}.

(** The tables after a statement has run; unchanged when it fails. *)
Definition ran {A} (stmt : statement A) (d : database) : database :=
  match stmt d with
  | inr (d', _) => d'
  | inl _ => d
  end.

(** Whether the statement [k] places ahead in the schedule fails. *)
Definition fails_at (k : nat) (w : world) : bool := nth k (faults w) false.

(** The second request of the driver, after the response [first]. *)
Definition final_request (P : prompts) (countryName : string)
           (first : list block) : request :=
  let invocations := filter is_tool_use first in
  {| max_tokens := 8000; tools := [];
     system := final_system P countryName;
     messages :=
       ([user_says (Plain (history_user P countryName));
         {| msg_role := assistant; msg_content := Blocks first |}]
        ++ (if (1 <=? List.length invocations)%nat
            then [user_says (ToolResults (tool_acknowledgments first))]
            else []))%list |}.

(** "one or more tool-invocation blocks, or no plain-text block at all" *)
Definition incomplete (first : list block) : bool :=
  (1 <=? List.length (filter is_tool_use first))%nat
  || (List.length (filter is_text first) =? 0)%nat.

(* ================================================================== *)
(** * Shapes of texts *)
(* ================================================================== *)

(** Every character of [s] satisfies [p]. *)
Fixpoint all_chars (p : ascii -> bool) (s : string) : bool :=
  match s with
  | EmptyString => true
  | String c s' => p c && all_chars p s'
  end.

(** Some character of [s] satisfies [p]. *)
Fixpoint some_char (p : ascii -> bool) (s : string) : bool :=
  match s with
  | EmptyString => false
  | String c s' => p c || some_char p s'
  end.

(** The characters a slug is made of: a-z, 0-9 and the hyphen. *)
Definition slug_char (c : ascii) : bool :=
  Spec.alphanumeric c || (c =? "-")%char.

(** A page wrapped in a fence, as a model answers in markdown. *)
Definition fenced (tag body : string) : string :=
  fence ++ tag ++ nl ++ body ++ nl ++ fence.

(** Whether a text starts as an HTML document, whatever the case. *)
Definition starts_as_document (s : string) : bool :=
  startsWith (toLowerCase s) "<!doctype" || startsWith (toLowerCase s) "<html".

(* ================================================================== *)
(** * Outcomes of a generation *)
(* ================================================================== *)

(** The text that [callClaude] returns for a request, when it returns
    one: the model call succeeds and its first block is a text block. *)
Definition generated (llm : oracle) (req : request) : option string :=
  match llm req with
  | Some (text_block t :: _) => Some t
  | _ => None
  end.

(** What is thrown when no text is returned: by the client when the call
    is rejected, by reading [.text] or calling [.replace] otherwise. *)
Definition generation_error (llm : oracle) (req : request) : string :=
  match llm req with
  | None => "model call failed"
  | Some _ => "TypeError"
  end.

(* ================================================================== *)
(** * The preview handler and the constraints of the schema *)
(* ================================================================== *)

Definition no_site_page : string :=
  "<html><body style=" ++ dq
  ++ "font-family:sans-serif;padding:40px;color:#666" ++ dq
  ++ "><h2>No website built yet</h2></body></html>".

(** Lines 339-350, [GET /api/smes/:smeId/website/preview].  The reply
    records the status and what is sent; the headers set on the way are
    left out. *)
Definition preview (smeId : uuid) : world -> reply * world :=
  handler (
    try_catch
      (rows <- pool_query (select_website smeId) ;;
       match hd_error rows with
       | None => ret (Reply 404 (text_body no_site_page))
       | Some site => ret (Reply 200 (text_body (w_html site)))
       end)
      (fun _ =>
         ret (Reply 500
                (text_body "<html><body>Error loading preview</body></html>")))).

(** [CONSTRAINT websites_sme_id_key UNIQUE (sme_id)] (db/init.js and
    lines 316-322 of server.js). *)
Definition unique_sites (d : database) : Prop :=
  forall id, (List.length (website_of id d) <= 1)%nat.

(** [sme_id UUID NOT NULL REFERENCES smes(id)] on [websites]. *)
Definition sites_reference_smes (d : database) : Prop :=
  forall site, In site (websites d) ->
               existsb (fun r => sme_id r =? w_sme_id site) (smes d) = true.

(** The tables after the two writes of build-website, and of deploy. *)
Definition built_tables (now : timestamp) (id : uuid) (page : string)
           (d : database) : database :=
  ran (mark_built id) (ran (upsert_website now id page) d).

Definition deployed_tables (now : timestamp) (url slug_ : string) (id : uuid)
           (d : database) : database :=
  ran (mark_deployed url id) (ran (set_deployment now url slug_ id) d).

(* ================================================================== *)
(** * The whole store: emails and countries *)
(* ================================================================== *)

(** What a TEXT column holds for a value bound to it.  node-postgres
    sends a string as its UTF-8 encoding, which is the string itself when
    its surrogates are paired, and the text it makes of any other value
    (the decimal form of a number, the JSON text of an object, an array
    literal for an array, a replacement character for an unpaired
    surrogate), which is not computed here. *)
Inductive text_value :=
| verbatim (units : list N)
| converted (v : json).

(** A row of [emails] (its generated key left out). *)
Record email_row := {
  e_sme_id : uuid;
  e_subject : text_value;
  e_body : text_value;
  e_created_at : timestamp
}.

(** A row of [countries]. *)
Record country_row := {
  c_id : uuid;
  c_name : string;
  c_code : option string;
  c_flag : option string
}.

(** The four tables of db/init.js. *)
Record archive := {
  base : database;
  emails : list email_row;
  countries : list country_row
}.

(** The state of a handler that reaches all four tables: as [world],
    over [archive]. *)
Record portal := {
  tables : archive;
  schedule : list bool;
  outbox : list request
}.

Definition PM (A : Type) : Type := portal -> result A * portal.

Definition pret {A} (a : A) : PM A := fun p => (Return a, p).

Definition pthrow {A} (msg : string) : PM A := fun p => (Throw msg, p).

Definition pbind {A B} (m : PM A) (k : A -> PM B) : PM B :=
  fun p =>
    match m p with
    | (Return a, p') => k a p'
    | (Throw e, p') => (Throw e, p')
    end.

Definition ptry_catch {A} (m : PM A) (h : string -> PM A) : PM A :=
  fun p =>
    match m p with
    | (Return a, p') => (Return a, p')
    | (Throw e, p') => h e p'
    end.

Declare Scope portal_scope.
Delimit Scope portal_scope with portal.
Notation "x <- m ;; k" := (pbind m (fun x => k))
  (at level 61, m at next level, right associativity) : portal_scope.
Notation "m ;; k" := (pbind m (fun _ => k))
  (at level 61, right associativity) : portal_scope.

(** The part of a portal that the handlers over [world] see. *)
Definition world_of (p : portal) : world :=
  {| store := base (tables p); faults := schedule p; sent := outbox p |}.

Definition with_world (p : portal) (w : world) : portal :=
  {| tables := {| base := store w; emails := emails (tables p);
                  countries := countries (tables p) |};
     schedule := faults w; outbox := sent w |}.

(** A computation over [smes] and [websites], run in a portal. *)
Definition on_world {A} (m : M A) : PM A :=
  fun p => let (r, w') := m (world_of p) in (r, with_world p w').

(** [await pool.query(...)] for a statement that reaches the other
    tables. *)
Definition archive_query {A} (stmt : archive -> string + (archive * A))
  : PM A :=
  fun p =>
    let failing := hd false (schedule p) in
    let p' := {| tables := tables p; schedule := tl (schedule p);
                 outbox := outbox p |} in
    if failing then (Throw "storage failure", p')
    else match stmt (tables p) with
         | inl e => (Throw e, p')
         | inr (a, x) =>
             (Return x, {| tables := a; schedule := tl (schedule p);
                           outbox := outbox p |})
         end.

(** What the client of these handlers gets. *)
Inductive answer :=
| sent_json (code : Z) (v : json)
| sent_email (subject body : text_value)
| sent_ok
| sent_error (code : Z) (error : string) (detail : option string)
| unanswered (msg : string).

Definition portal_handler (m : PM answer) (p : portal) : answer * portal :=
  match m p with
  | (Return r, p') => (r, p')
  | (Throw e, p') => (unanswered e, p')
  end.

(** ** Reading a property of a parsed value *)

Fixpoint units_eqb (a b : list N) : bool :=
  match a, b with
  | [], [] => true
  | x :: a', y :: b' => (x =? y)%N && units_eqb a' b'
  | _, _ => false
  end.

(** The value of the last member named [key]: on a duplicate key
    [JSON.parse] keeps the later value. *)
Fixpoint member (key : list N) (members : list (list N * json))
  : option json :=
  match members with
  | [] => None
  | (k, v) :: rest =>
      match member key rest with
      | Some later => Some later
      | None => if units_eqb k key then Some v else None
      end
  end.

(** [v.key] for one of the keys [subject] and [body], which no prototype
    defines: reading a property of [null] throws, an object gives its
    member or [undefined], any other value gives [undefined]. *)
Definition property (key : string) (v : json) : string + option json :=
  match v with
  | JNull => inl "TypeError"
  | JObject members => inr (member (units_of key) members)
  | _ => inr None
  end.

(** node-postgres binds [undefined] and [null] as NULL. *)
Definition bound (v : option json) : option json :=
  match v with
  | Some JNull => None
  | other => other
  end.

(** ** Text parameters *)

Definition high_surrogate (u : N) : bool := ((55296 <=? u) && (u <? 56320))%N.
Definition low_surrogate (u : N) : bool := ((56320 <=? u) && (u <? 57344))%N.

(** Code units in which every surrogate is half of a pair. *)
Fixpoint paired (units : list N) : bool :=
  match units with
  | [] => true
  | u :: rest =>
      if high_surrogate u then
        match rest with
        | l :: rest' => low_surrogate l && paired rest'
        | [] => false
        end
      else negb (low_surrogate u) && paired rest
  end.

Definition holds_nul (units : list N) : bool :=
  existsb (fun u => (u =? 0)%N) units.

(** Whether the text that node-postgres sends for a value holds U+0000:
    a string that holds it, or an array with such an element (the
    elements of an array literal are sent as they are, whereas the JSON
    text of an object escapes the character). *)
Fixpoint sends_nul (v : json) : bool :=
  match v with
  | JString units => holds_nul units
  | JArray items =>
      (fix any (l : list json) : bool :=
         match l with
         | [] => false
         | x :: l' => sends_nul x || any l'
         end) items
  | _ => false
  end.

(** The text stored for a value that PostgreSQL takes. *)
Definition text_of (v : json) : text_value :=
  match v with
  | JString units => if paired units then verbatim units else converted v
  | _ => converted v
  end.

(** A string that a TEXT column keeps as it is: no U+0000 and no
    unpaired surrogate. *)
Definition kept (v : json) : option (list N) :=
  match v with
  | JString units =>
      if negb (holds_nul units) && paired units then Some units else None
  | _ => None
  end.

(** ** Statements on emails and countries *)

Definition resent (now : timestamp) (subject body : text_value) (r : email_row)
  : email_row :=
  {| e_sme_id := e_sme_id r; e_subject := subject; e_body := body;
     e_created_at := now |}.

(** Whether PostgreSQL refuses a parameter when it reads it. *)
Definition refused (v : option json) : bool :=
  match bound v with
  | Some x => sends_nul x
  | None => false
  end.

(** Lines 430-434:
    [INSERT INTO emails (sme_id, subject, body) VALUES ($1, $2, $3)
     ON CONFLICT (sme_id) DO UPDATE SET subject = $2, body = $3,
     created_at = NOW()].
    The parameters are read first; [subject] and [body] are NOT NULL, and
    [sme_id] references [smes]. *)
Definition upsert_email (now : timestamp) (id : uuid)
           (subject body : option json)
  : archive -> string + (archive * unit) :=
  fun a =>
    if refused subject || refused body then inl refused_text
    else
      match bound subject, bound body with
      | Some s, Some b =>
          if existsb (fun r => e_sme_id r =? id) (emails a) then
            inr ({| base := base a;
                    emails := map (fun r => if e_sme_id r =? id
                                            then resent now (text_of s)
                                                        (text_of b) r
                                            else r)
                                  (emails a);
                    countries := countries a |}, tt)
          else if existsb (fun r => sme_id r =? id) (smes (base a)) then
            inr ({| base := base a;
                    emails := (emails a
                               ++ [{| e_sme_id := id;
                                      e_subject := text_of s;
                                      e_body := text_of b;
                                      e_created_at := now |}])%list;
                    countries := countries a |}, tt)
          else inl "violates foreign key constraint"
      | _, _ => inl "violates not-null constraint"
      end.

Definition as_email_ready (r : sme_row) : sme_row :=
  {| sme_id := sme_id r; country_id := country_id r;
     sme_name := sme_name r; profile := profile r;
     sme_status := email_ready; sme_deployed_url := sme_deployed_url r |}.

(** Line 435: [UPDATE smes SET status = 'email_ready' WHERE id = $1] *)
Definition mark_email_ready (id : uuid) : statement unit :=
  update_smes id as_email_ready.

(** [SELECT subject, body FROM emails WHERE sme_id = $1] *)
Definition select_email (id : uuid)
  : archive -> string + (archive * list email_row) :=
  fun a => inr (a, filter (fun r => e_sme_id r =? id) (emails a)).

(** The keys of the SMEs of a country. *)
Definition smes_of_country (id : uuid) (d : database) : list uuid :=
  map sme_id (filter (fun r => country_id r =? id) (smes d)).

Definition among (ids : list uuid) (k : uuid) : bool :=
  existsb (fun i => i =? k) ids.

(** Line 179: [DELETE FROM countries WHERE id = $1].  By db/init.js the
    SMEs of a deleted country go with it ([ON DELETE CASCADE] on
    [smes.country_id]) and so do the websites and emails of those SMEs
    ([ON DELETE CASCADE] on their [sme_id]). *)
Definition delete_country (id : uuid)
  : archive -> string + (archive * unit) :=
  fun a =>
    if existsb (fun c => c_id c =? id) (countries a) then
      let gone := smes_of_country id (base a) in
      inr ({| base :=
                {| smes := filter (fun r => negb (country_id r =? id))
                                  (smes (base a));
                   websites := filter (fun s => negb (among gone (w_sme_id s)))
                                      (websites (base a)) |};
              emails := filter (fun e => negb (among gone (e_sme_id e)))
                               (emails a);
              countries := filter (fun c => negb (c_id c =? id))
                                  (countries a) |}, tt)
    else inr (a, tt).

(** ** The marketing stage and the country deletion *)

(** The wording of the marketing prompt.  Its template (lines 404-423)
    reads the name and the descriptive columns of the SME row and the
    link; evaluating it throws when [products] holds a value that has no
    [join] (line 409): the template then gives [None]. *)
Record mail_prompts := {
  mail_system : string;
  mail_prompt : string -> list (string * string) -> string -> option string
}.

Definition link_placeholder : string := "[WEBSITE_LINK]".

(** Line 400: [siteRows[0]?.deployed_url || '[WEBSITE_LINK]'] *)
Definition link_for (siteRows : list website_row) : string :=
  or_default (match hd_error siteRows with
              | Some site => w_deployed_url site
              | None => None
              end) link_placeholder.

(** Line 427: [raw.replace(/```json\n?|\n?```/g, '').trim()] *)
Definition clean_email (raw : string) : string :=
  trim (replace_all re_json_fence "" raw).

Local Open Scope portal_scope.

Definition lift_p {A} (r : string + A) : PM A :=
  match r with
  | inl e => pthrow e
  | inr a => pret a
  end.

(** Lines 394-442, [POST /api/smes/:smeId/generate-email].  The two
    SELECTs and the template of the prompt (lines 404-423) come before
    the [try] block. *)
Definition generate_email (E : mail_prompts) (llm : oracle) (now : timestamp)
           (smeId : uuid) : portal -> answer * portal :=
  portal_handler (
    rows <- on_world (pool_query (select_sme smeId)) ;;
    match hd_error rows with
    | None => pret (sent_error 404 "SME not found" None)
    | Some sme =>
        siteRows <- on_world (pool_query (select_website (sme_id sme))) ;;
        let deployedUrl := link_for siteRows in
        match mail_prompt E (sme_name sme) (profile sme) deployedUrl with
        | None => pthrow "TypeError"
        | Some prompt =>
            ptry_catch
              (generated <- on_world
                 (callClaude llm (mail_system E) prompt 2000) ;;
               match generated with
               | None => pthrow "TypeError"
               | Some raw =>
                   match JSON_parse (clean_email raw) with
                   | None => pthrow "SyntaxError"
                   | Some email =>
                       subject <- lift_p (property "subject" email) ;;
                       body <- lift_p (property "body" email) ;;
                       archive_query
                         (upsert_email now (sme_id sme) subject body) ;;
                       on_world (pool_query (mark_email_ready (sme_id sme))) ;;
                       pret (sent_json 200 email)
                   end
               end)
              (fun err =>
                 pret (sent_error 500 "Marketing agent failed" (Some err)))
        end
    end).

(** Lines 452-460, [GET /api/smes/:smeId/email]. *)
Definition get_email (smeId : uuid) : portal -> answer * portal :=
  portal_handler (
    ptry_catch
      (rows <- archive_query (select_email smeId) ;;
       match hd_error rows with
       | None => pret (sent_error 404 "No email generated yet" None)
       | Some r => pret (sent_email (e_subject r) (e_body r))
       end)
      (fun err => pret (sent_error 500 "DB error" (Some err)))).

(** Lines 177-184, [DELETE /api/countries/:id]. *)
Definition delete_country_handler (id : uuid) : portal -> answer * portal :=
  portal_handler (
    ptry_catch
      (archive_query (delete_country id) ;;
       pret sent_ok)
      (fun err => pret (sent_error 500 "DB error" (Some err)))).

(** ** Reading the whole store *)

Definition email_of (id : uuid) (a : archive) : list email_row :=
  filter (fun r => e_sme_id r =? id) (emails a).

(** The request that the marketing stage sends with a prompt. *)
Definition mail_request (E : mail_prompts) (prompt : string) : request :=
  {| max_tokens := 2000; tools := [];
     system := mail_system E;
     messages := [user_says (Plain prompt)] |}.

(** What a reply of the model yields when it holds an email: the parsed
    value with its subject and body, both present and not null. *)
Definition usable_email (raw : string) : option (json * json * json) :=
  match JSON_parse (clean_email raw) with
  | Some email =>
      match property "subject" email, property "body" email with
      | inr subject, inr body =>
          match bound subject, bound body with
          | Some s, Some b => Some (email, s, b)
          | _, _ => None
          end
      | _, _ => None
      end
  | None => None
  end.

(** [UNIQUE (sme_id)] on [emails] and its foreign key. *)
Definition unique_emails (a : archive) : Prop :=
  forall id, (List.length (email_of id a) <= 1)%nat.

Definition emails_reference_smes (a : archive) : Prop :=
  forall e, In e (emails a) ->
            existsb (fun r => sme_id r =? e_sme_id e) (smes (base a)) = true.

(** A portal in which every statement succeeds. *)
Definition calm (a : archive) : portal :=
  {| tables := a; schedule := []; outbox := [] |}.

Definition plain_mail : mail_prompts :=
  {| mail_system := "copywriter";
     mail_prompt := fun name _ link =>
                      Some ("write to " ++ name ++ " about " ++ link) |}.

Definition armenia : country_row :=
  {| c_id := "c1"; c_name := "Armenia"; c_code := Some "AM"; c_flag := None |}.

Definition acme_archive : archive :=
  {| base := acme_deployed; emails := []; countries := [armenia] |}.

(** A reply of the model to the marketing prompt. *)
Definition hello_reply : string :=
  "{" ++ dq ++ "subject" ++ dq ++ ":" ++ dq ++ "Hi" ++ dq ++ ","
  ++ dq ++ "body" ++ dq ++ ":" ++ dq ++ "Hello" ++ dq ++ "}".


(** The portal after [k] statements and the requests [reqs], with the
    tables [a]. *)
Definition settle (k : nat) (reqs : list request) (a : archive) (p : portal)
  : portal :=
  {| tables := a; schedule := skipn k (schedule p);
     outbox := (outbox p ++ reqs)%list |}.

(** Whether the statement [k] places ahead in the schedule fails. *)
Definition stalls (k : nat) (p : portal) : bool := nth k (schedule p) false.

(** An archive with other [smes] and [websites]. *)
Definition with_base (a : archive) (d : database) : archive :=
  {| base := d; emails := emails a; countries := countries a |}.

(** A handler over [smes] and [websites], run in a portal. *)
Definition stage (h : world -> reply * world) (p : portal) : portal :=
  with_world p (snd (h (world_of p))).

(** The email that a request to the model yields, when it yields one
    that can be stored. *)
Definition email_in (llm : oracle) (req : request)
  : option (json * json * json) :=
  match generated llm req with
  | Some raw => usable_email raw
  | None => None
  end.

(** The prompt of the marketing stage for an SME of the tables, when its
    template evaluates. *)
Definition mail_prompt_in (E : mail_prompts) (row : sme_row) (d : database)
  : option string :=
  mail_prompt E (sme_name row) (profile row)
              (link_for (website_of (sme_id row) d)).

(** [country_id UUID NOT NULL REFERENCES countries(id)] on [smes]. *)
Definition smes_reference_countries (a : archive) : Prop :=
  forall r, In r (smes (base a)) ->
            existsb (fun c => c_id c =? country_id r) (countries a) = true.

(** The same SME and country with an email already stored, and a second
    country with an SME of its own. *)
Definition georgia : country_row :=
  {| c_id := "c2"; c_name := "Georgia"; c_code := Some "GE"; c_flag := None |}.

Definition bakery : sme_row :=
  {| sme_id := "s2"; country_id := "c2"; sme_name := "Bakery";
     profile := []; sme_status := email_ready; sme_deployed_url := None |}.

Definition bakery_site : website_row :=
  {| w_sme_id := "s2"; w_html := "<html>bread</html>";
     w_deployed_url := None; w_slug := None; w_built_at := 1%N;
     w_deployed_at := None |}.

Definition two_countries : archive :=
  {| base := {| smes := smes acme_deployed ++ [bakery];
                websites := websites acme_deployed ++ [bakery_site] |};
     emails := [{| e_sme_id := "s1"; e_subject := verbatim [79%N];
                   e_body := verbatim [108%N]; e_created_at := 2%N |};
                {| e_sme_id := "s2"; e_subject := verbatim [80%N];
                   e_body := verbatim [109%N]; e_created_at := 2%N |}];
     countries := [armenia; georgia] |}.

(** Two SME rows that differ in their status at most. *)
Definition same_but_status (r r' : sme_row) : Prop :=
  sme_id r' = sme_id r /\ country_id r' = country_id r /\
  sme_name r' = sme_name r /\ profile r' = profile r /\
  sme_deployed_url r' = sme_deployed_url r.

(** The archive after [delete_country] has run. *)
Definition swept (id : uuid) (a : archive) : archive :=
  match delete_country id a with
  | inr (a', _) => a'
  | inl _ => a
  end.

(** A reply whose subject is one character outside the basic plane,
    written with two escapes: a pair of surrogates. *)
Definition smile_reply : string :=
  "{" ++ dq ++ "subject" ++ dq ++ ":" ++ dq
  ++ String backslash "ud83d" ++ String backslash "ude00" ++ dq ++ ","
  ++ dq ++ "body" ++ dq ++ ":" ++ dq ++ "Hello" ++ dq ++ "}".
(* ================================================================== *)
(** * Characters and the matcher *)
(* ================================================================== *)

Lemma code_inj (a b : ascii) : code a = code b -> a = b.
Proof.
  unfold code; intros H.
  rewrite <- (ascii_nat_embedding a), <- (ascii_nat_embedding b), H.
  reflexivity.
Qed.

Lemma in_range_single (a c : ascii) : in_range a a c = (c =? a)%char.
Proof.
  unfold in_range.
  destruct (Ascii.eqb_spec c a) as [->|Hne].
  - rewrite Nat.leb_refl; reflexivity.
  - apply andb_false_iff.
    destruct (Nat.leb_spec (code a) (code c)); [right|left; reflexivity].
    apply Nat.leb_gt.
    assert (code a <> code c) by (intro E; apply Hne; symmetry; now apply code_inj).
    lia.
Qed.

Lemma mem_chr (a c : ascii) :
  mem c {| negated := false; ranges := [(a, a)] |} = (c =? a)%char.
Proof.
  unfold mem; simpl. rewrite in_range_single, orb_false_r. reflexivity.
Qed.

Lemma mem_non_alnum (c : ascii) : mem c non_alnum = negb (Spec.alphanumeric c).
Proof.
  unfold mem, non_alnum, Spec.alphanumeric, class_az09; simpl.
  rewrite orb_false_r. reflexivity.
Qed.

Lemma match_here_non_alnum (bos : bool) (s : string) :
  match_here re_non_alnum bos s = hd_error (countdown (run_length non_alnum s)).
Proof. reflexivity. Qed.

Lemma collapse_replace_all (s : string) :
  (forall bos, replace_all_from re_non_alnum "-" bos 0 s
               = Spec.collapse_runs false s) /\
  (forall bos, replace_all_from re_non_alnum "-" bos (run_length non_alnum s) s
               = Spec.collapse_runs true s).
Proof.
  induction s as [|c s [IH0 IH1]].
  - split; reflexivity.
  - assert (H0 : forall bos, replace_all_from re_non_alnum "-" bos 0 (String c s)
                             = Spec.collapse_runs false (String c s)).
    { intros bos. cbn [replace_all_from]. rewrite match_here_non_alnum.
      cbn [run_length Spec.collapse_runs]. rewrite mem_non_alnum.
      destruct (Spec.alphanumeric c); cbn.
      - now rewrite IH0.
      - now rewrite IH1. }
    split; [exact H0|].
    intros bos. cbn [run_length]. rewrite mem_non_alnum.
    destruct (Spec.alphanumeric c) eqn:E; cbn [negb].
    + rewrite H0. cbn [Spec.collapse_runs]. rewrite E. reflexivity.
    + cbn [replace_all_from Spec.collapse_runs]. rewrite E. apply IH1.
Qed.

Lemma match_here_edge_hyphen (bos : bool) (s : string) :
  match_here re_edge_hyphen bos s =
  match s with
  | String c s' =>
      if (c =? "-")%char && (bos || is_empty s') then Some 1%nat else None
  | EmptyString => None
  end.
Proof.
  unfold match_here, re_edge_hyphen.
  destruct s as [|c s'].
  - destruct bos; reflexivity.
  - destruct bos; cbn -[mem]; rewrite ?mem_chr;
      destruct (c =? "-")%char, s'; reflexivity.
Qed.

Lemma replace_edge_hyphen_inner (s : string) :
  replace_all_from re_edge_hyphen "" false 0 s = strip_last_hyphen s.
Proof.
  induction s as [|c s IH]; [reflexivity|].
  cbn [replace_all_from]. rewrite match_here_edge_hyphen.
  cbn [strip_last_hyphen orb].
  destruct ((c =? "-")%char && is_empty s) eqn:E.
  - apply andb_true_iff in E as [_ E]. destruct s; [reflexivity|discriminate].
  - rewrite IH. reflexivity.
Qed.

Lemma replace_edge_hyphen (s : string) :
  replace_all re_edge_hyphen "" s = strip_edge_hyphens s.
Proof.
  unfold replace_all. destruct s as [|c s]; [reflexivity|].
  cbn [replace_all_from]. rewrite match_here_edge_hyphen.
  cbn [strip_edge_hyphens orb]. rewrite andb_true_r.
  destruct (c =? "-")%char eqn:E.
  - cbn. apply replace_edge_hyphen_inner.
  - cbn [append]. rewrite replace_edge_hyphen_inner.
    cbn [strip_last_hyphen]. rewrite E. reflexivity.
Qed.

(** ** The collapsed text has no two hyphens in a row *)

Lemma alphanumeric_not_hyphen (c : ascii) :
  Spec.alphanumeric c = true -> (c =? "-")%char = false.
Proof.
  intros H. destruct (Ascii.eqb_spec c "-") as [->|]; [discriminate H|reflexivity].
Qed.

Lemma single_hyphens_cons (c d : ascii) (s : string) :
  single_hyphens (String c (String d s))
  = negb ((c =? "-")%char && (d =? "-")%char) && single_hyphens (String d s).
Proof. reflexivity. Qed.

Lemma collapse_single_hyphens (s : string) :
  single_hyphens (Spec.collapse_runs false s) = true /\
  single_hyphens (String "-" (Spec.collapse_runs true s)) = true.
Proof.
  induction s as [|c s [IH0 IH1]]; [split; reflexivity|].
  cbn [Spec.collapse_runs].
  destruct (Spec.alphanumeric c) eqn:E.
  - assert (H : single_hyphens (String c (Spec.collapse_runs false s)) = true).
    { cbn [single_hyphens].
      destruct (Spec.collapse_runs false s) eqn:Es; [reflexivity|].
      rewrite (alphanumeric_not_hyphen _ E). exact IH0. }
    split; [exact H|].
    change (single_hyphens (String "-" (String c (Spec.collapse_runs false s))))
      with (negb (("-" =? "-")%char && (c =? "-")%char)
            && single_hyphens (String c (Spec.collapse_runs false s))).
    rewrite (alphanumeric_not_hyphen _ E), H. reflexivity.
  - split; assumption.
Qed.

Lemma strip_last_single (s : string) :
  single_hyphens s = true ->
  strip_last_hyphen s = Spec.strip_trailing_hyphens s.
Proof.
  induction s as [|c s IH]; [reflexivity|].
  intros Hs. cbn [strip_last_hyphen Spec.strip_trailing_hyphens].
  assert (Hs' : single_hyphens s = true).
  { destruct s; [reflexivity|]. cbn [single_hyphens] in Hs.
    apply andb_true_iff in Hs. tauto. }
  assert (IH' : strip_last_hyphen s = Spec.strip_trailing_hyphens s).
  { apply IH; assumption. }
  rewrite <- IH'.
  destruct (c =? "-")%char eqn:E; cbn [andb]; [|reflexivity].
  destruct s as [|d s]; [reflexivity|].
  cbn [is_empty]. cbn [single_hyphens] in Hs. rewrite E in Hs.
  destruct (d =? "-")%char eqn:Ed; [discriminate Hs|].
  cbn [strip_last_hyphen]. rewrite Ed. reflexivity.
Qed.

Lemma strip_edge_single (s : string) :
  single_hyphens s = true ->
  strip_edge_hyphens s
  = Spec.strip_trailing_hyphens (Spec.strip_leading_hyphens s).
Proof.
  destruct s as [|c s]; [reflexivity|].
  intros Hs. cbn [strip_edge_hyphens Spec.strip_leading_hyphens].
  destruct (c =? "-")%char eqn:E.
  - destruct s as [|d s]; [reflexivity|].
    rewrite single_hyphens_cons, E in Hs.
    destruct (d =? "-")%char eqn:Ed; [discriminate Hs|].
    cbn [Spec.strip_leading_hyphens]. rewrite Ed.
    apply strip_last_single. exact Hs.
  - apply strip_last_single. exact Hs.
Qed.

Lemma download_slug_collapse (name : string) :
  download_slug name = Spec.collapse_runs false (toLowerCase name).
Proof. apply collapse_replace_all. Qed.

Lemma deploy_slug_trims_download (name : string) :
  deploy_slug name = strip_edge_hyphens (download_slug name).
Proof. apply replace_edge_hyphen. Qed.

(* ================================================================== *)
(** * Slugs *)
(* ================================================================== *)

(** C5.  The slug of the deploy stage is the business name lowercased, with
    every maximal run of characters other than a-z and 0-9 turned into one
    hyphen and the hyphens at both ends removed; the name
    Anush's Jams & Co. gives anush-s-jams-co. *)
Theorem deploy_slug_collapses_and_trims :
  (forall name : string, deploy_slug name = Spec.slug_of name) /\
  deploy_slug "Anush's Jams & Co." = "anush-s-jams-co".
Proof.
  split; [|reflexivity].
  intros name. rewrite deploy_slug_trims_download, download_slug_collapse.
  apply strip_edge_single, collapse_single_hyphens.
Qed.

(* ================================================================== *)
(** * The JSON parser is total *)
(* ================================================================== *)


Lemma value_S (f : nat) (s : string) :
  value (S f) s =
  match skip_ws s with
  | EmptyString => Invalid
  | String c r =>
      if (c =? "[")%char then
        match next_is "]" r with
        | Some r' => Parsed (JArray [], r')
        | None => elements f [] r
        end
      else if (c =? "{")%char then
        match next_is "}" r with
        | Some r' => Parsed (JObject [], r')
        | None => members f [] r
        end
      else if (c =? dquote)%char then
        match string_body r [] with
        | Some (u, r') => Parsed (JString u, r')
        | None => Invalid
        end
      else if (c =? "t")%char then keyword "true" (JBool true) (String c r)
      else if (c =? "f")%char then keyword "false" (JBool false) (String c r)
      else if (c =? "n")%char then keyword "null" JNull (String c r)
      else
        match number (String c r) with
        | Some (lx, r') => Parsed (JNumber lx, r')
        | None => Invalid
        end
  end.
Proof. reflexivity. Qed.

Lemma elements_S (f : nat) (acc : list json) (s : string) :
  elements (S f) acc s =
  match value f s with
  | Parsed (v, r) =>
      match next_is "," r with
      | Some r' => elements f (v :: acc) r'
      | None =>
          match next_is "]" r with
          | Some r' => Parsed (JArray (rev (v :: acc)), r')
          | None => Invalid
          end
      end
  | Invalid => Invalid
  | OutOfFuel => OutOfFuel
  end.
Proof. reflexivity. Qed.

Lemma members_S (f : nat) (acc : list (list N * json)) (s : string) :
  members (S f) acc s =
  match next_is dquote s with
  | Some r =>
      match string_body r [] with
      | Some (k, r1) =>
          match next_is ":" r1 with
          | Some r2 =>
              match value f r2 with
              | Parsed (v, r3) =>
                  match next_is "," r3 with
                  | Some r4 => members f ((k, v) :: acc) r4
                  | None =>
                      match next_is "}" r3 with
                      | Some r4 => Parsed (JObject (rev ((k, v) :: acc)), r4)
                      | None => Invalid
                      end
                  end
              | Invalid => Invalid
              | OutOfFuel => OutOfFuel
              end
          | None => Invalid
          end
      | None => Invalid
      end
  | None => Invalid
  end.
Proof. reflexivity. Qed.

(** ** Every reader consumes input *)

Lemma skip_ws_length (s : string) :
  (String.length (skip_ws s) <= String.length s)%nat.
Proof.
  induction s as [|c s IH]; cbn; [lia|].
  destruct (is_json_ws c); cbn; lia.
Qed.

Lemma next_is_length (c : ascii) (s r : string) :
  next_is c s = Some r -> (String.length r < String.length s)%nat.
Proof.
  unfold next_is. pose proof (skip_ws_length s) as H.
  destruct (skip_ws s) as [|d t]; [discriminate|].
  destruct (d =? c)%char; [|discriminate].
  intros [= <-]. cbn in H. lia.
Qed.

Lemma string_body_length (s : string) :
  forall acc u r, string_body s acc = Some (u, r) ->
                  (String.length r < String.length s)%nat.
Proof.
  induction s as [s IH] using (well_founded_induction
                                 (well_founded_ltof _ String.length)).
  unfold ltof in IH.
  intros acc u r H. destruct s as [|c s]; [discriminate|].
  cbn [string_body] in H.
  destruct (c =? dquote)%char.
  { injection H as _ <-. cbn; lia. }
  destruct (c =? backslash)%char.
  - destruct s as [|e s]; [discriminate|].
    destruct (e =? "u")%char.
    + destruct s as [|h1 [|h2 [|h3 [|h4 rest]]]]; try discriminate.
      destruct (hex4 h1 h2 h3 h4); [|discriminate].
      apply IH in H; cbn in *; lia.
    + destruct (escape_unit e); [|discriminate].
      apply IH in H; cbn in *; lia.
  - destruct (code c <? 32)%nat; [discriminate|].
    apply IH in H; cbn in *; lia.
Qed.

Lemma span_digits_length (s : string) :
  (String.length (snd (span_digits s)) <= String.length s)%nat.
Proof.
  induction s as [|c s IH]; cbn; [lia|].
  destruct (is_digit c); cbn; [|lia].
  destruct (span_digits s); cbn in *; lia.
Qed.

Lemma digits1_length (s d r : string) :
  digits1 s = Some (d, r) -> (String.length r <= String.length s)%nat.
Proof.
  unfold digits1. pose proof (span_digits_length s) as H.
  destruct (span_digits s) as [[|c t] r']; [discriminate|].
  intros [= _ <-]. exact H.
Qed.

Lemma int_part_length (s i r : string) :
  int_part s = Some (i, r) -> (String.length r < String.length s)%nat.
Proof.
  destruct s as [|c s]; [discriminate|]. cbn.
  destruct (c =? "0")%char.
  { intros [= _ <-]. lia. }
  destruct (is_digit c); [|discriminate].
  pose proof (span_digits_length s) as H.
  destruct (span_digits s). intros [= _ <-]. cbn in H. lia.
Qed.

Lemma frac_part_length (s f r : string) :
  frac_part s = Some (f, r) -> (String.length r <= String.length s)%nat.
Proof.
  destruct s as [|c s]; cbn.
  { intros [= _ <-]. cbn; lia. }
  destruct (c =? ".")%char.
  - destruct (digits1 s) as [[d r']|] eqn:E; [|discriminate].
    apply digits1_length in E. intros [= _ <-]. lia.
  - intros [= _ <-]. cbn; lia.
Qed.

Lemma exp_sign_length (s : string) :
  (String.length (snd (exp_sign s)) <= String.length s)%nat.
Proof.
  destruct s as [|c s]; cbn; [lia|].
  destruct ((c =? "+")%char || (c =? "-")%char); cbn; lia.
Qed.

Lemma exp_part_length (s e r : string) :
  exp_part s = Some (e, r) -> (String.length r <= String.length s)%nat.
Proof.
  destruct s as [|c s]; cbn.
  { intros [= _ <-]. cbn; lia. }
  destruct ((c =? "e")%char || (c =? "E")%char).
  - pose proof (exp_sign_length s) as H.
    destruct (exp_sign s) as [sg r0]. cbn in H.
    destruct (digits1 r0) as [[d r']|] eqn:E; [|discriminate].
    apply digits1_length in E. intros [= _ <-]. lia.
  - intros [= _ <-]. cbn; lia.
Qed.

Lemma number_length (s lx r : string) :
  number s = Some (lx, r) -> (String.length r < String.length s)%nat.
Proof.
  unfold number.
  assert (H0 : (String.length (snd (minus_sign s)) <= String.length s)%nat).
  { destruct s as [|c s]; cbn; [lia|]. destruct (c =? "-")%char; cbn; lia. }
  destruct (minus_sign s) as [sg r0]. cbn in H0.
  destruct (int_part r0) as [[i r1]|] eqn:E1; [|discriminate].
  destruct (frac_part r1) as [[f r2]|] eqn:E2; [|discriminate].
  destruct (exp_part r2) as [[e r3]|] eqn:E3; [|discriminate].
  apply int_part_length in E1. apply frac_part_length in E2.
  apply exp_part_length in E3. intros [= _ <-]. lia.
Qed.

Lemma drop_length (n : nat) (s : string) :
  String.length (drop n s) = (String.length s - n)%nat.
Proof.
  revert s; induction n as [|n IH]; intros [|c s]; cbn; auto.
Qed.

Lemma prefix_length (p s : string) :
  prefix p s = true -> (String.length p <= String.length s)%nat.
Proof.
  revert s; induction p as [|a p IH]; intros s H; cbn; [lia|].
  destruct s as [|b s]; [discriminate|]. cbn in H.
  destruct (ascii_dec a b); [|discriminate].
  apply IH in H. cbn; lia.
Qed.

Lemma keyword_length (k : string) (j v : json) (s r : string) :
  (0 < String.length k)%nat ->
  keyword k j s = Parsed (v, r) -> (String.length r < String.length s)%nat.
Proof.
  unfold keyword. intros Hk.
  destruct (prefix k s) eqn:E; [|discriminate].
  apply prefix_length in E. intros [= _ <-]. rewrite drop_length. lia.
Qed.


Lemma readers_consume (n : nat) :
  (forall s v r, value n s = Parsed (v, r) ->
                 (String.length r < String.length s)%nat) /\
  (forall acc s v r, elements n acc s = Parsed (v, r) ->
                     (String.length r < String.length s)%nat) /\
  (forall acc s v r, members n acc s = Parsed (v, r) ->
                     (String.length r < String.length s)%nat).
Proof.
  induction n as [|n (IHv & IHe & IHm)]; [repeat split; discriminate|].
  repeat split.
  - intros s v r. rewrite value_S.
    pose proof (skip_ws_length s) as Hs.
    destruct (skip_ws s) as [|c t]; [discriminate|]. cbn in Hs.
    destruct (c =? "[")%char.
    { destruct (next_is "]" t) as [r'|] eqn:E.
      - apply next_is_length in E. intros [= _ <-]. lia.
      - intros H. apply IHe in H. lia. }
    destruct (c =? "{")%char.
    { destruct (next_is "}" t) as [r'|] eqn:E.
      - apply next_is_length in E. intros [= _ <-]. lia.
      - intros H. apply IHm in H. lia. }
    destruct (c =? dquote)%char.
    { destruct (string_body t []) as [[u r']|] eqn:E; [|discriminate].
      apply string_body_length in E. intros [= _ <-]. lia. }
    destruct (c =? "t")%char.
    { intros H. apply keyword_length in H; cbn in *; lia. }
    destruct (c =? "f")%char.
    { intros H. apply keyword_length in H; cbn in *; lia. }
    destruct (c =? "n")%char.
    { intros H. apply keyword_length in H; cbn in *; lia. }
    destruct (number (String c t)) as [[lx r']|] eqn:E; [|discriminate].
    apply number_length in E. intros [= _ <-]. cbn in E. lia.
  - intros acc s v r. rewrite elements_S.
    destruct (value n s) as [[v0 r0]| |] eqn:Ev; try discriminate.
    apply IHv in Ev.
    destruct (next_is "," r0) as [r1|] eqn:E1.
    { apply next_is_length in E1. intros H. apply IHe in H. lia. }
    destruct (next_is "]" r0) as [r1|] eqn:E2; [|discriminate].
    apply next_is_length in E2. intros [= _ <-]. lia.
  - intros acc s v r. rewrite members_S.
    destruct (next_is dquote s) as [r0|] eqn:E0; [|discriminate].
    apply next_is_length in E0.
    destruct (string_body r0 []) as [[k r1]|] eqn:E1; [|discriminate].
    apply string_body_length in E1.
    destruct (next_is ":" r1) as [r2|] eqn:E2; [|discriminate].
    apply next_is_length in E2.
    destruct (value n r2) as [[v0 r3]| |] eqn:Ev; try discriminate.
    apply IHv in Ev.
    destruct (next_is "," r3) as [r4|] eqn:E3.
    { apply next_is_length in E3. intros H. apply IHm in H. lia. }
    destruct (next_is "}" r3) as [r4|] eqn:E4; [|discriminate].
    apply next_is_length in E4. intros [= _ <-]. lia.
Qed.

(** ** Fuel beyond twice the length of the input is never exhausted *)

Lemma fuel_enough (n : nat) :
  (forall s, (2 * String.length s < n)%nat -> value n s <> OutOfFuel) /\
  (forall acc s, (2 * String.length s + 1 < n)%nat ->
                 elements n acc s <> OutOfFuel) /\
  (forall acc s, (2 * String.length s + 1 < n)%nat ->
                 members n acc s <> OutOfFuel).
Proof.
  induction n as [|n (IHv & IHe & IHm)]; [repeat split; intros; lia|].
  destruct (readers_consume n) as (Cv & _ & _).
  repeat split.
  - intros s Hn. rewrite value_S.
    pose proof (skip_ws_length s) as Hs.
    destruct (skip_ws s) as [|c t]; [discriminate|]. cbn in Hs.
    destruct (c =? "[")%char.
    { destruct (next_is "]" t); [discriminate|]. apply IHe. lia. }
    destruct (c =? "{")%char.
    { destruct (next_is "}" t); [discriminate|]. apply IHm. lia. }
    destruct (c =? dquote)%char.
    { destruct (string_body t []) as [[u r']|]; discriminate. }
    unfold keyword.
    repeat match goal with
           | |- context [if ?b then _ else _] => destruct b
           end; try discriminate.
    destruct (number (String c t)) as [[lx r']|]; discriminate.
  - intros acc s Hn. rewrite elements_S.
    assert (Hv : value n s <> OutOfFuel) by (apply IHv; lia).
    destruct (value n s) as [[v0 r0]| |] eqn:Ev; [|discriminate|congruence].
    apply Cv in Ev.
    destruct (next_is "," r0) as [r1|] eqn:E1.
    { apply next_is_length in E1. apply IHe. lia. }
    destruct (next_is "]" r0); discriminate.
  - intros acc s Hn. rewrite members_S.
    destruct (next_is dquote s) as [r0|] eqn:E0; [|discriminate].
    apply next_is_length in E0.
    destruct (string_body r0 []) as [[k r1]|] eqn:E1; [|discriminate].
    apply string_body_length in E1.
    destruct (next_is ":" r1) as [r2|] eqn:E2; [|discriminate].
    apply next_is_length in E2.
    assert (Hv : value n r2 <> OutOfFuel) by (apply IHv; lia).
    destruct (value n r2) as [[v0 r3]| |] eqn:Ev; [|discriminate|congruence].
    apply Cv in Ev.
    destruct (next_is "," r3) as [r4|] eqn:E3.
    { apply next_is_length in E3. apply IHm. lia. }
    destruct (next_is "}" r3); discriminate.
Qed.

(** ** More fuel does not change an answer *)

Lemma fuel_monotone (n : nat) :
  (forall s m, (n <= m)%nat -> value n s <> OutOfFuel ->
               value m s = value n s) /\
  (forall acc s m, (n <= m)%nat -> elements n acc s <> OutOfFuel ->
                   elements m acc s = elements n acc s) /\
  (forall acc s m, (n <= m)%nat -> members n acc s <> OutOfFuel ->
                   members m acc s = members n acc s).
Proof.
  induction n as [|n (IHv & IHe & IHm)];
    [repeat split; intros; cbn in *; congruence|].
  repeat split.
  - intros s [|m] Hm; [lia|]. rewrite !value_S.
    destruct (skip_ws s) as [|c t]; [reflexivity|].
    destruct (c =? "[")%char.
    { destruct (next_is "]" t); [reflexivity|]. intros H. apply IHe; [lia|exact H]. }
    destruct (c =? "{")%char.
    { destruct (next_is "}" t); [reflexivity|]. intros H. apply IHm; [lia|exact H]. }
    reflexivity.
  - intros acc s [|m] Hm; [lia|]. rewrite !elements_S. intros H.
    assert (Hv : value n s <> OutOfFuel).
    { intros E. rewrite E in H. congruence. }
    rewrite (IHv s m) by (lia || exact Hv).
    destruct (value n s) as [[v0 r0]| |]; try reflexivity.
    destruct (next_is "," r0); [|reflexivity].
    apply IHe; [lia|exact H].
  - intros acc s [|m] Hm; [lia|]. rewrite !members_S. intros H.
    destruct (next_is dquote s) as [r0|]; [|reflexivity].
    destruct (string_body r0 []) as [[k r1]|]; [|reflexivity].
    destruct (next_is ":" r1) as [r2|]; [|reflexivity].
    assert (Hv : value n r2 <> OutOfFuel).
    { intros E. rewrite E in H. congruence. }
    rewrite (IHv r2 m) by (lia || exact Hv).
    destruct (value n r2) as [[v0 r3]| |]; try reflexivity.
    destruct (next_is "," r3); [|reflexivity].
    apply IHm; [lia|exact H].
Qed.

Lemma value_fuel_enough (s : string) : value (fuel_for s) s <> OutOfFuel.
Proof. apply fuel_enough. unfold fuel_for. lia. Qed.

(** [JSON_parse] accepts exactly the texts that some amount of fuel reads
    as one value followed by white space only. *)
Lemma JSON_parse_any_fuel (s : string) (v : json) :
  JSON_parse s = Some v <->
  exists n r, value n s = Parsed (v, r) /\ skip_ws r = EmptyString.
Proof.
  unfold JSON_parse. split.
  - destruct (value (fuel_for s) s) as [[v0 r0]| |] eqn:E; try discriminate.
    destruct (skip_ws r0) eqn:Er; [|discriminate].
    intros [= <-]. eauto.
  - intros (n & r & Hn & Hr).
    destruct (fuel_monotone n) as (Mn & _ & _).
    destruct (fuel_monotone (fuel_for s)) as (Mf & _ & _).
    pose proof (Mn s (Nat.max n (fuel_for s)) (Nat.le_max_l _ _)) as H1.
    pose proof (Mf s (Nat.max n (fuel_for s)) (Nat.le_max_r _ _)
                   (value_fuel_enough s)) as H2.
    rewrite <- H2, H1, Hn by congruence.
    rewrite Hr. reflexivity.
Qed.

(** ** A text that opens with a bracket parses to an array *)

Lemma elements_array (n : nat) :
  forall acc s v r, elements n acc s = Parsed (v, r) -> is_array v = true.
Proof.
  induction n as [|n IH]; [discriminate|].
  intros acc s v r. rewrite elements_S.
  destruct (value n s) as [[v0 r0]| |]; try discriminate.
  destruct (next_is "," r0); [apply IH|].
  destruct (next_is "]" r0); [|discriminate].
  intros [= <- _]. reflexivity.
Qed.

Lemma JSON_parse_bracket (r : string) (v : json) :
  JSON_parse (String "[" r) = Some v -> is_array v = true.
Proof.
  unfold JSON_parse, fuel_for. rewrite value_S. cbn [skip_ws is_json_ws].
  change (is_json_ws "[") with false. cbn iota.
  change ("[" =? "[")%char with true. cbn iota.
  destruct (next_is "]" r).
  { destruct (is_empty (skip_ws s)); [|discriminate]. intros [= <-]. reflexivity. }
  destruct (elements _ [] r) as [[v0 r0]| |] eqn:E; try discriminate.
  apply elements_array in E.
  destruct (is_empty (skip_ws r0)); [|discriminate]. intros [= <-]. exact E.
Qed.

Lemma JSON_parse_empty : JSON_parse EmptyString = None.
Proof. reflexivity. Qed.

(* ================================================================== *)
(** * indexOf, lastIndexOf and slice *)
(* ================================================================== *)

Lemma prefix_char (c : ascii) (s : string) :
  prefix (String c EmptyString) s =
  match s with
  | String d _ => (d =? c)%char
  | EmptyString => false
  end.
Proof.
  destruct s as [|d s]; [reflexivity|]. cbn.
  destruct (ascii_dec c d) as [->|Hne].
  - rewrite Ascii.eqb_refl. now destruct s.
  - symmetry. apply Ascii.eqb_neq. congruence.
Qed.

Lemma indexOf_from_first_at (p s : string) (i : Z) :
  indexOf_from p s i =
  match first_at p s with
  | Some k => (i + Z.of_nat k)%Z
  | None => (-1)%Z
  end.
Proof.
  revert i. induction s as [|c s IH]; intros i; cbn [indexOf_from first_at].
  - destruct (prefix p ""); [lia|reflexivity].
  - destruct (prefix p (String c s)); [lia|].
    rewrite IH. destruct (first_at p s); cbn; lia.
Qed.

Lemma lastIndexOf_from_last_at (p s : string) (i found : Z) :
  lastIndexOf_from p s i found =
  match last_at p s with
  | Some k => (i + Z.of_nat k)%Z
  | None => found
  end.
Proof.
  revert i found. induction s as [|c s IH]; intros i found;
    cbn [lastIndexOf_from last_at].
  - destruct (prefix p ""); [lia|reflexivity].
  - rewrite IH. destruct (last_at p s); [lia|].
    destruct (prefix p (String c s)); [lia|reflexivity].
Qed.

Lemma indexOf_first_at (s p : string) :
  indexOf s p = match first_at p s with
                | Some k => Z.of_nat k
                | None => (-1)%Z
                end.
Proof. unfold indexOf. rewrite indexOf_from_first_at. now destruct (first_at p s). Qed.

Lemma lastIndexOf_last_at (s p : string) :
  lastIndexOf s p = match last_at p s with
                    | Some k => Z.of_nat k
                    | None => (-1)%Z
                    end.
Proof.
  unfold lastIndexOf. rewrite lastIndexOf_from_last_at.
  now destruct (last_at p s).
Qed.

Lemma first_at_bound (p s : string) (k : nat) :
  first_at p s = Some k -> (k <= String.length s)%nat.
Proof.
  revert k. induction s as [|c s IH]; intros k; cbn [first_at].
  - destruct (prefix p ""); [intros [= <-]; cbn; lia|discriminate].
  - destruct (prefix p (String c s)); [intros [= <-]; lia|].
    destruct (first_at p s) as [j|]; [|discriminate].
    intros [= <-]. specialize (IH j eq_refl). cbn; lia.
Qed.

Lemma last_at_bound (p s : string) (k : nat) :
  last_at p s = Some k -> (k <= String.length s)%nat.
Proof.
  revert k. induction s as [|c s IH]; intros k; cbn [last_at].
  - destruct (prefix p ""); [intros [= <-]; cbn; lia|discriminate].
  - destruct (last_at p s) as [j|].
    + intros [= <-]. specialize (IH j eq_refl). cbn; lia.
    + destruct (prefix p (String c s)); [intros [= <-]; lia|discriminate].
Qed.

(** ** Occurrences of one character *)

Lemma first_at_char (c : ascii) (s : string) :
  first_at (String c EmptyString) s =
  match s with
  | EmptyString => None
  | String d s' =>
      if (d =? c)%char then Some O
      else option_map S (first_at (String c EmptyString) s')
  end.
Proof. destruct s; cbn [first_at]; rewrite prefix_char; reflexivity. Qed.

Lemma last_at_char (c : ascii) (s : string) :
  last_at (String c EmptyString) s =
  match s with
  | EmptyString => None
  | String d s' =>
      match last_at (String c EmptyString) s' with
      | Some k => Some (S k)
      | None => if (d =? c)%char then Some O else None
      end
  end.
Proof. destruct s; cbn [last_at]; rewrite prefix_char; reflexivity. Qed.

Lemma last_at_char_bound (c : ascii) (s : string) (k : nat) :
  last_at (String c EmptyString) s = Some k -> (k < String.length s)%nat.
Proof.
  revert k. induction s as [|d s IH]; intros k; rewrite last_at_char;
    [discriminate|].
  destruct (last_at (String c "") s) as [j|].
  - intros [= <-]. specialize (IH j eq_refl). cbn; lia.
  - destruct (d =? c)%char; [intros [= <-]; cbn; lia|discriminate].
Qed.

Lemma first_at_contains (c : ascii) (s : string) :
  Spec.contains c s = defined (first_at (String c EmptyString) s).
Proof.
  induction s as [|d s IH]; [reflexivity|].
  rewrite first_at_char. cbn [Spec.contains]. rewrite IH.
  destruct (d =? c)%char; [reflexivity|].
  now destruct (first_at (String c "") s).
Qed.

Lemma last_at_contains (c : ascii) (s : string) :
  Spec.contains c s = defined (last_at (String c EmptyString) s).
Proof.
  induction s as [|d s IH]; [reflexivity|].
  rewrite last_at_char. cbn [Spec.contains]. rewrite IH.
  destruct (last_at (String c "") s); [apply orb_true_r|].
  cbn. rewrite orb_false_r. now destruct (d =? c)%char.
Qed.

Lemma drop_first_open (s : string) (k : nat) :
  first_at "[" s = Some k -> drop k s = Spec.from_first_open s.
Proof.
  revert k. induction s as [|d s IH]; intros k; rewrite first_at_char;
    [discriminate|].
  cbn [Spec.from_first_open].
  destruct (d =? "[")%char; [intros [= <-]; reflexivity|].
  destruct (first_at "[" s) as [j|]; [|discriminate].
  intros [= <-]. cbn [drop]. now apply IH.
Qed.

Lemma take_last_close (s : string) :
  take (match last_at "]" s with Some k => S k | None => O end) s
  = Spec.upto_last_close s.
Proof.
  induction s as [|d s IH]; [reflexivity|].
  rewrite last_at_char. cbn [Spec.upto_last_close].
  rewrite <- IH.
  pose proof (last_at_char_bound "]" s) as Hb.
  destruct (last_at "]" s) as [k|].
  - specialize (Hb k eq_refl).
    destruct s as [|e s]; [cbn in Hb; lia|]. reflexivity.
  - cbn [take is_empty]. destruct (d =? "]")%char; reflexivity.
Qed.

Lemma last_at_drop (p s : string) (k : nat) :
  (0 < String.length p)%nat ->
  last_at p (drop k s) =
  match last_at p s with
  | Some j => if (k <=? j)%nat then Some (j - k)%nat else None
  | None => None
  end.
Proof.
  intros Hp.
  assert (Hnil : prefix p "" = false) by (destruct p; [cbn in Hp; lia|reflexivity]).
  revert k. induction s as [|d s IH]; intros k.
  - destruct k; cbn [drop last_at]; rewrite Hnil; reflexivity.
  - destruct k as [|k].
    + cbn [drop]. destruct (last_at p (String d s)); [|reflexivity].
      cbn. now rewrite Nat.sub_0_r.
    + cbn [drop]. rewrite IH. cbn [last_at].
      destruct (last_at p s) as [j|]; [reflexivity|].
      destruct (prefix p (String d s)); reflexivity.
Qed.

(** The slice from the first opening bracket to the last closing one. *)
Lemma slice_bracket_span (s : string) :
  Spec.contains "[" s = true -> Spec.contains "]" s = true ->
  slice s (indexOf s "[") (lastIndexOf s "]" + 1) = Spec.bracket_span s.
Proof.
  rewrite first_at_contains, last_at_contains, indexOf_first_at,
    lastIndexOf_last_at.
  destruct (first_at "[" s) as [a|] eqn:Ea; [|discriminate].
  destruct (last_at "]" s) as [b|] eqn:Eb; [|discriminate].
  intros _ _. unfold slice, clamp_index, Spec.bracket_span.
  pose proof (first_at_bound _ _ _ Ea) as Ha.
  pose proof (last_at_char_bound _ _ _ Eb) as Hb.
  replace (Z.of_nat a <? 0)%Z with false by (symmetry; apply Z.ltb_ge; lia).
  replace (Z.of_nat b + 1 <? 0)%Z with false by (symmetry; apply Z.ltb_ge; lia).
  rewrite (Z.min_l (Z.of_nat a)) by lia.
  rewrite (Z.min_l (Z.of_nat b + 1)) by lia.
  rewrite Nat2Z.id.
  rewrite <- (drop_first_open s a Ea), <- take_last_close.
  rewrite last_at_drop by (cbn; lia). rewrite Eb.
  f_equal.
  destruct (Nat.leb_spec a b); lia.
Qed.

(* ================================================================== *)
(** * Closed forms for the fence patterns *)
(* ================================================================== *)

Lemma prefix_cons (c d : ascii) (p s : string) :
  prefix (String c p) (String d s) = (d =? c)%char && prefix p s.
Proof.
  cbn. destruct (ascii_dec c d) as [->|Hne].
  - now rewrite Ascii.eqb_refl.
  - replace (d =? c)%char with false; [reflexivity|].
    symmetry. apply Ascii.eqb_neq. congruence.
Qed.

Lemma matches_chr (c : ascii) (bos : bool) (s : string) :
  matches (chr c) bos s =
  match s with
  | String d _ => if (d =? c)%char then [1%nat] else []
  | EmptyString => []
  end.
Proof. destruct s as [|d s]; [reflexivity|]. cbn -[mem]. now rewrite mem_chr. Qed.

Lemma matches_lit (p : string) :
  forall bos s,
    matches (lit p) bos s = if prefix p s then [String.length p] else [].
Proof.
  induction p as [|c p IH]; intros bos s; [now destruct s|].
  destruct p as [|c' p].
  - change (lit (String c "")) with (chr c). rewrite matches_chr, prefix_char.
    destruct s as [|d s]; [reflexivity|]. now destruct (d =? c)%char.
  - change (lit (String c (String c' p)))
      with (Seq (chr c) (lit (String c' p))).
    cbn [matches]. rewrite matches_chr.
    destruct s as [|d s]; [reflexivity|].
    rewrite prefix_cons.
    destruct (d =? c)%char; [|reflexivity].
    cbn [flat_map drop andb app]. rewrite IH.
    destruct (prefix (String c' p) s); reflexivity.
Qed.

Lemma matches_opt_newline (bos : bool) (s : string) :
  matches (Opt (chr newline)) bos s = (if prefix nl s then [1%nat; O] else [O]).
Proof.
  cbn [matches]. rewrite matches_chr. unfold nl. rewrite prefix_char.
  destruct s as [|d s]; [reflexivity|]. now destruct (d =? newline)%char.
Qed.

Lemma matches_seq (r1 r2 : regex) (bos : bool) (s : string) :
  matches (Seq r1 r2) bos s =
  flat_map (fun n1 => map (fun n2 => (n1 + n2)%nat)
                          (matches r2 (bos && (n1 =? 0)%nat) (drop n1 s)))
           (matches r1 bos s).
Proof. reflexivity. Qed.

Lemma matches_alt (r1 r2 : regex) (bos : bool) (s : string) :
  matches (Alt r1 r2) bos s = (matches r1 bos s ++ matches r2 bos s)%list.
Proof. reflexivity. Qed.

Lemma match_here_bare_fence (bos : bool) (s : string) :
  match_here re_bare_fence bos s =
  if prefix fence s
  then Some (if prefix nl (drop 3 s) then 4%nat else 3%nat)
  else None.
Proof.
  unfold match_here, re_bare_fence. rewrite matches_seq, matches_lit.
  destruct (prefix fence s); [|reflexivity].
  cbn [flat_map String.length fence app]. rewrite matches_opt_newline.
  destruct (prefix nl (drop 3 s)); reflexivity.
Qed.

Lemma match_here_json_fence (bos : bool) (s : string) :
  match_here re_json_fence bos s =
  if prefix (fence ++ "json") s
  then Some (if prefix nl (drop 7 s) then 8%nat else 7%nat)
  else if prefix nl s && prefix fence (drop 1 s) then Some 4%nat
  else if prefix fence s then Some 3%nat
  else None.
Proof.
  unfold match_here, re_json_fence.
  rewrite matches_alt, !matches_seq, matches_lit, matches_opt_newline.
  destruct (prefix (fence ++ "json") s).
  { cbn [flat_map String.length fence append app].
    rewrite matches_opt_newline.
    destruct (prefix nl (drop 7 s)); reflexivity. }
  cbn [flat_map app].
  destruct (prefix nl s); cbn [flat_map app drop andb];
    rewrite !matches_lit.
  - destruct (prefix fence match s with "" => "" | String _ s' => s' end);
      [reflexivity|].
    destruct (prefix fence s); reflexivity.
  - destruct (prefix fence s); reflexivity.
Qed.

(** ** A pattern that needs a backtick leaves a text without one alone *)

Lemma prefix_fence_backtick (s : string) :
  prefix fence s = true -> exists r, s = String backtick r.
Proof.
  destruct s as [|d s]; [discriminate|]. unfold fence.
  rewrite prefix_cons. intros H. apply andb_true_iff in H as [H _].
  apply Ascii.eqb_eq in H. subst. eauto.
Qed.

Lemma no_backtick_no_fence (s : string) :
  Spec.contains backtick s = false ->
  prefix fence s = false /\ prefix fence (drop 1 s) = false /\
  prefix (fence ++ "json") s = false.
Proof.
  intros H. repeat split.
  - destruct (prefix fence s) eqn:E; [|reflexivity].
    apply prefix_fence_backtick in E as [r ->]. cbn [Spec.contains] in H.
    rewrite Ascii.eqb_refl in H. discriminate H.
  - destruct s as [|d s]; [reflexivity|]. cbn [drop].
    destruct (prefix fence s) eqn:E; [|reflexivity].
    apply prefix_fence_backtick in E as [r ->]. cbn [Spec.contains] in H.
    rewrite Ascii.eqb_refl, orb_true_r in H. discriminate H.
  - destruct s as [|d s]; [reflexivity|]. cbn [fence append].
    rewrite prefix_cons. cbn [Spec.contains] in H.
    apply orb_false_iff in H as [-> _]. reflexivity.
Qed.

Lemma replace_json_fence_no_backtick (s : string) :
  Spec.contains backtick s = false ->
  forall bos, replace_all_from re_json_fence "" bos 0 s = s.
Proof.
  induction s as [|c s IH]; intros H bos; cbn [replace_all_from];
    rewrite match_here_json_fence;
    destruct (no_backtick_no_fence _ H) as (-> & H1 & ->);
    rewrite H1, andb_false_r; [reflexivity|].
  rewrite IH; [reflexivity|]. cbn in H. now apply orb_false_iff in H.
Qed.

Lemma replace_bare_fence_no_backtick (s : string) :
  Spec.contains backtick s = false ->
  forall bos, replace_all_from re_bare_fence "" bos 0 s = s.
Proof.
  induction s as [|c s IH]; intros H bos; cbn [replace_all_from];
    rewrite match_here_bare_fence;
    destruct (no_backtick_no_fence _ H) as (-> & _ & _); [reflexivity|].
  rewrite IH; [reflexivity|]. cbn in H. now apply orb_false_iff in H.
Qed.

Lemma strip_json_fences_no_backtick (s : string) :
  Spec.contains backtick s = false -> strip_json_fences s = trim s.
Proof.
  intros H. unfold strip_json_fences, replace_all.
  rewrite (replace_json_fence_no_backtick s H),
    (replace_bare_fence_no_backtick s H).
  reflexivity.
Qed.

(** ** Replacing by the empty string only removes characters *)


Lemma trimStart_contains (c : ascii) (s : string) :
  Spec.contains c (trimStart s) = true -> Spec.contains c s = true.
Proof.
  induction s as [|d s IH]; [discriminate|]. cbn [trimStart].
  destruct (is_space d); [|exact (fun H => H)].
  intros H. cbn. rewrite (IH H). apply orb_true_r.
Qed.

Lemma trimEnd_contains (c : ascii) (s : string) :
  Spec.contains c (trimEnd s) = true -> Spec.contains c s = true.
Proof.
  induction s as [|d s IH]; [discriminate|]. cbn [trimEnd].
  destruct (is_space d && is_empty (trimEnd s)); [discriminate|].
  cbn. intros H. apply orb_true_iff in H as [->|H]; [reflexivity|].
  rewrite (IH H). apply orb_true_r.
Qed.


(** ** No fence marker survives the second replacement *)













(** ** [trim] leaves no white space at either end *)

Lemma trimEnd_idempotent (s : string) : trimEnd (trimEnd s) = trimEnd s.
Proof.
  induction s as [|c s IH]; [reflexivity|]. cbn [trimEnd].
  destruct (is_space c && is_empty (trimEnd s)) eqn:E; [reflexivity|].
  cbn [trimEnd]. rewrite IH, E. reflexivity.
Qed.

Lemma trimStart_trimEnd (s : string) :
  trimStart s = s -> trimStart (trimEnd s) = trimEnd s.
Proof.
  destruct s as [|c s]; [reflexivity|]. cbn [trimStart trimEnd].
  destruct (is_space c) eqn:E.
  - intros H. exfalso.
    assert (Hl : forall t, (String.length (trimStart t) <= String.length t)%nat).
    { induction t as [|d t IHt]; cbn; [lia|]. destruct (is_space d); cbn; lia. }
    specialize (Hl s). rewrite H in Hl. cbn in Hl. lia.
  - intros _. cbn [andb trimStart]. rewrite E. reflexivity.
Qed.

Lemma trimStart_idempotent (s : string) : trimStart (trimStart s) = trimStart s.
Proof.
  induction s as [|c s IH]; [reflexivity|]. cbn [trimStart].
  destruct (is_space c) eqn:E; [exact IH|]. cbn [trimStart]. now rewrite E.
Qed.

Lemma trim_idempotent (s : string) : trim (trim s) = trim s.
Proof.
  unfold trim.
  rewrite (trimStart_trimEnd (trimStart s) (trimStart_idempotent s)).
  apply trimEnd_idempotent.
Qed.

(* ================================================================== *)
(** * The bracketed span *)
(* ================================================================== *)

Lemma upto_last_close_ends (s : string) :
  Spec.upto_last_close s = EmptyString \/
  exists m, Spec.upto_last_close s = m ++ "]".
Proof.
  induction s as [|c s IH]; [now left|]. cbn [Spec.upto_last_close].
  destruct IH as [->|[m ->]].
  - cbn [is_empty]. destruct (Ascii.eqb_spec c "]") as [->|_]; [|now left].
    right. now exists EmptyString.
  - right. exists (String c m).
    destruct m; reflexivity.
Qed.

Lemma from_first_open_starts (s : string) :
  Spec.from_first_open s = EmptyString \/
  exists r, Spec.from_first_open s = String "[" r.
Proof.
  induction s as [|c s IH]; [now left|]. cbn [Spec.from_first_open].
  destruct (Ascii.eqb_spec c "[") as [->|_]; [right; eauto|exact IH].
Qed.

Lemma bracket_span_shape (s : string) :
  Spec.bracket_span s = EmptyString \/
  exists mid, Spec.bracket_span s = String "[" (mid ++ "]").
Proof.
  unfold Spec.bracket_span.
  destruct (from_first_open_starts s) as [->|[r ->]]; [now left|].
  cbn [Spec.upto_last_close].
  destruct (upto_last_close_ends r) as [->|[m ->]]; [now left|].
  right. exists m. destruct m; reflexivity.
Qed.

Lemma from_first_open_app (p r : string) :
  Spec.contains "[" p = false ->
  Spec.from_first_open (p ++ String "[" r) = String "[" r.
Proof.
  induction p as [|c p IH]; [reflexivity|]. cbn [Spec.contains append].
  intros H. apply orb_false_iff in H as [Hc Hp].
  cbn [Spec.from_first_open]. rewrite Hc. now apply IH.
Qed.


Lemma contains_app (c : ascii) (a b : string) :
  Spec.contains c (a ++ b) = Spec.contains c a || Spec.contains c b.
Proof.
  induction a as [|d a IH]; [reflexivity|]. cbn [append Spec.contains].
  now rewrite IH, orb_assoc.
Qed.

Lemma trimStart_app (p a : string) (c : ascii) :
  is_space c = false ->
  trimStart (p ++ String c a) = trimStart p ++ String c a.
Proof.
  intros Hc. induction p as [|d p IH]; cbn [append trimStart].
  - now rewrite Hc.
  - destruct (is_space d); [exact IH|reflexivity].
Qed.


Lemma append_assoc (a b c : string) : (a ++ b) ++ c = a ++ (b ++ c).
Proof. induction a as [|d a IH]; [reflexivity|]. cbn. now rewrite IH. Qed.

(** ** [parseJsonArray] in terms of the span *)

Lemma indexOf_missing (s : string) (c : ascii) :
  (indexOf s (String c EmptyString) =? -1)%Z = negb (Spec.contains c s).
Proof.
  rewrite indexOf_first_at, first_at_contains.
  destruct (first_at (String c "") s); [|reflexivity].
  cbn [defined negb]. apply Z.eqb_neq. lia.
Qed.

Lemma lastIndexOf_missing (s : string) (c : ascii) :
  (lastIndexOf s (String c EmptyString) =? -1)%Z = negb (Spec.contains c s).
Proof.
  rewrite lastIndexOf_last_at, last_at_contains.
  destruct (last_at (String c "") s); [|reflexivity].
  cbn [defined negb]. apply Z.eqb_neq. lia.
Qed.

Lemma parseJsonArray_span (text : string) :
  parseJsonArray text =
  let cleaned := strip_json_fences text in
  if Spec.contains "[" cleaned && Spec.contains "]" cleaned
  then match JSON_parse (Spec.bracket_span cleaned) with
       | Some v => inr v
       | None => inl "SyntaxError"
       end
  else inl "Could not find JSON array in response".
Proof.
  unfold parseJsonArray. cbv zeta.
  rewrite indexOf_missing, lastIndexOf_missing, <- negb_andb.
  destruct (Spec.contains "[" (strip_json_fences text)) eqn:E1;
    [|reflexivity].
  destruct (Spec.contains "]" (strip_json_fences text)) eqn:E2;
    [|reflexivity].
  cbn [andb negb]. now rewrite slice_bracket_span.
Qed.

(** ** The cleaning in the words of the specification *)













(* ================================================================== *)
(** * The JSON extractor *)
(* ================================================================== *)




(** C9.  Whatever [parseJsonArray] returns is a JSON array: the text it
    parses starts with an opening bracket and ends with a closing one. *)
Theorem parseJsonArray_returns_array (text : string) (v : json) :
  parseJsonArray text = inr v ->
  is_array v = true /\
  exists mid,
    let cleaned := strip_json_fences text in
    slice cleaned (indexOf cleaned "[") (lastIndexOf cleaned "]" + 1)
    = String "[" (mid ++ "]").
Proof.
  rewrite parseJsonArray_span. cbv zeta.
  destruct (Spec.contains "[" (strip_json_fences text)) eqn:E1;
    [|discriminate].
  destruct (Spec.contains "]" (strip_json_fences text)) eqn:E2;
    [|discriminate].
  cbn [andb]. rewrite (slice_bracket_span _ E1 E2).
  destruct (bracket_span_shape (strip_json_fences text)) as [->|[mid ->]].
  - rewrite JSON_parse_empty. discriminate.
  - destruct (JSON_parse (String "[" (mid ++ "]"))) as [v0|] eqn:Ev;
      [|discriminate].
    intros [= <-]. split; [now apply JSON_parse_bracket in Ev|eauto].
Qed.

Lemma parseJsonArray_returns_array_witness :
  is_array (JArray [JNumber "7"]) = true /\
  exists mid,
    slice (strip_json_fences "x [7] y")
          (indexOf (strip_json_fences "x [7] y") "[")
          (lastIndexOf (strip_json_fences "x [7] y") "]" + 1)
    = String "[" (mid ++ "]").
Proof.
  apply (parseJsonArray_returns_array "x [7] y" (JArray [JNumber "7"])).
  reflexivity.
Defined.

(* ================================================================== *)
(** * The HTML extractor *)
(* ================================================================== *)

Lemma replace_no_match (r : regex) (rep s : string) :
  forall bos, test_from r bos s = false -> replace_first_from r rep bos s = s.
Proof.
  induction s as [|c s IH]; intros bos; cbn [test_from replace_first_from];
    destruct (match_here r bos _); try discriminate; [reflexivity|].
  intros H. now rewrite IH.
Qed.

Lemma strip_html_fences_unfenced (raw : string) :
  test re_html_fence_open raw = false ->
  test re_fence_open raw = false ->
  test re_fence_close raw = false ->
  strip_html_fences raw = trim raw.
Proof.
  unfold strip_html_fences, replace, test. intros H1 H2 H3.
  now rewrite (replace_no_match _ _ _ _ H1), (replace_no_match _ _ _ _ H2),
    (replace_no_match _ _ _ _ H3).
Qed.

(** ** What the three fence patterns detect *)

Lemma test_from_bol_later (r : regex) (s : string) :
  test_from (Seq Bol r) false s = false.
Proof. induction s as [|c s IH]; [reflexivity|exact IH]. Qed.

Lemma test_fence_open (s : string) : test re_fence_open s = prefix fence s.
Proof.
  unfold test, re_fence_open.
  assert (H : match_here (Seq Bol (Seq (lit fence) (Opt (chr newline)))) true s
              = if prefix fence s
                then Some (if prefix nl (drop 3 s) then 4%nat else 3%nat)
                else None).
  { unfold match_here. rewrite matches_seq. cbn [matches flat_map map].
    change (matches (Seq (lit fence) (Opt (chr newline))) (true && (0 =? 0)%nat)
                    (drop 0 s))
      with (matches re_bare_fence true s).
    rewrite app_nil_r, map_id.
    apply (match_here_bare_fence true s). }
  destruct s as [|c s]; cbn [test_from]; rewrite H.
  - reflexivity.
  - destruct (prefix fence (String c s)); [reflexivity|].
    apply test_from_bol_later.
Qed.

Lemma test_html_fence_open (s : string) :
  test re_html_fence_open s = true -> prefix fence s = true.
Proof.
  unfold test, re_html_fence_open.
  assert (H : prefix fence s = false ->
              match_here
                (Seq Bol
                   (Seq (lit fence)
                      (Seq (chr_i "h" "H")
                         (Seq (chr_i "t" "T")
                            (Seq (chr_i "m" "M")
                               (Seq (Opt (chr_i "l" "L"))
                                    (Opt (chr newline))))))))
                true s = None).
  { intros Hp. unfold match_here.
    rewrite matches_seq. cbn [matches flat_map drop andb Nat.eqb].
    fold (matches (lit fence) true s). rewrite matches_lit, Hp.
    reflexivity. }
  destruct (prefix fence s) eqn:Hp; [reflexivity|].
  specialize (H eq_refl).
  destruct s as [|c s]; cbn [test_from]; rewrite H;
    [discriminate|].
  now rewrite test_from_bol_later.
Qed.

Lemma whole_fence (t : string) :
  prefix fence t && is_empty (drop 3 t) = (t =? fence).
Proof.
  unfold fence.
  destruct t as [|a [|b [|c [|d t]]]]; cbn [drop is_empty];
    rewrite ?prefix_cons; cbn [String.eqb];
    repeat match goal with
           | |- context [(?x =? backtick)%char] =>
               destruct (x =? backtick)%char
           end; cbn; try reflexivity.
  all: now destruct t.
Qed.

Lemma matches_fence_end (bos : bool) (t : string) :
  matches (Seq (lit fence) Eol) bos t = if (t =? fence) then [3%nat] else [].
Proof.
  rewrite matches_seq, matches_lit, <- whole_fence.
  destruct (prefix fence t); [|reflexivity].
  cbn [flat_map String.length fence matches app map].
  destruct (is_empty (drop 3 t)); reflexivity.
Qed.

Lemma match_here_fence_close (bos : bool) (s : string) :
  match_here re_fence_close bos s =
  if prefix nl s && (drop 1 s =? fence) then Some 4%nat
  else if (s =? fence) then Some 3%nat
  else None.
Proof.
  unfold match_here, re_fence_close.
  rewrite matches_seq, matches_opt_newline.
  destruct (prefix nl s); cbn [flat_map app andb];
    rewrite !matches_fence_end; cbn [drop].
  - destruct (match s with "" => "" | String _ s' => s' end =? fence);
      [reflexivity|].
    destruct (s =? fence); reflexivity.
  - destruct (s =? fence); reflexivity.
Qed.

Lemma ends_with_self (p : string) : Spec.ends_with p p = true.
Proof. destruct p; cbn [Spec.ends_with]; now rewrite String.eqb_refl. Qed.

Lemma test_fence_close_from (s : string) :
  forall bos, test_from re_fence_close bos s = Spec.ends_with fence s.
Proof.
  induction s as [|c s IH]; intros bos; cbn [test_from Spec.ends_with];
    rewrite match_here_fence_close.
  - reflexivity.
  - cbn [drop]. rewrite IH.
    destruct (prefix nl (String c s) && (s =? fence)) eqn:E.
    + apply andb_true_iff in E as [_ E]. apply String.eqb_eq in E. subst s.
      rewrite ends_with_self. now rewrite orb_true_r.
    + destruct (String c s =? fence); reflexivity.
Qed.

Lemma test_fence_close (s : string) :
  test re_fence_close s = Spec.ends_with fence s.
Proof. apply test_fence_close_from. Qed.

(** C6, as the code has it.  When the input neither starts nor ends with
    a fence marker, and once trimmed either starts as a document or holds
    no [<!DOCTYPE] at all, the result is the input with the white space
    at both ends removed, hence the input itself when it has none there. *)
Theorem extractHtmlDocument_unfenced_trims (raw : string) :
  prefix fence raw = false ->
  Spec.ends_with fence raw = false ->
  startsWith (toLowerCase (trim raw)) "<!doctype" = true \/
  startsWith (toLowerCase (trim raw)) "<html" = true \/
  indexOf (trim raw) "<!DOCTYPE" = (-1)%Z ->
  extractHtmlDocument raw = trim raw /\
  (trim raw = raw -> extractHtmlDocument raw = raw).
Proof.
  intros Hopen Hclose H.
  assert (H1 : test re_html_fence_open raw = false).
  { destruct (test re_html_fence_open raw) eqn:E; [|reflexivity].
    apply test_html_fence_open in E. congruence. }
  assert (H2 : test re_fence_open raw = false)
    by (now rewrite test_fence_open).
  assert (H3 : test re_fence_close raw = false)
    by (now rewrite test_fence_close).
  assert (E : extractHtmlDocument raw = trim raw).
  { unfold extractHtmlDocument.
    rewrite (strip_html_fences_unfenced raw H1 H2 H3).
    destruct H as [ -> | [ -> | -> ] ]; cbn [negb andb]; try reflexivity.
    - now rewrite andb_false_r.
    - now destruct (_ && _). }
  split; [exact E|]. intros Ht. now rewrite E.
Qed.

Lemma extractHtmlDocument_unfenced_trims_witness :
  extractHtmlDocument "  <html><body>Hi</body></html>  "
  = "<html><body>Hi</body></html>" /\
  extractHtmlDocument "<html><body>Hi</body></html>"
  = "<html><body>Hi</body></html>".
Proof.
  split.
  - apply (extractHtmlDocument_unfenced_trims
             "  <html><body>Hi</body></html>  "); try reflexivity.
    right; left; reflexivity.
  - apply (extractHtmlDocument_unfenced_trims "<html><body>Hi</body></html>");
      try reflexivity.
    right; left; reflexivity.
Defined.

(** C6 as the specification states it fails: with no fence and no
    preamble to detect, white space at the ends of the input is still
    removed, both for a document and for a text that is no document. *)
Lemma extractHtmlDocument_changes_unfenced_input :
  (prefix fence "<html></html> " = false /\
   Spec.ends_with fence "<html></html> " = false /\
   test re_html_fence_open "<html></html> " = false /\
   test re_fence_open "<html></html> " = false /\
   test re_fence_close "<html></html> " = false /\
   startsWith (toLowerCase "<html></html> ") "<html" = true /\
   extractHtmlDocument "<html></html> " <> "<html></html> ") /\
  (prefix fence " plain words" = false /\
   Spec.ends_with fence " plain words" = false /\
   test re_html_fence_open " plain words" = false /\
   test re_fence_open " plain words" = false /\
   test re_fence_close " plain words" = false /\
   startsWith (toLowerCase " plain words") "<!doctype" = false /\
   startsWith (toLowerCase " plain words") "<html" = false /\
   indexOf " plain words" "<!DOCTYPE" = (-1)%Z /\
   extractHtmlDocument " plain words" <> " plain words").
Proof.
  repeat split; try reflexivity; vm_compute; discriminate.
Qed.

(* ================================================================== *)
(** * Running statements *)
(* ================================================================== *)

Lemma pool_query_runs {A} (stmt : statement A) (w : world) :
  hd false (faults w) = false ->
  pool_query stmt w =
  match stmt (store w) with
  | inl e => (Throw e, {| store := store w; faults := tl (faults w);
                          sent := sent w |})
  | inr (d, a) => (Return a, {| store := d; faults := tl (faults w);
                                sent := sent w |})
  end.
Proof.
  unfold pool_query. intros ->. destruct (stmt (store w)) as [e|[d a]];
    reflexivity.
Qed.

Lemma pool_query_fails {A} (stmt : statement A) (w : world) :
  hd false (faults w) = true ->
  pool_query stmt w =
  (Throw "storage failure",
   {| store := store w; faults := tl (faults w); sent := sent w |}).
Proof. unfold pool_query. now intros ->. Qed.

Lemma sme_of_key (id : uuid) (d : database) (row : sme_row) :
  hd_error (sme_of id d) = Some row -> sme_id row = id.
Proof.
  unfold sme_of. intros H.
  assert (Hin : In row (filter (fun r => sme_id r =? id) (smes d))).
  { destruct (filter _ (smes d)); [discriminate|].
    injection H as ->. now left. }
  apply filter_In in Hin as [_ Hin]. now apply String.eqb_eq.
Qed.

Lemma sme_of_exists (id : uuid) (d : database) :
  sme_of id d <> [] -> existsb (fun r => sme_id r =? id) (smes d) = true.
Proof.
  unfold sme_of. intros H.
  destruct (filter _ (smes d)) as [|row l] eqn:E; [congruence|].
  assert (Hin : In row (filter (fun r => sme_id r =? id) (smes d)))
    by (rewrite E; now left).
  apply filter_In in Hin as [Hin Hk].
  apply existsb_exists. eauto.
Qed.

Lemma website_of_exists (id : uuid) (d : database) :
  existsb (fun r => w_sme_id r =? id) (websites d)
  = negb (Nat.eqb (List.length (website_of id d)) 0).
Proof.
  unfold website_of. induction (websites d) as [|r l IH]; [reflexivity|].
  cbn [existsb filter]. destruct (w_sme_id r =? id); [reflexivity|exact IH].
Qed.

(** ** The website upsert, row by row *)

Lemma filter_map_update {A} (p : A -> bool) (f : A -> A) (l : list A) :
  (forall a, p (f a) = p a) ->
  filter p (map (fun a => if p a then f a else a) l) = map f (filter p l).
Proof.
  intros Hp. induction l as [|a l IH]; [reflexivity|]. cbn [map filter].
  destruct (p a) eqn:E.
  - rewrite Hp, E. cbn [map]. now rewrite IH.
  - rewrite E. exact IH.
Qed.

Lemma upsert_website_rows (now : timestamp) (id : uuid) (page : string)
      (d : database) :
  sme_of id d <> [] ->
  exists d',
    upsert_website now id page d = inr (d', tt) /\
    smes d' = smes d /\
    website_of id d' =
      match website_of id d with
      | [] => [fresh_website now id page]
      | rows => map (rebuilt now page) rows
      end.
Proof.
  intros Hs. unfold upsert_website. rewrite website_of_exists.
  destruct (website_of id d) as [|r rows] eqn:E; cbn [List.length Nat.eqb negb].
  - rewrite (sme_of_exists _ _ Hs). eexists. split; [reflexivity|].
    split; [reflexivity|]. unfold website_of in *. cbn [websites].
    rewrite filter_app, E. cbn [filter fresh_website w_sme_id].
    now rewrite String.eqb_refl.
  - eexists. split; [reflexivity|]. split; [reflexivity|].
    unfold website_of in *. cbn [websites].
    rewrite (filter_map_update (fun r => w_sme_id r =? id) (rebuilt now page))
      by reflexivity.
    now rewrite E.
Qed.

Lemma update_smes_rows (id : uuid) (f : sme_row -> sme_row) (d : database) :
  (forall r, sme_id (f r) = sme_id r) ->
  exists d',
    update_smes id f d = inr (d', tt) /\
    websites d' = websites d /\
    sme_of id d' = map f (sme_of id d).
Proof.
  intros Hf. eexists. split; [reflexivity|]. split; [reflexivity|].
  unfold sme_of. cbn [smes].
  apply (filter_map_update (fun r => sme_id r =? id) f).
  intros r. now rewrite Hf.
Qed.

Lemma set_deployment_rows (now : timestamp) (url slug_ : string) (id : uuid)
      (d : database) :
  exists d',
    set_deployment now url slug_ id d = inr (d', tt) /\
    smes d' = smes d /\
    website_of id d' = map (deployed_site now url slug_) (website_of id d).
Proof.
  eexists. split; [reflexivity|]. split; [reflexivity|].
  unfold website_of. cbn [websites].
  now rewrite (filter_map_update (fun r => w_sme_id r =? id)
                 (deployed_site now url slug_)) by reflexivity.
Qed.

(* ================================================================== *)
(** * Running the handlers *)
(* ================================================================== *)

Lemma hd_nth {A} (d : A) (l : list A) : hd d l = nth 0 l d.
Proof. now destruct l. Qed.

Lemma hd_tl_nth {A} (d : A) (l : list A) (k : nat) :
  hd d (skipn k l) = nth k l d.
Proof.
  revert l; induction k as [|k IH]; intros [|a l]; cbn; auto.
Qed.

Lemma tl_skipn {A} (l : list A) (k : nat) : tl (skipn k l) = skipn (S k) l.
Proof.
  revert l; induction k as [|k IH]; intros [|a l]; cbn; auto.
Qed.

Lemma build_website_runs (P : prompts) (llm : oracle) (now : timestamp)
      (id : uuid) (w : world) (raw prompt : string) (row : sme_row) :
  fails_at 0 w = false ->
  hd_error (sme_of id (store w)) = Some row ->
  builder_prompt_of P row = Some prompt ->
  answers llm raw ->
  build_website P llm now id w =
  let failed e := Reply 500 (error_body "Website builder failed" (Some e)) in
  let req := [builder_request P prompt] in
  if fails_at 1 w then (failed "storage failure", advance 2 req (store w) w)
  else
    match store_page now id (extractHtmlDocument raw) (store w) with
    | inl e => (failed e, advance 2 req (store w) w)
    | inr (d1, _) =>
        if fails_at 2 w then (failed "storage failure", advance 3 req d1 w)
        else
          match mark_built id d1 with
          | inl e => (failed e, advance 3 req d1 w)
          | inr (d2, _) => (Reply 200 ok_body, advance 3 req d2 w)
          end
    end.
Proof.
  intros H0 Hrow Hprompt Hllm. pose proof (sme_of_key _ _ _ Hrow) as Hid.
  destruct (Hllm (builder_request P prompt)) as [rest Hreq].
  unfold fails_at in *. rewrite <- hd_nth in H0.
  unfold build_website, handler.
  cbv beta delta [bind try_catch callClaude messages_create ret throw].
  rewrite (pool_query_runs _ _ H0). cbn [select_sme].
  fold (sme_of id (store w)). rewrite Hrow.
  cbn [store faults sent].
  fold (builder_prompt_of P row). rewrite Hprompt.
  unfold builder_request, user_says in *. rewrite Hreq.
  cbn beta iota.
  rewrite Hid. unfold pool_query, advance. cbn [store faults sent].
  rewrite <- (hd_tl_nth false (faults w) 1), <- (hd_tl_nth false (faults w) 2).
  rewrite <- !tl_skipn. cbn [skipn].
  destruct (hd false (tl (faults w))); [reflexivity|].
  destruct (store_page now id (extractHtmlDocument raw) (store w))
    as [e|[d1 []]]; [reflexivity|].
  cbn [store faults sent].
  destruct (hd false (tl (tl (faults w)))); [reflexivity|].
  destruct (mark_built id d1) as [e|[d2 []]]; reflexivity.
Qed.

Lemma deploy_runs (now : timestamp) (id : uuid) (w : world) (row : sme_row) :
  fails_at 0 w = false ->
  fails_at 1 w = false ->
  hd_error (sme_of id (store w)) = Some row ->
  deploy now id w =
  match website_of id (store w) with
  | [] => (Reply 400 (error_body "Build website first" None),
           advance 2 [] (store w) w)
  | _ :: _ =>
      let slug_ := deploy_slug (sme_name row) in
      let url := site_url slug_ in
      let failed e := Reply 500 (error_body "Deploy failed" (Some e)) in
      if fails_at 2 w then (failed "storage failure", advance 3 [] (store w) w)
      else
        match set_deployment now url slug_ id (store w) with
        | inl e => (failed e, advance 3 [] (store w) w)
        | inr (d1, _) =>
            if fails_at 3 w
            then (failed "storage failure", advance 4 [] d1 w)
            else
              match mark_deployed url id d1 with
              | inl e => (failed e, advance 4 [] d1 w)
              | inr (d2, _) =>
                  (Reply 200 (deploy_body url slug_ deploy_note),
                   advance 4 [] d2 w)
              end
        end
  end.
Proof.
  intros H0 H1 Hrow. pose proof (sme_of_key _ _ _ Hrow) as Hid.
  unfold fails_at in *. rewrite <- hd_nth in H0.
  rewrite <- (hd_tl_nth false (faults w) 1) in H1.
  rewrite <- (hd_tl_nth false (faults w) 2), <- (hd_tl_nth false (faults w) 3).
  unfold advance. rewrite <- !tl_skipn, !app_nil_r. cbn [skipn] in *.
  unfold deploy, handler.
  cbv beta delta [bind try_catch ret throw].
  rewrite (pool_query_runs _ _ H0). cbn [select_sme].
  fold (sme_of id (store w)). rewrite Hrow.
  rewrite pool_query_runs by exact H1. cbn [select_website store faults sent].
  fold (website_of id (store w)).
  destruct (website_of id (store w)) as [|site sites]; [reflexivity|].
  cbn [hd_error]. rewrite Hid. unfold pool_query. cbn [store faults sent].
  destruct (hd false (tl (tl (faults w)))); [reflexivity|].
  cbn [set_deployment store faults sent].
  destruct (hd false (tl (tl (tl (faults w))))); reflexivity.
Qed.

Lemma deploy_without_site_writes_nothing (now : timestamp) (id : uuid)
      (w : world) :
  website_of id (store w) = [] ->
  store (snd (deploy now id w)) = store w /\
  sent (snd (deploy now id w)) = sent w.
Proof.
  intros Hsite. unfold deploy, handler.
  cbv beta delta [bind try_catch ret throw]. unfold pool_query.
  destruct (hd false (faults w)); [split; reflexivity|].
  cbn [select_sme store faults sent].
  destruct (hd_error _); [|split; reflexivity].
  cbn [store faults sent].
  destruct (hd false (tl (faults w))); [split; reflexivity|].
  cbn [select_website store faults sent].
  fold (website_of id (store w)). rewrite Hsite. split; reflexivity.
Qed.

(* ================================================================== *)
(** * Stage preconditions *)
(* ================================================================== *)

(** C4.  For an SME that exists and has no row in [websites], deploy
    writes nothing, whatever becomes of its statements, and, when its two
    reads succeed, answers 400 with "Build website first". *)
Theorem deploy_requires_website (now : timestamp) (id : uuid) (w : world) :
  sme_of id (store w) <> [] ->
  website_of id (store w) = [] ->
  store (snd (deploy now id w)) = store w /\
  (reads_succeed w ->
   fst (deploy now id w) = Reply 400 (error_body "Build website first" None)).
Proof.
  intros Hsme Hsite. split; [now apply deploy_without_site_writes_nothing|].
  intros [H0 H1]. rewrite hd_nth in H0.
  change (hd false (tl (faults w))) with (hd false (skipn 1 (faults w))) in H1.
  rewrite hd_tl_nth in H1.
  destruct (sme_of id (store w)) as [|row rows] eqn:E; [congruence|].
  rewrite (deploy_runs now id w row H0 H1) by (now rewrite E).
  now rewrite Hsite.
Qed.

Lemma deploy_requires_website_witness :
  store (snd (deploy 9%N "s1" (quiet acme_discovered))) = acme_discovered /\
  fst (deploy 9%N "s1" (quiet acme_discovered))
  = Reply 400 (error_body "Build website first" None).
Proof.
  destruct (deploy_requires_website 9%N "s1" (quiet acme_discovered))
    as [Hstore Hreply].
  - discriminate.
  - reflexivity.
  - split; [exact Hstore|]. apply Hreply. split; reflexivity.
Defined.

(** ** Runs without storage failure *)

Lemma fails_at_quiet (k : nat) (w : world) : faults w = [] -> fails_at k w = false.
Proof. unfold fails_at. intros ->. now destruct k. Qed.

Lemma advance_quiet (k : nat) (reqs : list request) (d : database) (w : world) :
  faults w = [] ->
  advance k reqs d w = {| store := d; faults := []; sent := sent w ++ reqs |}.
Proof. unfold advance. intros ->. now destruct k. Qed.

Lemma hd_error_nonempty {A} (l : list A) (a : A) : hd_error l = Some a -> l <> [].
Proof. now destruct l. Qed.

Lemma hd_error_map {A B} (f : A -> B) (l : list A) (a : A) :
  hd_error l = Some a -> hd_error (map f l) = Some (f a).
Proof. destruct l; [discriminate|]. now intros [= ->]. Qed.

Lemma store_page_runs (now : timestamp) (id : uuid) (page : string)
      (d : database) :
  has_nul page = false ->
  store_page now id page d = upsert_website now id page d.
Proof. unfold store_page, with_text. now intros ->. Qed.

Lemma build_website_succeeds (P : prompts) (llm : oracle) (now : timestamp)
      (id : uuid) (w : world) (raw prompt : string) (row : sme_row) :
  faults w = [] ->
  hd_error (sme_of id (store w)) = Some row ->
  builder_prompt_of P row = Some prompt ->
  answers llm raw ->
  has_nul (extractHtmlDocument raw) = false ->
  exists d',
    build_website P llm now id w =
      (Reply 200 ok_body,
       {| store := d'; faults := [];
          sent := sent w ++ [builder_request P prompt] |}) /\
    website_of id d' =
      match website_of id (store w) with
      | [] => [fresh_website now id (extractHtmlDocument raw)]
      | rows => map (rebuilt now (extractHtmlDocument raw)) rows
      end /\
    sme_of id d' = map as_built (sme_of id (store w)).
Proof.
  intros Hq Hrow Hprompt Hllm Hpage.
  rewrite (build_website_runs P llm now id w raw prompt row
             (fails_at_quiet 0 w Hq) Hrow Hprompt Hllm).
  cbv zeta. unfold fails_at, advance. rewrite Hq. cbn [nth skipn].
  rewrite (store_page_runs _ _ _ _ Hpage).
  destruct (upsert_website_rows now id (extractHtmlDocument raw) (store w)
              (hd_error_nonempty _ _ Hrow)) as (d1 & -> & Hs1 & Hw1).
  destruct (update_smes_rows id as_built d1 (fun r => eq_refl))
    as (d2 & E2 & Hw2 & Hs2).
  unfold mark_built. rewrite E2. exists d2.
  split; [reflexivity|]. split.
  - unfold website_of in *. now rewrite Hw2.
  - unfold sme_of in *. now rewrite Hs2, Hs1.
Qed.

Lemma deploy_succeeds (now : timestamp) (id : uuid) (w : world)
      (row : sme_row) :
  faults w = [] ->
  hd_error (sme_of id (store w)) = Some row ->
  website_of id (store w) <> [] ->
  exists d',
    let slug_ := deploy_slug (sme_name row) in
    deploy now id w =
      (Reply 200 (deploy_body (site_url slug_) slug_ deploy_note),
       {| store := d'; faults := []; sent := sent w |}) /\
    website_of id d' =
      map (deployed_site now (site_url slug_) slug_) (website_of id (store w)) /\
    sme_of id d' = map (as_deployed (site_url slug_)) (sme_of id (store w)).
Proof.
  intros Hq Hrow Hsite.
  rewrite (deploy_runs now id w row (fails_at_quiet 0 w Hq)
             (fails_at_quiet 1 w Hq) Hrow).
  destruct (website_of id (store w)) as [|site sites] eqn:E; [congruence|].
  cbv zeta. unfold fails_at, advance. rewrite Hq. cbn [nth skipn].
  set (slug_ := deploy_slug (sme_name row)).
  destruct (set_deployment_rows now (site_url slug_) slug_ id (store w))
    as (d1 & -> & Hs1 & Hw1).
  destruct (update_smes_rows id (as_deployed (site_url slug_)) d1
              (fun r => eq_refl)) as (d2 & E2 & Hw2 & Hs2).
  unfold mark_deployed. rewrite E2. exists d2. rewrite app_nil_r.
  split; [reflexivity|]. split.
  - unfold website_of in *. now rewrite Hw2, Hw1, E.
  - unfold sme_of in *. now rewrite Hs2, Hs1.
Qed.

(* ================================================================== *)
(** * Rebuilding a website *)
(* ================================================================== *)

(** C3.  Two builds in a row for an SME, with or without a successful
    deploy in between, leave exactly one row in [websites] for it; the row
    holds the page of the second build and no deployed URL, and the SME
    row has no deployed URL either.  The builds are those that go
    through: the template of the prompt evaluates for the row, the model
    answers with text, the two pages hold no U+0000 and no statement
    fails. *)
Theorem rebuild_leaves_one_undeployed_row
        (P : prompts) (llm1 llm2 : oracle) (now1 now2 now_d : timestamp)
        (id : uuid) (w : world) (row : sme_row) (prompt raw1 raw2 : string)
        (deploy_between : bool) :
  faults w = [] ->
  hd_error (sme_of id (store w)) = Some row ->
  builder_prompt_of P row = Some prompt ->
  (List.length (website_of id (store w)) <= 1)%nat ->
  answers llm1 raw1 ->
  answers llm2 raw2 ->
  has_nul (extractHtmlDocument raw1) = false ->
  has_nul (extractHtmlDocument raw2) = false ->
  let w1 := snd (build_website P llm1 now1 id w) in
  let w2 := if deploy_between then snd (deploy now_d id w1) else w1 in
  let w3 := snd (build_website P llm2 now2 id w2) in
  fst (build_website P llm1 now1 id w) = Reply 200 ok_body /\
  (if deploy_between
   then exists url slug_,
       fst (deploy now_d id w1) = Reply 200 (deploy_body url slug_ deploy_note) /\
       Forall (fun r => w_deployed_url r = Some url) (website_of id (store w2)) /\
       website_of id (store w2) <> []
   else True) /\
  fst (build_website P llm2 now2 id w2) = Reply 200 ok_body /\
  (exists site,
      website_of id (store w3) = [site] /\
      w_html site = extractHtmlDocument raw2 /\
      w_deployed_url site = None /\
      w_deployed_at site = None) /\
  Forall (fun r => sme_deployed_url r = None /\ sme_status r = website_built)
         (sme_of id (store w3)).
Proof.
  intros Hq Hrow Hprompt Hone Hllm1 Hllm2 Hpage1 Hpage2.
  destruct (build_website_succeeds P llm1 now1 id w raw1 prompt row Hq
              Hrow Hprompt Hllm1 Hpage1) as (d1 & E1 & Hw1 & Hs1).
  cbv zeta. rewrite E1. cbn [fst snd].
  set (w1 := {| store := d1; faults := [];
                sent := sent w ++ [builder_request P prompt] |}).
  assert (Hsite1 : exists s1, website_of id (store w1) = [s1]).
  { unfold w1. cbn [store]. rewrite Hw1.
    destruct (website_of id (store w)) as [|s [|s' l]]; cbn in Hone;
      [eexists; reflexivity|eexists; reflexivity|lia]. }
  destruct Hsite1 as [s1 Hsite1].
  assert (Hrow1 : hd_error (sme_of id (store w1)) = Some (as_built row)).
  { unfold w1. cbn [store]. rewrite Hs1. now apply hd_error_map. }
  assert (Hstage :
            exists w2 s2 row2,
              (if deploy_between then snd (deploy now_d id w1) else w1) = w2 /\
              faults w2 = [] /\
              website_of id (store w2) = [s2] /\
              hd_error (sme_of id (store w2)) = Some row2 /\
              builder_prompt_of P row2 = Some prompt /\
              (if deploy_between
               then exists url slug_,
                   fst (deploy now_d id w1)
                   = Reply 200 (deploy_body url slug_ deploy_note) /\
                   Forall (fun r => w_deployed_url r = Some url) [s2]
               else True)).
  { destruct deploy_between.
    - destruct (deploy_succeeds now_d id w1 (as_built row) eq_refl Hrow1)
        as (d2 & E2 & Hw2 & Hs2).
      { rewrite Hsite1. discriminate. }
      cbv zeta in E2. rewrite E2. cbn [fst snd].
      eexists _, _, _. split; [reflexivity|]. split; [reflexivity|].
      cbn [store]. rewrite Hw2, Hs2, Hsite1. cbn [map].
      split; [reflexivity|]. split; [|split].
      + apply hd_error_map. exact Hrow1.
      + exact Hprompt.
      + eexists _, _. split; [reflexivity|].
        constructor; [reflexivity|constructor].
    - exists w1, s1, (as_built row). repeat split; assumption. }
  destruct Hstage
    as (w2 & s2 & row2 & -> & Hq2 & Hsite2 & Hrow2 & Hprompt2 & Hdep).
  destruct (build_website_succeeds P llm2 now2 id w2 raw2 prompt row2 Hq2
              Hrow2 Hprompt2 Hllm2 Hpage2)
    as (d3 & E3 & Hw3 & Hs3).
  rewrite E3. cbn [fst snd store]. rewrite Hsite2 in Hw3. cbn [map] in Hw3.
  split; [reflexivity|]. split.
  { destruct deploy_between; [|exact I].
    destruct Hdep as (url & slug_ & Hr & Hall).
    exists url, slug_. rewrite Hsite2.
    split; [exact Hr|]. split; [exact Hall|discriminate]. }
  split; [reflexivity|]. split.
  - exists (rebuilt now2 (extractHtmlDocument raw2) s2).
    split; [exact Hw3|]. repeat split.
  - rewrite Hs3. apply Forall_forall. intros r Hr.
    apply in_map_iff in Hr as (r0 & <- & _). split; reflexivity.
Qed.

Lemma rebuild_leaves_one_undeployed_row_witness :
  exists site,
    website_of "s1"
      (store (snd (build_website plain_prompts (canned "<html>second</html>")
                     12%N "s1"
                     (snd (deploy 11%N "s1"
                             (snd (build_website plain_prompts
                                     (canned "<html>first</html>") 10%N "s1"
                                     (quiet acme_discovered))))))))
    = [site] /\
    w_html site = "<html>second</html>" /\
    w_deployed_url site = None /\
    w_deployed_at site = None.
Proof.
  destruct (rebuild_leaves_one_undeployed_row
              plain_prompts (canned "<html>first</html>")
              (canned "<html>second</html>") 10%N 12%N 11%N "s1"
              (quiet acme_discovered)
              {| sme_id := "s1"; country_id := "c1";
                 sme_name := "Acme & Co."; profile := [];
                 sme_status := discovered; sme_deployed_url := None |}
              "build Acme & Co." "<html>first</html>"
              "<html>second</html>" true)
    as (_ & _ & _ & Hsite & _).
  - reflexivity.
  - reflexivity.
  - reflexivity.
  - cbn. lia.
  - intros req. now exists [].
  - intros req. now exists [].
  - reflexivity.
  - reflexivity.
  - exact Hsite.
Defined.

(** C2, against the code.  The conflict branch of the website upsert
    clears [deployed_url] and [deployed_at] but keeps [slug]: after a
    deployed site is rebuilt its row, and the metadata read back from it,
    still carry the slug of the deployment that the build invalidated. *)
Theorem rebuild_keeps_stale_slug :
  (forall (now : timestamp) (page : string) (r : website_row),
      w_deployed_url (rebuilt now page r) = None /\
      w_deployed_at (rebuilt now page r) = None /\
      w_slug (rebuilt now page r) = w_slug r) /\
  (forall (now : timestamp) (page : string),
      upsert_website now "s1" page acme_deployed
      = inr ({| smes := [acme];
                websites := [{| w_sme_id := "s1"; w_html := page;
                                w_deployed_url := None;
                                w_slug := Some "acme-co";
                                w_built_at := now;
                                w_deployed_at := None |}] |}, tt)) /\
  (let w := snd (build_website plain_prompts (canned "<html>second</html>")
                   5%N "s1" (quiet acme_deployed)) in
   fst (get_website "s1" w)
   = Reply 200 (metadata_body None (Some "acme-co") 5%N)).
Proof. repeat split. Qed.

(* ================================================================== *)
(** * Storage failures *)
(* ================================================================== *)

Lemma ran_upsert_website (now : timestamp) (id : uuid) (page : string)
      (d : database) :
  sme_of id d <> [] ->
  upsert_website now id page d = inr (ran (upsert_website now id page) d, tt) /\
  smes (ran (upsert_website now id page) d) = smes d /\
  website_of id (ran (upsert_website now id page) d) =
    match website_of id d with
    | [] => [fresh_website now id page]
    | rows => map (rebuilt now page) rows
    end.
Proof.
  intros H. destruct (upsert_website_rows now id page d H) as (d' & E & Hs & Hw).
  unfold ran. rewrite E. auto.
Qed.

(** C7, as the code has it.  A statement either runs or changes nothing,
    but the two writes of a stage are separate statements: when the first
    fails the tables are as before; when the second fails the row of
    [websites] keeps what the first wrote and the row of [smes] is as
    before.  [wb] is the state in which build-website runs, [wd] the one
    in which deploy runs.  The stages are those that reach their writes:
    for build-website the template of the prompt evaluates for the row,
    the model answers with text and the page holds no U+0000. *)
Theorem storage_failure_keeps_earlier_write
        (P : prompts) (llm : oracle) (now : timestamp) (id : uuid)
        (raw prompt : string) (wb wd : world) (row row' : sme_row) :
  fails_at 0 wb = false ->
  hd_error (sme_of id (store wb)) = Some row ->
  builder_prompt_of P row = Some prompt ->
  answers llm raw ->
  has_nul (extractHtmlDocument raw) = false ->
  fails_at 0 wd = false ->
  fails_at 1 wd = false ->
  hd_error (sme_of id (store wd)) = Some row' ->
  website_of id (store wd) <> [] ->
  let page := extractHtmlDocument raw in
  let upserted := ran (upsert_website now id page) (store wb) in
  let slug_ := deploy_slug (sme_name row') in
  let url := site_url slug_ in
  let marked := ran (set_deployment now url slug_ id) (store wd) in
  store (snd (build_website P llm now id wb)) =
    (if fails_at 1 wb then store wb
     else if fails_at 2 wb then upserted
     else ran (mark_built id) upserted) /\
  fst (build_website P llm now id wb) =
    (if fails_at 1 wb || fails_at 2 wb
     then Reply 500 (error_body "Website builder failed"
                                (Some "storage failure"))
     else Reply 200 ok_body) /\
  smes upserted = smes (store wb) /\
  website_of id upserted =
    match website_of id (store wb) with
    | [] => [fresh_website now id page]
    | rows => map (rebuilt now page) rows
    end /\
  store (snd (deploy now id wd)) =
    (if fails_at 2 wd then store wd
     else if fails_at 3 wd then marked
     else ran (mark_deployed url id) marked) /\
  fst (deploy now id wd) =
    (if fails_at 2 wd || fails_at 3 wd
     then Reply 500 (error_body "Deploy failed" (Some "storage failure"))
     else Reply 200 (deploy_body url slug_ deploy_note)) /\
  smes marked = smes (store wd) /\
  website_of id marked
  = map (deployed_site now url slug_) (website_of id (store wd)).
Proof.
  intros Hb0 Hrow Hprompt Hllm Hpage Hd0 Hd1 Hrow' Hsite. cbv zeta.
  destruct (ran_upsert_website now id (extractHtmlDocument raw) (store wb)
              (hd_error_nonempty _ _ Hrow)) as (Eu & Hus & Huw).
  rewrite (build_website_runs P llm now id wb raw prompt row Hb0 Hrow
             Hprompt Hllm).
  rewrite (deploy_runs now id wd row' Hd0 Hd1 Hrow').
  cbv zeta. rewrite (store_page_runs _ _ _ _ Hpage), Eu.
  destruct (website_of id (store wd)) as [|site sites] eqn:Esite;
    [congruence|].
  destruct (set_deployment_rows now (site_url (deploy_slug (sme_name row')))
              (deploy_slug (sme_name row')) id (store wd))
    as (dm & Em & Hms & Hmw).
  assert (Hran : ran (set_deployment now
                        (site_url (deploy_slug (sme_name row')))
                        (deploy_slug (sme_name row')) id) (store wd) = dm)
    by (unfold ran; now rewrite Em).
  rewrite Hran, Em.
  repeat split.
  - destruct (fails_at 1 wb); [reflexivity|].
    destruct (fails_at 2 wb); reflexivity.
  - destruct (fails_at 1 wb); [reflexivity|].
    destruct (fails_at 2 wb); reflexivity.
  - exact Hus.
  - exact Huw.
  - destruct (fails_at 2 wd); [reflexivity|].
    destruct (fails_at 3 wd); reflexivity.
  - destruct (fails_at 2 wd); [reflexivity|].
    destruct (fails_at 3 wd); reflexivity.
  - exact Hms.
  - now rewrite Hmw, Esite.
Qed.

Lemma storage_failure_keeps_earlier_write_witness :
  store (snd (build_website plain_prompts (canned "<p>new</p>") 7%N "s1"
                acme_third_fails))
  = ran (upsert_website 7%N "s1" (extractHtmlDocument "<p>new</p>"))
        acme_deployed /\
  store (snd (deploy 7%N "s1" acme_fourth_fails))
  = ran (set_deployment 7%N (site_url (deploy_slug "Acme & Co."))
           (deploy_slug "Acme & Co.") "s1") acme_deployed.
Proof.
  destruct (storage_failure_keeps_earlier_write
              plain_prompts (canned "<p>new</p>") 7%N "s1" "<p>new</p>"
              "build Acme & Co."
              acme_third_fails acme_fourth_fails acme acme)
    as (Hb & _ & _ & _ & Hd & _).
  - reflexivity.
  - reflexivity.
  - reflexivity.
  - intros req. now exists [].
  - reflexivity.
  - reflexivity.
  - reflexivity.
  - reflexivity.
  - discriminate.
  - split; [exact Hb|exact Hd].
Defined.

(** C7 as the specification states it fails: when the status update of
    build-website fails, the website row has already been replaced and
    its deployment cleared, while the SME row still says deployed. *)
Lemma build_website_failure_leaves_partial_state :
  fst (build_website plain_prompts (canned "<html>second</html>") 5%N "s1"
         acme_third_fails)
  = Reply 500 (error_body "Website builder failed" (Some "storage failure")) /\
  store (snd (build_website plain_prompts (canned "<html>second</html>") 5%N
                "s1" acme_third_fails))
  <> store acme_third_fails /\
  website_of "s1"
    (store (snd (build_website plain_prompts (canned "<html>second</html>")
                   5%N "s1" acme_third_fails)))
  = [rebuilt 5%N "<html>second</html>" acme_site] /\
  sme_of "s1"
    (store (snd (build_website plain_prompts (canned "<html>second</html>")
                   5%N "s1" acme_third_fails)))
  = [acme].
Proof.
  repeat split. vm_compute. discriminate.
Qed.

(* ================================================================== *)
(** * The download name *)
(* ================================================================== *)

Lemma download_runs (id : uuid) (w : world) (site : website_row) :
  fails_at 0 w = false ->
  fails_at 1 w = false ->
  hd_error (website_of id (store w)) = Some site ->
  download id w =
  (Reply 200 (attachment (download_name (sme_of id (store w)) ++ ".html")
                         (w_html site)),
   advance 2 [] (store w) w).
Proof.
  intros H0 H1 Hsite. unfold fails_at in *. rewrite <- hd_nth in H0.
  rewrite <- (hd_tl_nth false (faults w) 1) in H1.
  unfold advance. rewrite <- !tl_skipn, app_nil_r. cbn [skipn] in *.
  unfold download, handler.
  cbv beta delta [bind try_catch ret throw].
  rewrite (pool_query_runs _ _ H0). cbn [select_sme].
  rewrite pool_query_runs by exact H1. cbn [select_website store faults sent].
  fold (website_of id (store w)). fold (sme_of id (store w)).
  now rewrite Hsite.
Qed.

(** C10.  The download name is the lowercased business name with every
    run of characters outside a-z and 0-9 turned into one hyphen, without
    the trimming that the deploy slug adds; it is "website" when the
    SME row is missing or its name is empty; for a name that ends in
    punctuation the two slugs differ. *)
Theorem download_name_is_untrimmed_slug :
  (forall smeRows : list sme_row,
      download_name smeRows =
      match smeRows with
      | [] => "website"
      | r :: _ =>
          if is_empty (sme_name r) then "website"
          else Spec.collapse_runs false (toLowerCase (sme_name r))
      end) /\
  (forall name : string,
      deploy_slug name
      = Spec.strip_trailing_hyphens
          (Spec.strip_leading_hyphens (download_slug name))) /\
  (download_slug "Jams & Co." = "jams-co-" /\
   deploy_slug "Jams & Co." = "jams-co" /\
   download_slug "(Jams)" = "-jams-") /\
  (forall (id : uuid) (w : world) (site : website_row),
      fails_at 0 w = false ->
      fails_at 1 w = false ->
      hd_error (website_of id (store w)) = Some site ->
      fst (download id w)
      = Reply 200 (attachment (download_name (sme_of id (store w)) ++ ".html")
                              (w_html site))).
Proof.
  split; [|split; [|split]].
  - intros [|r rows]; [reflexivity|].
    unfold download_name. cbn [hd_error option_map or_default].
    destruct (sme_name r) as [|c s] eqn:E; [reflexivity|].
    cbn [is_empty]. apply download_slug_collapse.
  - intros name. rewrite deploy_slug_trims_download, download_slug_collapse.
    apply strip_edge_single, collapse_single_hyphens.
  - repeat split.
  - intros id w site H0 H1 Hsite.
    now rewrite (download_runs id w site H0 H1 Hsite).
Qed.

Lemma download_name_is_untrimmed_slug_witness :
  fst (download "s1" (quiet acme_deployed))
  = Reply 200 (attachment "acme-co-.html" "<html>first</html>").
Proof.
  destruct download_name_is_untrimmed_slug as (_ & _ & _ & Hrun).
  apply (Hrun "s1" (quiet acme_deployed) acme_site); reflexivity.
Defined.

(* ================================================================== *)
(** * The search driver *)
(* ================================================================== *)

Lemma existsb_filter_length {A} (p : A -> bool) (l : list A) :
  existsb p l = (1 <=? List.length (filter p l))%nat.
Proof.
  induction l as [|a l IH]; [reflexivity|]. cbn [existsb filter].
  destruct (p a); [reflexivity|exact IH].
Qed.

Lemma find_filter_length {A} (p : A -> bool) (l : list A) :
  negb (defined (find p l)) = (List.length (filter p l) =? 0)%nat.
Proof.
  induction l as [|a l IH]; [reflexivity|]. cbn [find filter].
  destruct (p a); [reflexivity|exact IH].
Qed.

(** C8.  The driver takes the first response for incomplete exactly when
    it holds a tool invocation or no text block.  Then it sends a second
    request carrying the history, the first response and one
    acknowledgment for each tool invocation, and parses the text of the
    second response; otherwise it parses the text of the first.  Either
    text goes through [parseJsonArray]. *)
Theorem search_driver_takes_final_text
        (P : prompts) (llm : oracle) (countryName : string) (w : world)
        (first : list block) :
  llm (search_request P countryName) = Some first ->
  searchSMEsWithWebSearch P llm countryName w =
    (if incomplete first then
       match llm (final_request P countryName first) with
       | Some second =>
           (to_result (parseJsonArray (text_or_empty (find is_text second))),
            advance 0 [search_request P countryName;
                       final_request P countryName first] (store w) w)
       | None =>
           (Throw "model call failed",
            advance 0 [search_request P countryName;
                       final_request P countryName first] (store w) w)
       end
     else
       (to_result (parseJsonArray (text_or_empty (find is_text first))),
        advance 0 [search_request P countryName] (store w) w)) /\
  List.length (tool_acknowledgments first)
  = List.length (filter is_tool_use first) /\
  map tool_use_id (tool_acknowledgments first)
  = map block_id (filter is_tool_use first).
Proof.
  intros Hfirst. split; [|split].
  - unfold searchSMEsWithWebSearch, incomplete, advance.
    cbv beta delta [bind messages_create]. rewrite Hfirst. cbv beta iota zeta.
    rewrite existsb_filter_length, find_filter_length.
    destruct ((1 <=? List.length (filter is_tool_use first))%nat
              || (List.length (filter is_text first) =? 0)%nat).
    + cbn [store faults sent skipn app].
      assert (Hreq :
                {| max_tokens := 8000; tools := [];
                   system := final_system P countryName;
                   messages :=
                     if (0 <? List.length (tool_acknowledgments first))%nat
                     then
                       [user_says (Plain (history_user P countryName));
                        {| msg_role := assistant;
                           msg_content := Blocks first |};
                        user_says (ToolResults (tool_acknowledgments first))]
                     else
                       [user_says (Plain (history_user P countryName));
                        {| msg_role := assistant;
                           msg_content := Blocks first |}] |}
                = final_request P countryName first).
      { unfold final_request. cbv zeta.
        unfold tool_acknowledgments at 1. rewrite length_map.
        destruct (List.length (filter is_tool_use first)); reflexivity. }
      rewrite Hreq, <- app_assoc. cbn [app].
      destruct (llm (final_request P countryName first)) as [second|];
        [|reflexivity].
      destruct (parseJsonArray (text_or_empty (find is_text second)));
        reflexivity.
    + cbn [skipn].
      destruct (parseJsonArray (text_or_empty (find is_text first)));
        reflexivity.
  - unfold tool_acknowledgments. apply length_map.
  - unfold tool_acknowledgments. rewrite map_map. reflexivity.
Qed.

Lemma search_driver_takes_final_text_witness :
  fst (searchSMEsWithWebSearch plain_prompts searching_model "Armenia"
         (quiet acme_discovered))
  = Return (JArray [JNumber "1"]).
Proof.
  destruct (search_driver_takes_final_text plain_prompts searching_model
              "Armenia" (quiet acme_discovered)
              [tool_use "t1"; text_block "Searching"] eq_refl) as (Hrun & _).
  rewrite Hrun. reflexivity.
Defined.

(* ================================================================== *)
(** * More on slugs *)
(* ================================================================== *)

Lemma deploy_slug_slug_of (name : string) : deploy_slug name = Spec.slug_of name.
Proof.
  rewrite deploy_slug_trims_download, download_slug_collapse.
  apply strip_edge_single, collapse_single_hyphens.
Qed.

Lemma collapse_slug_chars (s : string) :
  forall b, all_chars slug_char (Spec.collapse_runs b s) = true.
Proof.
  induction s as [|c s IH]; intros b; [reflexivity|].
  cbn [Spec.collapse_runs].
  destruct (Spec.alphanumeric c) eqn:E.
  - cbn [all_chars]. unfold slug_char at 1. now rewrite E, IH.
  - destruct b; [apply IH|]. cbn [all_chars]. now rewrite IH.
Qed.

Lemma strip_leading_all_chars (p : ascii -> bool) (s : string) :
  all_chars p s = true -> all_chars p (Spec.strip_leading_hyphens s) = true.
Proof.
  induction s as [|c s IH]; [reflexivity|]. cbn [Spec.strip_leading_hyphens].
  destruct (c =? "-")%char; [|exact (fun H => H)].
  cbn [all_chars]. intros H. apply andb_true_iff in H as [_ H]. now apply IH.
Qed.

Lemma strip_trailing_all_chars (p : ascii -> bool) (s : string) :
  all_chars p s = true -> all_chars p (Spec.strip_trailing_hyphens s) = true.
Proof.
  induction s as [|c s IH]; [reflexivity|]. cbn [Spec.strip_trailing_hyphens].
  cbn [all_chars]. intros H. apply andb_true_iff in H as [Hc H].
  destruct ((c =? "-")%char && is_empty (Spec.strip_trailing_hyphens s));
    [reflexivity|].
  cbn [all_chars]. now rewrite Hc, IH.
Qed.

Lemma single_hyphens_tail (c : ascii) (s : string) :
  single_hyphens (String c s) = true -> single_hyphens s = true.
Proof.
  destruct s as [|d s]; [reflexivity|]. rewrite single_hyphens_cons.
  intros H. now apply andb_true_iff in H.
Qed.

Lemma strip_leading_single (s : string) :
  single_hyphens s = true ->
  single_hyphens (Spec.strip_leading_hyphens s) = true.
Proof.
  induction s as [|c s IH]; [reflexivity|]. cbn [Spec.strip_leading_hyphens].
  destruct (c =? "-")%char; [|exact (fun H => H)].
  intros H. apply IH. now apply single_hyphens_tail in H.
Qed.

Lemma strip_trailing_head (s : string) :
  match Spec.strip_trailing_hyphens s with
  | EmptyString => True
  | String c _ => exists r, s = String c r
  end.
Proof.
  destruct s as [|c s]; [exact I|]. cbn [Spec.strip_trailing_hyphens].
  destruct ((c =? "-")%char && is_empty (Spec.strip_trailing_hyphens s));
    [exact I|eauto].
Qed.

Lemma strip_trailing_single (s : string) :
  single_hyphens s = true ->
  single_hyphens (Spec.strip_trailing_hyphens s) = true.
Proof.
  induction s as [|c s IH]; [reflexivity|]. intros H.
  pose proof (single_hyphens_tail _ _ H) as Ht. specialize (IH Ht).
  cbn [Spec.strip_trailing_hyphens].
  destruct ((c =? "-")%char && is_empty (Spec.strip_trailing_hyphens s));
    [reflexivity|].
  pose proof (strip_trailing_head s) as Hh.
  destruct (Spec.strip_trailing_hyphens s) as [|d t]; [reflexivity|].
  destruct Hh as [r ->]. rewrite single_hyphens_cons in *.
  apply andb_true_iff in H as [H _]. now rewrite H, IH.
Qed.

Lemma strip_leading_no_hyphen (s : string) :
  prefix "-" (Spec.strip_leading_hyphens s) = false.
Proof.
  induction s as [|c s IH]; [reflexivity|]. cbn [Spec.strip_leading_hyphens].
  destruct (c =? "-")%char eqn:E; [exact IH|].
  now rewrite prefix_char.
Qed.

Lemma strip_trailing_keeps_start (s : string) :
  prefix "-" s = false -> prefix "-" (Spec.strip_trailing_hyphens s) = false.
Proof.
  intros H. pose proof (strip_trailing_head s) as Hh.
  destruct (Spec.strip_trailing_hyphens s) as [|d t]; [reflexivity|].
  destruct Hh as [r ->]. rewrite prefix_char in *. exact H.
Qed.

Lemma ends_with_cons (p : string) (c : ascii) (s : string) :
  Spec.ends_with p (String c s) = (String c s =? p) || Spec.ends_with p s.
Proof. reflexivity. Qed.

Lemma strip_trailing_no_hyphen (s : string) :
  Spec.ends_with "-" (Spec.strip_trailing_hyphens s) = false.
Proof.
  induction s as [|c s IH]; [reflexivity|]. cbn [Spec.strip_trailing_hyphens].
  destruct ((c =? "-")%char && is_empty (Spec.strip_trailing_hyphens s)) eqn:E;
    [reflexivity|].
  rewrite ends_with_cons, IH, orb_false_r.
  destruct (Spec.strip_trailing_hyphens s) as [|d t].
  - cbn [is_empty] in E. rewrite andb_true_r in E.
    cbn [String.eqb]. now rewrite E.
  - cbn [String.eqb]. destruct (c =? "-")%char; [|reflexivity].
    reflexivity.
Qed.

Lemma slug_of_shape (name : string) :
  all_chars slug_char (Spec.slug_of name) = true /\
  prefix "-" (Spec.slug_of name) = false /\
  Spec.ends_with "-" (Spec.slug_of name) = false /\
  single_hyphens (Spec.slug_of name) = true.
Proof.
  unfold Spec.slug_of. repeat split.
  - apply strip_trailing_all_chars, strip_leading_all_chars,
      collapse_slug_chars.
  - apply strip_trailing_keeps_start, strip_leading_no_hyphen.
  - apply strip_trailing_no_hyphen.
  - apply strip_trailing_single, strip_leading_single,
      collapse_single_hyphens.
Qed.

(** X1.  A deploy slug is made of the characters a-z, 0-9 and hyphen only,
    neither starts nor ends with a hyphen and has no two hyphens in a
    row. *)
Theorem deploy_slug_shape (name : string) :
  all_chars slug_char (deploy_slug name) = true /\
  prefix "-" (deploy_slug name) = false /\
  Spec.ends_with "-" (deploy_slug name) = false /\
  single_hyphens (deploy_slug name) = true.
Proof. rewrite deploy_slug_slug_of. apply slug_of_shape. Qed.

Lemma lower_slug_char (c : ascii) : slug_char c = true -> lower_char c = c.
Proof.
  destruct c as [b0 b1 b2 b3 b4 b5 b6 b7].
  destruct b0, b1, b2, b3, b4, b5, b6, b7; vm_compute; intros H;
    try discriminate H; reflexivity.
Qed.

Lemma toLowerCase_slug (s : string) :
  all_chars slug_char s = true -> toLowerCase s = s.
Proof.
  induction s as [|c s IH]; [reflexivity|]. cbn [all_chars toLowerCase].
  intros H. apply andb_true_iff in H as [Hc H].
  now rewrite (lower_slug_char c Hc), IH.
Qed.

Lemma collapse_slug_fixed (s : string) :
  all_chars slug_char s = true ->
  single_hyphens s = true ->
  Spec.collapse_runs false s = s /\
  (prefix "-" s = false -> Spec.collapse_runs true s = s).
Proof.
  induction s as [|c s IH]; [now split|]. cbn [all_chars].
  intros H Hs. apply andb_true_iff in H as [Hc H].
  destruct (IH H (single_hyphens_tail _ _ Hs)) as [IH0 IH1].
  cbn [Spec.collapse_runs]. unfold slug_char in Hc.
  destruct (Spec.alphanumeric c) eqn:E.
  - rewrite IH0. now split.
  - cbn [orb] in Hc. split.
    + pose proof Hc as Hc'. apply Ascii.eqb_eq in Hc'. subst c.
      rewrite IH1; [reflexivity|].
      destruct s as [|d s]; [reflexivity|].
      rewrite single_hyphens_cons, Hc in Hs. rewrite prefix_char.
      now destruct (d =? "-")%char.
    + rewrite prefix_char, Hc. discriminate.
Qed.

Lemma strip_leading_fixed (s : string) :
  prefix "-" s = false -> Spec.strip_leading_hyphens s = s.
Proof.
  destruct s as [|c s]; [reflexivity|]. rewrite prefix_char.
  cbn [Spec.strip_leading_hyphens]. now intros ->.
Qed.

Lemma strip_trailing_fixed (s : string) :
  Spec.ends_with "-" s = false -> Spec.strip_trailing_hyphens s = s.
Proof.
  induction s as [|c s IH]; [reflexivity|]. rewrite ends_with_cons.
  intros H. apply orb_false_iff in H as [Hc H].
  cbn [Spec.strip_trailing_hyphens]. rewrite (IH H).
  destruct s as [|d s]; cbn [is_empty]; [|now rewrite andb_false_r].
  cbn [String.eqb] in Hc. rewrite andb_true_r.
  destruct (c =? "-")%char; [discriminate Hc|reflexivity].
Qed.

(** X2.  The slug of a slug is the slug itself. *)
Theorem deploy_slug_idempotent (name : string) :
  deploy_slug (deploy_slug name) = deploy_slug name.
Proof.
  rewrite !deploy_slug_slug_of.
  destruct (slug_of_shape name) as (Hc & Hs & He & Hh).
  unfold Spec.slug_of at 1.
  rewrite (toLowerCase_slug _ Hc).
  destruct (collapse_slug_fixed _ Hc Hh) as [-> _].
  now rewrite (strip_leading_fixed _ Hs), (strip_trailing_fixed _ He).
Qed.

Lemma collapse_some_alnum (s : string) :
  forall b, some_char Spec.alphanumeric (Spec.collapse_runs b s)
            = some_char Spec.alphanumeric s.
Proof.
  induction s as [|c s IH]; intros b; [reflexivity|].
  cbn [Spec.collapse_runs some_char].
  destruct (Spec.alphanumeric c) eqn:E.
  - cbn [some_char]. now rewrite E.
  - destruct b; [apply IH|]. cbn [some_char].
    change (Spec.alphanumeric "-") with false. apply IH.
Qed.

Lemma strip_leading_some_alnum (s : string) :
  some_char Spec.alphanumeric (Spec.strip_leading_hyphens s)
  = some_char Spec.alphanumeric s.
Proof.
  induction s as [|c s IH]; [reflexivity|]. cbn [Spec.strip_leading_hyphens].
  destruct (Ascii.eqb_spec c "-") as [->|_]; [|reflexivity].
  rewrite IH. reflexivity.
Qed.

Lemma strip_trailing_some_alnum (s : string) :
  some_char Spec.alphanumeric (Spec.strip_trailing_hyphens s)
  = some_char Spec.alphanumeric s.
Proof.
  induction s as [|c s IH]; [reflexivity|]. cbn [Spec.strip_trailing_hyphens].
  destruct (Ascii.eqb_spec c "-") as [->|_]; cbn [andb].
  - destruct (is_empty (Spec.strip_trailing_hyphens s)) eqn:E.
    + destruct (Spec.strip_trailing_hyphens s); [|discriminate E].
      cbn [some_char] in *. now rewrite <- IH.
    + cbn [some_char]. now rewrite IH.
  - cbn [some_char]. now rewrite IH.
Qed.

(** X3.  The deploy slug is empty exactly when the lowercased name holds
    no letter a-z and no digit; the simulated URL then has an empty host
    label. *)
Theorem deploy_slug_empty_iff (name : string) :
  is_empty (deploy_slug name)
  = negb (some_char Spec.alphanumeric (toLowerCase name)).
Proof.
  rewrite deploy_slug_slug_of.
  destruct (slug_of_shape name) as (Hc & Hs & _ & _).
  assert (Ha : some_char Spec.alphanumeric (Spec.slug_of name)
               = some_char Spec.alphanumeric (toLowerCase name)).
  { unfold Spec.slug_of.
    now rewrite strip_trailing_some_alnum, strip_leading_some_alnum,
      collapse_some_alnum. }
  rewrite <- Ha.
  destruct (Spec.slug_of name) as [|c t]; [reflexivity|].
  cbn [is_empty some_char all_chars] in *.
  apply andb_true_iff in Hc as [Hc _]. unfold slug_char in Hc.
  rewrite prefix_char in Hs. rewrite Hs, orb_false_r in Hc.
  now rewrite Hc.
Qed.

Lemma or_default_nonempty (v : option string) (d : string) :
  is_empty d = false -> is_empty (or_default v d) = false.
Proof.
  intros Hd. destruct v as [s|]; [|exact Hd]. cbn [or_default].
  destruct (is_empty s) eqn:E; assumption.
Qed.

(** X4.  The stem of the downloaded file's name is never empty and is made
    of the characters a-z, 0-9 and hyphen only, whatever the SME row
    holds. *)
Theorem download_name_nonempty_safe (smeRows : list sme_row) :
  is_empty (download_name smeRows) = false /\
  all_chars slug_char (download_name smeRows) = true.
Proof.
  unfold download_name. rewrite download_slug_collapse.
  split; [|apply collapse_slug_chars].
  pose proof (or_default_nonempty
                (option_map sme_name (hd_error smeRows)) "website" eq_refl) as H.
  destruct (or_default _ "website") as [|c s]; [discriminate H|].
  cbn [toLowerCase Spec.collapse_runs].
  destruct (Spec.alphanumeric (lower_char c)); reflexivity.
Qed.

(* ================================================================== *)
(** * More on the HTML extractor *)
(* ================================================================== *)

Lemma take_all (s : string) : take (String.length s) s = s.
Proof. induction s as [|c s IH]; [reflexivity|]. cbn. now rewrite IH. Qed.

Lemma slice_from_drop (s : string) (k : nat) :
  (k <= String.length s)%nat -> slice_from s (Z.of_nat k) = drop k s.
Proof.
  intros Hk. unfold slice_from, slice, clamp_index.
  replace (Z.of_nat k <? 0)%Z with false by (symmetry; apply Z.ltb_ge; lia).
  replace (Z.of_nat (String.length s) <? 0)%Z with false
    by (symmetry; apply Z.ltb_ge; lia).
  rewrite Z.min_l by lia. rewrite Z.min_l by lia.
  rewrite Nat2Z.id.
  replace (Z.to_nat (Z.max (Z.of_nat (String.length s) - Z.of_nat k) 0))
    with (String.length (drop k s)) by (rewrite drop_length; lia).
  apply take_all.
Qed.

Lemma first_at_prefix (p s : string) (k : nat) :
  first_at p s = Some k -> prefix p (drop k s) = true.
Proof.
  revert k. induction s as [|c s IH]; intros k; cbn [first_at].
  - destruct (prefix p "") eqn:E; [|discriminate]. now intros [= <-].
  - destruct (prefix p (String c s)) eqn:E; [now intros [= <-]|].
    destruct (first_at p s) as [j|]; [|discriminate].
    intros [= <-]. cbn [drop]. now apply IH.
Qed.

Lemma trimEnd_tail (c : ascii) (s : string) :
  trimEnd (String c s) = String c s -> trimEnd s = s.
Proof.
  cbn [trimEnd]. destruct (is_space c && is_empty (trimEnd s));
    [discriminate|]. now intros [= ->].
Qed.

Lemma trimEnd_drop (s : string) :
  forall k, trimEnd s = s -> trimEnd (drop k s) = drop k s.
Proof.
  induction s as [|c s IH]; intros [|k] H; try reflexivity; [exact H|].
  cbn [drop]. apply IH. now apply trimEnd_tail in H.
Qed.

Lemma trimEnd_trim (s : string) : trimEnd (trim s) = trim s.
Proof. unfold trim. apply trimEnd_idempotent. Qed.

Lemma prefix_toLowerCase (p s : string) :
  prefix p s = true -> prefix (toLowerCase p) (toLowerCase s) = true.
Proof.
  revert s; induction p as [|a p IH]; intros [|b s] H; try reflexivity;
    try discriminate.
  rewrite prefix_cons in H. apply andb_true_iff in H as [Hab H].
  apply Ascii.eqb_eq in Hab. subst. cbn [toLowerCase].
  rewrite prefix_cons, Ascii.eqb_refl. now apply IH.
Qed.

(** The result of [extractHtmlDocument], by cases. *)
Lemma extractHtmlDocument_cases (raw : string) :
  let page := strip_html_fences raw in
  (extractHtmlDocument raw = page /\
   (starts_as_document page = true \/ first_at "<!DOCTYPE" page = None)) \/
  (exists k, first_at "<!DOCTYPE" page = Some k /\
             extractHtmlDocument raw = drop k page).
Proof.
  cbv zeta. unfold extractHtmlDocument, starts_as_document.
  rewrite <- negb_orb.
  destruct (startsWith (toLowerCase (strip_html_fences raw)) "<!doctype"
            || startsWith (toLowerCase (strip_html_fences raw)) "<html");
    cbn [negb]; [left; split; [reflexivity|now left]|].
  rewrite indexOf_first_at.
  pose proof (first_at_bound "<!DOCTYPE" (strip_html_fences raw)) as Hb.
  destruct (first_at "<!DOCTYPE" (strip_html_fences raw)) as [k|].
  - right. exists k. split; [reflexivity|].
    replace (Z.of_nat k >? -1)%Z with true by (symmetry; apply Z.gtb_lt; lia).
    apply slice_from_drop. now apply Hb.
  - left. split; [reflexivity|now right].
Qed.

(** X5.  The cleaned page never has white space at either end. *)
Theorem extractHtmlDocument_trimmed (raw : string) :
  trim (extractHtmlDocument raw) = extractHtmlDocument raw.
Proof.
  destruct (extractHtmlDocument_cases raw) as [[-> _]|(k & Hk & ->)].
  - unfold strip_html_fences. apply trim_idempotent.
  - apply first_at_prefix in Hk.
    assert (He : trimEnd (drop k (strip_html_fences raw))
                 = drop k (strip_html_fences raw)).
    { apply trimEnd_drop. unfold strip_html_fences. apply trimEnd_trim. }
    unfold trim.
    destruct (drop k (strip_html_fences raw)) as [|c t]; [reflexivity|].
    rewrite prefix_cons in Hk. apply andb_true_iff in Hk as [Hc _].
    apply Ascii.eqb_eq in Hc. subst c.
    cbn [trimStart]. change (is_space "<") with false. cbn iota. exact He.
Qed.

(** X6.  The cleaned page either starts as a document ([<!doctype] or
    [<html], in any case) or holds no [<!DOCTYPE] at all. *)
Theorem extractHtmlDocument_starts_at_doctype (raw : string) :
  starts_as_document (extractHtmlDocument raw)
  || (indexOf (extractHtmlDocument raw) "<!DOCTYPE" =? -1)%Z = true.
Proof.
  destruct (extractHtmlDocument_cases raw) as [[-> [H|H]]|(k & Hk & ->)].
  - now rewrite H.
  - rewrite indexOf_first_at, H. apply orb_true_r.
  - apply first_at_prefix, prefix_toLowerCase in Hk.
    unfold starts_as_document, startsWith.
    change (toLowerCase "<!DOCTYPE") with "<!doctype" in Hk.
    now rewrite Hk.
Qed.

(** ** Unwrapping a fenced page *)

Lemma length_app (a b : string) :
  String.length (a ++ b) = (String.length a + String.length b)%nat.
Proof. induction a as [|c a IH]; [reflexivity|]. cbn. now rewrite IH. Qed.

Lemma eqb_length (a b : string) :
  (a =? b) = true -> String.length a = String.length b.
Proof. intros H. apply String.eqb_eq in H. now subst. Qed.

Lemma longer_not_fence (s : string) :
  (3 < String.length s)%nat -> (s =? fence) = false.
Proof.
  intros H. destruct (s =? fence) eqn:E; [|reflexivity].
  apply eqb_length in E. cbn in E. lia.
Qed.

Lemma replace_fence_close_app (doc : string) :
  forall bos,
    replace_first_from re_fence_close "" bos (doc ++ nl ++ fence) = doc.
Proof.
  induction doc as [|c doc IH]; intros bos; [reflexivity|].
  cbn [append replace_first_from]. rewrite match_here_fence_close.
  cbn [drop].
  rewrite (longer_not_fence (doc ++ nl ++ fence))
    by (rewrite length_app; cbn; lia).
  rewrite andb_false_r.
  rewrite (longer_not_fence (String c (doc ++ nl ++ fence)))
    by (cbn [String.length]; rewrite length_app; cbn; lia).
  now rewrite IH.
Qed.

Lemma html_fence_opens (rest : string) :
  replace re_html_fence_open "" (fence ++ "html" ++ nl ++ rest) = rest.
Proof. reflexivity. Qed.

Lemma bare_fence_opens (rest : string) :
  replace re_html_fence_open "" (fence ++ nl ++ rest) = fence ++ nl ++ rest /\
  replace re_fence_open "" (fence ++ nl ++ rest) = rest.
Proof.
  split; [|reflexivity].
  apply replace_no_match. unfold fence, nl. cbn [append test_from].
  change (match_here re_html_fence_open true _) with (@None nat).
  apply test_from_bol_later.
Qed.

Lemma lower_char_lt (c : ascii) : lower_char c = "<"%char -> c = "<"%char.
Proof.
  destruct c as [b0 b1 b2 b3 b4 b5 b6 b7].
  destruct b0, b1, b2, b3, b4, b5, b6, b7; vm_compute; intros H;
    try discriminate H; reflexivity.
Qed.

Lemma document_starts_with_lt (doc : string) :
  starts_as_document doc = true -> exists r, doc = String "<" r.
Proof.
  unfold starts_as_document, startsWith.
  destruct doc as [|c r]; [discriminate|]. cbn [toLowerCase].
  rewrite !prefix_cons, <- andb_orb_distrib_r.
  intros H. apply andb_true_iff in H as [H _].
  apply Ascii.eqb_eq, lower_char_lt in H. subst. eauto.
Qed.

Lemma document_no_fence_open (doc rest : string) :
  starts_as_document doc = true ->
  replace re_fence_open "" (doc ++ rest) = doc ++ rest.
Proof.
  intros H. destruct (document_starts_with_lt doc H) as [r ->].
  apply replace_no_match. fold (test re_fence_open (String "<" r ++ rest)).
  rewrite test_fence_open. reflexivity.
Qed.




(** X7.  A page that starts as a document and has no white space at its
    ends comes back unchanged when the model wraps it in a fence, tagged
    [html] or untagged. *)
Theorem extractHtmlDocument_unwraps_fence (doc : string) :
  trim doc = doc ->
  starts_as_document doc = true ->
  extractHtmlDocument (fenced "html" doc) = doc /\
  extractHtmlDocument (fenced "" doc) = doc.
Proof.
  intros Ht Hd.
  assert (Hpage : forall page, strip_html_fences page = doc ->
                               extractHtmlDocument page = doc).
  { intros page Hp. unfold extractHtmlDocument. rewrite Hp.
    unfold starts_as_document in Hd. rewrite <- negb_orb, Hd. reflexivity. }
  split; apply Hpage; unfold strip_html_fences, fenced.
  - rewrite html_fence_opens, (document_no_fence_open doc _ Hd).
    unfold replace. now rewrite replace_fence_close_app.
  - cbn [append].
    destruct (bare_fence_opens (doc ++ nl ++ fence)) as [H1 H2].
    cbn [append] in H1, H2. rewrite H1, H2.
    unfold replace. now rewrite replace_fence_close_app.
Qed.

Lemma extractHtmlDocument_unwraps_fence_witness :
  extractHtmlDocument (fenced "html" "<!DOCTYPE html><p>Hi</p>")
  = "<!DOCTYPE html><p>Hi</p>" /\
  extractHtmlDocument (fenced "" "<!DOCTYPE html><p>Hi</p>")
  = "<!DOCTYPE html><p>Hi</p>".
Proof.
  apply (extractHtmlDocument_unwraps_fence "<!DOCTYPE html><p>Hi</p>");
    reflexivity.
Defined.

(* ================================================================== *)
(** * More on the JSON extractor *)
(* ================================================================== *)

Lemma parseJsonArray_of_cleaned (a b : string) :
  strip_json_fences a = strip_json_fences b ->
  parseJsonArray a = parseJsonArray b.
Proof. intros H. rewrite !parseJsonArray_span. cbv zeta. now rewrite H. Qed.

Lemma no_backtick_head (c : ascii) (s : string) :
  Spec.contains backtick (String c s) = false ->
  (c =? backtick)%char = false /\ Spec.contains backtick s = false.
Proof. cbn [Spec.contains]. apply orb_false_iff. Qed.

Lemma prefix_fence_no_backtick (s rest : string) :
  Spec.contains backtick s = false ->
  prefix fence (s ++ nl ++ rest) = false.
Proof.
  intros H. unfold fence. destruct s as [|c s]; [reflexivity|].
  apply no_backtick_head in H as [H _]. cbn [append].
  now rewrite prefix_cons, H.
Qed.

Lemma replace_json_fence_tail (body : string) :
  Spec.contains backtick body = false ->
  forall bos, replace_all_from re_json_fence "" bos 0 (body ++ nl ++ fence)
              = body.
Proof.
  induction body as [|c body IH]; intros H bos; [reflexivity|].
  destruct (no_backtick_head _ _ H) as [Hc Hb].
  cbn [append replace_all_from]. rewrite match_here_json_fence.
  cbn [drop].
  rewrite (prefix_fence_no_backtick body fence Hb), andb_false_r.
  unfold fence at 1 2. cbn [append]. rewrite !prefix_cons, Hc. cbn [andb].
  unfold fence at 1. rewrite prefix_cons, Hc. cbn [andb].
  now rewrite IH.
Qed.

Lemma strip_json_fences_fenced (body : string) :
  Spec.contains backtick body = false ->
  strip_json_fences (fenced "json" body) = trim body /\
  strip_json_fences (fenced "" body) = trim body.
Proof.
  intros H. unfold strip_json_fences, fenced, replace_all. split.
  - change (replace_all_from re_json_fence "" true 0
              (fence ++ "json" ++ nl ++ body ++ nl ++ fence))
      with (replace_all_from re_json_fence "" false 0 (body ++ nl ++ fence)).
    rewrite (replace_json_fence_tail body H).
    now rewrite (replace_bare_fence_no_backtick body H).
  - change (replace_all_from re_json_fence "" true 0
              (fence ++ "" ++ nl ++ body ++ nl ++ fence))
      with (replace_all_from re_json_fence "" false 0
              ((nl ++ body) ++ nl ++ fence)).
    assert (H' : Spec.contains backtick (nl ++ body) = false) by exact H.
    rewrite (replace_json_fence_tail _ H').
    now rewrite (replace_bare_fence_no_backtick _ H').
Qed.

(** X8.  An answer wrapped in a fence, tagged [json] or untagged, parses
    exactly as the bare answer does, provided the answer itself holds no
    backtick. *)
Theorem parseJsonArray_ignores_fence (body : string) :
  Spec.contains backtick body = false ->
  parseJsonArray (fenced "json" body) = parseJsonArray body /\
  parseJsonArray (fenced "" body) = parseJsonArray body.
Proof.
  intros H. destruct (strip_json_fences_fenced body H) as [H1 H2].
  split; apply parseJsonArray_of_cleaned;
    now rewrite (strip_json_fences_no_backtick body H).
Qed.

Lemma parseJsonArray_ignores_fence_witness :
  parseJsonArray (fenced "json" "[true, null]")
  = inr (JArray [JBool true; JNull]) /\
  parseJsonArray (fenced "" "[true, null]")
  = inr (JArray [JBool true; JNull]).
Proof.
  destruct (parseJsonArray_ignores_fence "[true, null]" eq_refl) as [H1 H2].
  rewrite H1, H2. split; reflexivity.
Defined.

Lemma trimEnd_app_cons (a t : string) (c : ascii) :
  is_space c = false ->
  trimEnd (a ++ String c t) = a ++ String c (trimEnd t).
Proof.
  intros Hc. induction a as [|d a IH]; cbn [append trimEnd].
  - now rewrite Hc.
  - rewrite IH. destruct a; cbn [append is_empty]; now rewrite andb_false_r.
Qed.

Lemma upto_last_close_none (t : string) :
  Spec.contains "]" t = false -> Spec.upto_last_close t = EmptyString.
Proof.
  induction t as [|c t IH]; [reflexivity|]. cbn [Spec.contains].
  intros H. apply orb_false_iff in H as [Hc H].
  cbn [Spec.upto_last_close]. rewrite (IH H). cbn [is_empty]. now rewrite Hc.
Qed.

Lemma upto_last_close_app (a t : string) :
  Spec.contains "]" t = false ->
  Spec.upto_last_close (a ++ String "]" t) = a ++ "]".
Proof.
  intros H. induction a as [|d a IH]; cbn [append Spec.upto_last_close].
  - now rewrite (upto_last_close_none t H).
  - rewrite IH. destruct a; reflexivity.
Qed.

(** X9.  Bracket scanning recovers an array that has prose on both sides:
    when the text holds no backtick, the prose before holds no opening
    bracket and the prose after no closing one, the array between them is
    what [parseJsonArray] returns. *)
Theorem parseJsonArray_between_prose (prose mid tail : string) (v : json) :
  Spec.contains backtick (prose ++ String "[" (mid ++ String "]" tail)) = false ->
  Spec.contains "[" prose = false ->
  Spec.contains "]" tail = false ->
  JSON_parse (String "[" (mid ++ "]")) = Some v ->
  parseJsonArray (prose ++ String "[" (mid ++ String "]" tail)) = inr v.
Proof.
  intros Hb Hp Ht Hv. rewrite parseJsonArray_span. cbv zeta.
  rewrite (strip_json_fences_no_backtick _ Hb). unfold trim.
  rewrite trimStart_app by reflexivity.
  assert (Hs : trimStart prose ++ String "[" (mid ++ String "]" tail)
               = (trimStart prose ++ String "[" mid) ++ String "]" tail).
  { rewrite append_assoc. reflexivity. }
  rewrite Hs, trimEnd_app_cons by reflexivity.
  assert (Hs' : (trimStart prose ++ String "[" mid) ++ String "]" (trimEnd tail)
                = trimStart prose
                  ++ String "[" (mid ++ String "]" (trimEnd tail))).
  { rewrite append_assoc. reflexivity. }
  rewrite Hs'.
  assert (Hp' : Spec.contains "[" (trimStart prose) = false).
  { destruct (Spec.contains "[" (trimStart prose)) eqn:E; [|reflexivity].
    apply trimStart_contains in E. congruence. }
  assert (Ht' : Spec.contains "]" (trimEnd tail) = false).
  { destruct (Spec.contains "]" (trimEnd tail)) eqn:E; [|reflexivity].
    apply trimEnd_contains in E. congruence. }
  rewrite !contains_app. cbn [Spec.contains].
  rewrite !contains_app. cbn [Spec.contains].
  change ("]" =? "]")%char with true. change ("[" =? "[")%char with true.
  rewrite !orb_true_r. cbn [orb andb].
  unfold Spec.bracket_span. rewrite from_first_open_app by exact Hp'.
  change (String "[" (mid ++ String "]" (trimEnd tail)))
    with (String "[" mid ++ String "]" (trimEnd tail)).
  rewrite (upto_last_close_app _ _ Ht').
  change (String "[" mid ++ "]") with (String "[" (mid ++ "]")).
  now rewrite Hv.
Qed.

Lemma parseJsonArray_between_prose_witness :
  parseJsonArray ("Found: " ++ String "[" ("1, 2" ++ String "]" " Done."))
  = inr (JArray [JNumber "1"; JNumber "2"]).
Proof.
  apply (parseJsonArray_between_prose "Found: " "1, 2" " Done.");
    reflexivity.
Defined.

(* ================================================================== *)
(** * The handlers under any schedule and any model *)
(* ================================================================== *)

Lemma skipn_tl {A} (l : list A) (k : nat) : skipn (S k) l = tl (skipn k l).
Proof. symmetry. apply tl_skipn. Qed.

Lemma build_website_result (P : prompts) (llm : oracle) (now : timestamp)
      (id : uuid) (w : world) :
  build_website P llm now id w =
  if fails_at 0 w then (Unhandled "storage failure", advance 1 [] (store w) w)
  else
    match hd_error (sme_of id (store w)) with
    | None => (Reply 404 (error_body "SME not found" None),
               advance 1 [] (store w) w)
    | Some row =>
        match builder_prompt_of P row with
        | None => (Unhandled "TypeError", advance 1 [] (store w) w)
        | Some prompt =>
            let failed e :=
              Reply 500 (error_body "Website builder failed" (Some e)) in
            let req := builder_request P prompt in
            match generated llm req with
            | None => (failed (generation_error llm req),
                       advance 1 [req] (store w) w)
            | Some raw =>
                if fails_at 1 w
                then (failed "storage failure", advance 2 [req] (store w) w)
                else
                  match store_page now id (extractHtmlDocument raw) (store w)
                  with
                  | inl e => (failed e, advance 2 [req] (store w) w)
                  | inr (d1, _) =>
                      if fails_at 2 w
                      then (failed "storage failure", advance 3 [req] d1 w)
                      else
                        match mark_built id d1 with
                        | inl e => (failed e, advance 3 [req] d1 w)
                        | inr (d2, _) =>
                            (Reply 200 ok_body, advance 3 [req] d2 w)
                        end
                  end
            end
        end
    end.
Proof.
  unfold fails_at, advance.
  rewrite <- (hd_tl_nth false (faults w) 0), <- (hd_tl_nth false (faults w) 1),
    <- (hd_tl_nth false (faults w) 2).
  rewrite !skipn_tl, !app_nil_r. cbn [skipn].
  unfold build_website, handler.
  cbv beta delta [bind try_catch callClaude messages_create ret throw].
  unfold pool_query at 1.
  destruct (hd false (faults w)); [reflexivity|].
  cbn [select_sme store faults sent]. fold (sme_of id (store w)).
  destruct (hd_error (sme_of id (store w))) as [row|] eqn:Hrow; [|reflexivity].
  pose proof (sme_of_key _ _ _ Hrow) as Hid.
  fold (builder_prompt_of P row).
  destruct (builder_prompt_of P row) as [prompt|]; [|reflexivity].
  cbv zeta. unfold generated, generation_error, builder_request, user_says.
  destruct (llm _) as [[|[raw| | |] rest]|]; try reflexivity.
  cbn beta iota. rewrite Hid. unfold pool_query. cbn [store faults sent].
  destruct (hd false (tl (faults w))); [reflexivity|].
  destruct (store_page now id (extractHtmlDocument raw) (store w))
    as [e|[d1 []]]; [reflexivity|].
  cbn [store faults sent].
  destruct (hd false (tl (tl (faults w)))); [reflexivity|].
  destruct (mark_built id d1) as [e|[d2 []]]; reflexivity.
Qed.

Lemma deploy_result (now : timestamp) (id : uuid) (w : world) :
  deploy now id w =
  if fails_at 0 w then (Unhandled "storage failure", advance 1 [] (store w) w)
  else
    match hd_error (sme_of id (store w)) with
    | None => (Reply 404 (error_body "SME not found" None),
               advance 1 [] (store w) w)
    | Some row =>
        if fails_at 1 w
        then (Unhandled "storage failure", advance 2 [] (store w) w)
        else
          match website_of id (store w) with
          | [] => (Reply 400 (error_body "Build website first" None),
                   advance 2 [] (store w) w)
          | _ :: _ =>
              let slug_ := deploy_slug (sme_name row) in
              let url := site_url slug_ in
              let failed e := Reply 500 (error_body "Deploy failed" (Some e)) in
              if fails_at 2 w
              then (failed "storage failure", advance 3 [] (store w) w)
              else
                let d1 := ran (set_deployment now url slug_ id) (store w) in
                if fails_at 3 w
                then (failed "storage failure", advance 4 [] d1 w)
                else (Reply 200 (deploy_body url slug_ deploy_note),
                      advance 4 [] (ran (mark_deployed url id) d1) w)
          end
    end.
Proof.
  unfold fails_at, advance.
  rewrite <- (hd_tl_nth false (faults w) 0), <- (hd_tl_nth false (faults w) 1),
    <- (hd_tl_nth false (faults w) 2), <- (hd_tl_nth false (faults w) 3).
  rewrite !skipn_tl, !app_nil_r. cbn [skipn].
  unfold deploy, handler.
  cbv beta delta [bind try_catch ret throw].
  unfold pool_query at 1.
  destruct (hd false (faults w)); [reflexivity|].
  cbn [select_sme store faults sent]. fold (sme_of id (store w)).
  destruct (hd_error (sme_of id (store w))) as [row|] eqn:Hrow; [|reflexivity].
  pose proof (sme_of_key _ _ _ Hrow) as Hid.
  unfold pool_query at 1. cbn [store faults sent].
  destruct (hd false (tl (faults w))); [reflexivity|].
  cbn [select_website store faults sent]. fold (website_of id (store w)).
  destruct (website_of id (store w)) as [|site sites]; [reflexivity|].
  cbn [hd_error]. cbv zeta. rewrite Hid. unfold pool_query.
  cbn [store faults sent].
  destruct (hd false (tl (tl (faults w)))); [reflexivity|].
  cbn [set_deployment store faults sent ran].
  destruct (hd false (tl (tl (tl (faults w))))); reflexivity.
Qed.

(** ** Where a handler can leave the tables *)

Lemma build_website_preserves (Q : database -> Prop)
      (P : prompts) (llm : oracle) (now : timestamp) (id : uuid) (w : world) :
  (forall page d, Q d -> Q (ran (upsert_website now id page) d)) ->
  (forall d, Q d -> Q (ran (mark_built id) d)) ->
  Q (store w) ->
  Q (store (snd (build_website P llm now id w))).
Proof.
  intros Hu Hm Hq. rewrite build_website_result. cbv zeta.
  destruct (fails_at 0 w); [exact Hq|].
  destruct (hd_error (sme_of id (store w))) as [row|]; [|exact Hq].
  destruct (builder_prompt_of P row) as [prompt|]; [|exact Hq].
  destruct (generated llm (builder_request P prompt)) as [raw|]; [|exact Hq].
  destruct (fails_at 1 w); [exact Hq|].
  specialize (Hu (extractHtmlDocument raw) (store w) Hq). unfold ran in Hu.
  unfold store_page, with_text.
  destruct (has_nul (extractHtmlDocument raw)); [exact Hq|].
  destruct (upsert_website now id (extractHtmlDocument raw) (store w))
    as [e|[d1 []]]; [exact Hq|].
  destruct (fails_at 2 w); [exact Hu|].
  specialize (Hm d1 Hu). unfold ran in Hm.
  destruct (mark_built id d1) as [e|[d2 []]]; [exact Hu|exact Hm].
Qed.

Lemma deploy_preserves (Q : database -> Prop)
      (now : timestamp) (id : uuid) (w : world) :
  (forall url slug_ d, Q d -> Q (ran (set_deployment now url slug_ id) d)) ->
  (forall url d, Q d -> Q (ran (mark_deployed url id) d)) ->
  Q (store w) ->
  Q (store (snd (deploy now id w))).
Proof.
  intros Hs Hm Hq. rewrite deploy_result. cbv zeta.
  destruct (fails_at 0 w); [exact Hq|].
  destruct (hd_error (sme_of id (store w))) as [row|]; [|exact Hq].
  destruct (fails_at 1 w); [exact Hq|].
  destruct (website_of id (store w)); [exact Hq|].
  destruct (fails_at 2 w); [exact Hq|].
  destruct (fails_at 3 w); cbn [snd store advance]; auto.
Qed.

(** ** What each statement leaves alone *)

Lemma filter_map_other {A} (p q : A -> bool) (f : A -> A) (l : list A) :
  (forall a, q a = true -> p a = false) ->
  (forall a, p (f a) = p a) ->
  filter p (map (fun a => if q a then f a else a) l) = filter p l.
Proof.
  intros Hpq Hf. induction l as [|a l IH]; [reflexivity|]. cbn [map filter].
  destruct (q a) eqn:E.
  - rewrite Hf, (Hpq a E). exact IH.
  - destruct (p a); now rewrite IH.
Qed.

Lemma other_key (id id' : uuid) (k : string) :
  id' <> id -> (k =? id) = true -> (k =? id') = false.
Proof.
  intros Hne H. apply String.eqb_eq in H. subst.
  apply String.eqb_neq. congruence.
Qed.

Lemma upsert_website_other (now : timestamp) (id id' : uuid) (page : string)
      (d : database) :
  id' <> id ->
  website_of id' (ran (upsert_website now id page) d) = website_of id' d.
Proof.
  intros Hne. unfold ran, upsert_website, website_of.
  destruct (existsb _ (websites d)); cbn [websites].
  - apply (filter_map_other (fun r => w_sme_id r =? id')
                            (fun r => w_sme_id r =? id)).
    + intros a. apply other_key, Hne.
    + reflexivity.
  - destruct (existsb _ (smes d)); [|reflexivity]. cbn [websites].
    rewrite filter_app. cbn [filter fresh_website w_sme_id].
    replace (id =? id') with false
      by (symmetry; apply String.eqb_neq; congruence).
    apply app_nil_r.
Qed.

Lemma upsert_website_smes (now : timestamp) (id : uuid) (page : string)
      (d : database) :
  smes (ran (upsert_website now id page) d) = smes d.
Proof.
  unfold ran, upsert_website.
  destruct (existsb _ (websites d)); [reflexivity|].
  destruct (existsb _ (smes d)); reflexivity.
Qed.

Lemma update_smes_other (id id' : uuid) (f : sme_row -> sme_row)
      (d : database) :
  (forall r, sme_id (f r) = sme_id r) ->
  id' <> id ->
  sme_of id' (ran (update_smes id f) d) = sme_of id' d.
Proof.
  intros Hf Hne. unfold ran, update_smes, sme_of. cbn [smes].
  apply (filter_map_other (fun r => sme_id r =? id')
                          (fun r => sme_id r =? id)).
  - intros a. apply other_key, Hne.
  - intros a. now rewrite Hf.
Qed.

Lemma update_smes_keys (id : uuid) (f : sme_row -> sme_row) (d : database) :
  (forall r, sme_id (f r) = sme_id r) ->
  map sme_id (smes (ran (update_smes id f) d)) = map sme_id (smes d).
Proof.
  intros Hf. unfold ran, update_smes. cbn [smes]. rewrite map_map.
  apply map_ext. intros r. destruct (sme_id r =? id); [apply Hf|reflexivity].
Qed.

Lemma update_smes_websites (id : uuid) (f : sme_row -> sme_row)
      (d : database) :
  websites (ran (update_smes id f) d) = websites d.
Proof. reflexivity. Qed.

Lemma set_deployment_other (now : timestamp) (url slug_ : string)
      (id id' : uuid) (d : database) :
  id' <> id ->
  website_of id' (ran (set_deployment now url slug_ id) d) = website_of id' d.
Proof.
  intros Hne. unfold ran, set_deployment, website_of. cbn [websites].
  apply (filter_map_other (fun r => w_sme_id r =? id')
                          (fun r => w_sme_id r =? id)).
  - intros a. apply other_key, Hne.
  - reflexivity.
Qed.

(** X13.  build-website and deploy for one SME never touch the rows of
    another, in either table, and never add or remove an SME row;
    this holds whatever the model answers and whichever statements
    fail. *)
Theorem stages_leave_other_smes_alone
        (P : prompts) (llm : oracle) (now : timestamp) (id id' : uuid)
        (w : world) :
  id' <> id ->
  (website_of id' (store (snd (build_website P llm now id w)))
   = website_of id' (store w) /\
   sme_of id' (store (snd (build_website P llm now id w)))
   = sme_of id' (store w) /\
   map sme_id (smes (store (snd (build_website P llm now id w))))
   = map sme_id (smes (store w))) /\
  (website_of id' (store (snd (deploy now id w))) = website_of id' (store w) /\
   sme_of id' (store (snd (deploy now id w))) = sme_of id' (store w) /\
   map sme_id (smes (store (snd (deploy now id w))))
   = map sme_id (smes (store w))).
Proof.
  intros Hne.
  set (Q := fun d => website_of id' d = website_of id' (store w) /\
                     sme_of id' d = sme_of id' (store w) /\
                     map sme_id (smes d) = map sme_id (smes (store w))).
  assert (Hsmes : forall f d,
             (forall r, sme_id (f r) = sme_id r) ->
             Q d -> Q (ran (update_smes id f) d)).
  { intros f d Hf (H1 & H2 & H3). repeat split.
    - exact H1.
    - now rewrite update_smes_other.
    - now rewrite update_smes_keys. }
  split.
  - apply (build_website_preserves Q); [| |now repeat split].
    + intros page d (H1 & H2 & H3). unfold Q, sme_of.
      rewrite upsert_website_other, upsert_website_smes by exact Hne.
      now repeat split.
    + intros d. now apply Hsmes.
  - apply (deploy_preserves Q); [| |now repeat split].
    + intros url slug_ d (H1 & H2 & H3). unfold Q.
      rewrite set_deployment_other by exact Hne. now repeat split.
    + intros url d. now apply Hsmes.
Qed.

Lemma stages_leave_other_smes_alone_witness :
  (website_of "s1"
     (store (snd (build_website plain_prompts (canned "<p>x</p>") 3%N "s1"
                    (quiet (base two_countries)))))
   = [rebuilt 3%N "<p>x</p>" acme_site] /\
   website_of "s2"
     (store (snd (build_website plain_prompts (canned "<p>x</p>") 3%N "s1"
                    (quiet (base two_countries)))))
   = [bakery_site] /\
   sme_of "s2"
     (store (snd (build_website plain_prompts (canned "<p>x</p>") 3%N "s1"
                    (quiet (base two_countries)))))
   = [bakery]) /\
  (website_of "s1"
     (store (snd (deploy 3%N "s1" (quiet (base two_countries)))))
   = [deployed_site 3%N acme_url "acme-co" acme_site] /\
   website_of "s2"
     (store (snd (deploy 3%N "s1" (quiet (base two_countries)))))
   = [bakery_site] /\
   sme_of "s2" (store (snd (deploy 3%N "s1" (quiet (base two_countries)))))
   = [bakery]).
Proof.
  destruct (stages_leave_other_smes_alone plain_prompts (canned "<p>x</p>")
              3%N "s1" "s2" (quiet (base two_countries)))
    as ((Hb1 & Hb2 & _) & (Hd1 & Hd2 & _)).
  - discriminate.
  - split; (split; [reflexivity|split]); assumption.
Defined.

(** ** The constraints of the schema *)

Lemma website_of_missing (id : uuid) (d : database) :
  existsb (fun r => w_sme_id r =? id) (websites d) = false ->
  website_of id d = [].
Proof.
  rewrite website_of_exists. destruct (website_of id d); [reflexivity|].
  discriminate.
Qed.

Lemma upsert_website_unique (now : timestamp) (id : uuid) (page : string)
      (d : database) :
  unique_sites d -> unique_sites (ran (upsert_website now id page) d).
Proof.
  intros Hu id0. destruct (String.eqb_spec id0 id) as [->|Hne].
  - unfold ran, upsert_website.
    destruct (existsb _ (websites d)) eqn:E.
    + unfold website_of. cbn [websites].
      rewrite (filter_map_update (fun r => w_sme_id r =? id)
                 (rebuilt now page)) by reflexivity.
      rewrite length_map. apply Hu.
    + destruct (existsb _ (smes d)); [|apply Hu].
      unfold website_of. cbn [websites]. rewrite filter_app.
      fold (website_of id d). rewrite (website_of_missing id d E).
      cbn [app filter fresh_website w_sme_id]. rewrite String.eqb_refl.
      cbn. lia.
  - rewrite upsert_website_other by exact Hne. apply Hu.
Qed.

Lemma set_deployment_unique (now : timestamp) (url slug_ : string) (id : uuid)
      (d : database) :
  unique_sites d -> unique_sites (ran (set_deployment now url slug_ id) d).
Proof.
  intros Hu id0. destruct (String.eqb_spec id0 id) as [->|Hne].
  - destruct (set_deployment_rows now url slug_ id d) as (d' & E & _ & Hw).
    unfold ran. rewrite E, Hw, length_map. apply Hu.
  - rewrite set_deployment_other by exact Hne. apply Hu.
Qed.

Lemma update_smes_unique (id : uuid) (f : sme_row -> sme_row) (d : database) :
  unique_sites d -> unique_sites (ran (update_smes id f) d).
Proof. intros Hu id0. apply Hu. Qed.

(** X14.  build-website and deploy keep the unique constraint on
    [websites.sme_id]: if no SME had two website rows before, none has
    afterwards, whatever the model answers and whichever statements
    fail. *)
Theorem stages_keep_one_site_per_sme
        (P : prompts) (llm : oracle) (now : timestamp) (id : uuid) (w : world) :
  unique_sites (store w) ->
  unique_sites (store (snd (build_website P llm now id w))) /\
  unique_sites (store (snd (deploy now id w))).
Proof.
  intros Hu. split.
  - apply (build_website_preserves unique_sites); [| |exact Hu].
    + intros page d. apply upsert_website_unique.
    + intros d. apply update_smes_unique.
  - apply (deploy_preserves unique_sites); [| |exact Hu].
    + intros url slug_ d. apply set_deployment_unique.
    + intros url d. apply update_smes_unique.
Qed.

Lemma stages_keep_one_site_per_sme_witness :
  unique_sites
    (store (snd (build_website plain_prompts (canned "<p>x</p>") 3%N "s1"
                   (quiet acme_discovered)))) /\
  unique_sites (store (snd (deploy 3%N "s1" (quiet acme_discovered)))).
Proof.
  apply (stages_keep_one_site_per_sme plain_prompts (canned "<p>x</p>") 3%N
           "s1" (quiet acme_discovered)).
  intros id. cbn. lia.
Defined.

Lemma existsb_map_key {A} (p : A -> bool) (g : A -> A) (l : list A) :
  (forall a, p (g a) = p a) -> existsb p (map g l) = existsb p l.
Proof.
  intros H. induction l as [|a l IH]; [reflexivity|]. cbn [map existsb].
  now rewrite H, IH.
Qed.

Lemma update_smes_references (id : uuid) (f : sme_row -> sme_row)
      (d : database) :
  (forall r, sme_id (f r) = sme_id r) ->
  sites_reference_smes d -> sites_reference_smes (ran (update_smes id f) d).
Proof.
  intros Hf Hr site Hin. unfold ran, update_smes in *. cbn [smes websites] in *.
  rewrite existsb_map_key; [now apply Hr|].
  intros r. destruct (sme_id r =? id); [now rewrite Hf|reflexivity].
Qed.

Lemma upsert_website_references (now : timestamp) (id : uuid) (page : string)
      (d : database) :
  sites_reference_smes d ->
  sites_reference_smes (ran (upsert_website now id page) d).
Proof.
  intros Hr. unfold ran, upsert_website.
  destruct (existsb _ (websites d)).
  - intros site Hin. cbn [smes websites] in *.
    apply in_map_iff in Hin as (r & <- & Hin).
    destruct (w_sme_id r =? id); cbn [rebuilt w_sme_id]; now apply Hr.
  - destruct (existsb (fun r => sme_id r =? id) (smes d)) eqn:E; [|exact Hr].
    intros site Hin. cbn [smes websites] in *.
    apply in_app_or in Hin as [Hin|[<-|[]]]; [now apply Hr|exact E].
Qed.

Lemma set_deployment_references (now : timestamp) (url slug_ : string)
      (id : uuid) (d : database) :
  sites_reference_smes d ->
  sites_reference_smes (ran (set_deployment now url slug_ id) d).
Proof.
  intros Hr site Hin. unfold ran, set_deployment in *.
  cbn [smes websites] in *.
  apply in_map_iff in Hin as (r & <- & Hin).
  destruct (w_sme_id r =? id); cbn [deployed_site w_sme_id]; now apply Hr.
Qed.

(** X15.  build-website and deploy keep the foreign key of [websites]:
    if every website row referred to an existing SME before, every one
    does afterwards, whatever the model answers and whichever statements
    fail. *)
Theorem stages_keep_sites_referencing_smes
        (P : prompts) (llm : oracle) (now : timestamp) (id : uuid) (w : world) :
  sites_reference_smes (store w) ->
  sites_reference_smes (store (snd (build_website P llm now id w))) /\
  sites_reference_smes (store (snd (deploy now id w))).
Proof.
  intros Hr. split.
  - apply (build_website_preserves sites_reference_smes); [| |exact Hr].
    + intros page d. apply upsert_website_references.
    + intros d. now apply update_smes_references.
  - apply (deploy_preserves sites_reference_smes); [| |exact Hr].
    + intros url slug_ d. apply set_deployment_references.
    + intros url d. now apply update_smes_references.
Qed.

Lemma stages_keep_sites_referencing_smes_witness :
  sites_reference_smes
    (store (snd (build_website plain_prompts (canned "<p>x</p>") 3%N "s1"
                   (quiet acme_deployed)))) /\
  sites_reference_smes (store (snd (deploy 3%N "s1" (quiet acme_deployed)))).
Proof.
  apply (stages_keep_sites_referencing_smes plain_prompts (canned "<p>x</p>")
           3%N "s1" (quiet acme_deployed)).
  intros site [<-|[]]. reflexivity.
Defined.

(* ================================================================== *)
(** * Error paths of the stage handlers *)
(* ================================================================== *)

(** X10.  For an SME that does not exist, build-website and deploy answer
    404 "SME not found" once their first SELECT has run, send nothing
    to the model and leave the tables as they are. *)
Theorem stages_answer_404_for_missing_sme
        (P : prompts) (llm : oracle) (now : timestamp) (id : uuid) (w : world) :
  sme_of id (store w) = [] ->
  fails_at 0 w = false ->
  (fst (build_website P llm now id w)
   = Reply 404 (error_body "SME not found" None) /\
   store (snd (build_website P llm now id w)) = store w /\
   sent (snd (build_website P llm now id w)) = sent w) /\
  (fst (deploy now id w) = Reply 404 (error_body "SME not found" None) /\
   store (snd (deploy now id w)) = store w /\
   sent (snd (deploy now id w)) = sent w).
Proof.
  intros Hs H0. rewrite build_website_result, deploy_result, H0, Hs.
  cbn [hd_error fst snd advance store sent]. rewrite app_nil_r.
  repeat split.
Qed.

Lemma stages_answer_404_for_missing_sme_witness :
  fst (build_website plain_prompts (canned "<p>x</p>") 3%N "nobody"
         (quiet acme_deployed))
  = Reply 404 (error_body "SME not found" None) /\
  fst (deploy 3%N "nobody" (quiet acme_deployed))
  = Reply 404 (error_body "SME not found" None).
Proof.
  destruct (stages_answer_404_for_missing_sme plain_prompts
              (canned "<p>x</p>") 3%N "nobody" (quiet acme_deployed))
    as ((Hb & _) & (Hd & _)).
  - reflexivity.
  - reflexivity.
  - split; [exact Hb|exact Hd].
Defined.

(** X11.  When the generation gives no text for the prompt of the row
    (the model call is rejected, the response has no block, or its first
    block is not a text block), build-website answers 500 "Website
    builder failed" and issues no write: the tables are unchanged and
    only the first statement of the schedule has been used.  When the
    template of the prompt throws for the row, nothing is sent to the
    model, no reply is sent, and the tables and the schedule are left
    the same way. *)
Theorem build_website_without_text_writes_nothing
        (P : prompts) (llm : oracle) (now : timestamp) (id : uuid) (w : world)
        (row : sme_row) :
  fails_at 0 w = false ->
  hd_error (sme_of id (store w)) = Some row ->
  (forall prompt, builder_prompt_of P row = Some prompt ->
                  generated llm (builder_request P prompt) = None) ->
  store (snd (build_website P llm now id w)) = store w /\
  faults (snd (build_website P llm now id w)) = tl (faults w) /\
  match builder_prompt_of P row with
  | Some prompt =>
      fst (build_website P llm now id w)
      = Reply 500 (error_body "Website builder failed"
                     (Some (generation_error llm (builder_request P prompt)))) /\
      sent (snd (build_website P llm now id w))
      = (sent w ++ [builder_request P prompt])%list
  | None =>
      fst (build_website P llm now id w) = Unhandled "TypeError" /\
      sent (snd (build_website P llm now id w)) = sent w
  end.
Proof.
  intros H0 Hrow Hgen.
  rewrite build_website_result, H0, Hrow.
  destruct (builder_prompt_of P row) as [prompt|].
  - cbv zeta. rewrite (Hgen prompt eq_refl).
    cbn [fst snd advance store faults sent]. repeat split.
  - cbn [fst snd advance store faults sent]. rewrite app_nil_r.
    repeat split.
Qed.

Lemma build_website_without_text_writes_nothing_witness :
  fst (build_website plain_prompts (fun _ => Some [tool_use "t1"]) 3%N "s1"
         (quiet acme_deployed))
  = Reply 500 (error_body "Website builder failed" (Some "TypeError")) /\
  store (snd (build_website plain_prompts (fun _ => Some [tool_use "t1"]) 3%N
                "s1" (quiet acme_deployed)))
  = acme_deployed.
Proof.
  destruct (build_website_without_text_writes_nothing plain_prompts
              (fun _ => Some [tool_use "t1"]) 3%N "s1" (quiet acme_deployed)
              acme) as (Hs & _ & Hr & _).
  - reflexivity.
  - reflexivity.
  - intros prompt _. reflexivity.
  - split; [exact Hr|exact Hs].
Defined.

Lemma read_handler_fails (id : uuid) (w : world) :
  fails_at 0 w = true ->
  fst (download id w) = Reply 500 (error_body "DB error" None) /\
  fst (get_website id w)
  = Reply 500 (error_body "DB error" (Some "storage failure")) /\
  fst (preview id w)
  = Reply 500 (text_body "<html><body>Error loading preview</body></html>").
Proof.
  unfold fails_at. rewrite <- hd_nth. intros H0.
  unfold download, get_website, preview, handler.
  cbv beta delta [bind try_catch ret throw].
  rewrite !(pool_query_fails _ _ H0). repeat split.
Qed.

(** X12.  The first SELECT of build-website and of deploy runs outside
    the [try] block: when it fails, the rejection escapes the handler, no
    reply is sent, nothing is written and the model is not called.  The
    read-only handlers (download, metadata, preview) catch the same
    failure and answer 500. *)
Theorem failed_select_escapes_stage_handlers
        (P : prompts) (llm : oracle) (now : timestamp) (id : uuid) (w : world) :
  fails_at 0 w = true ->
  (fst (build_website P llm now id w) = Unhandled "storage failure" /\
   store (snd (build_website P llm now id w)) = store w /\
   sent (snd (build_website P llm now id w)) = sent w) /\
  (fst (deploy now id w) = Unhandled "storage failure" /\
   store (snd (deploy now id w)) = store w) /\
  fst (download id w) = Reply 500 (error_body "DB error" None) /\
  fst (get_website id w)
  = Reply 500 (error_body "DB error" (Some "storage failure")) /\
  fst (preview id w)
  = Reply 500 (text_body "<html><body>Error loading preview</body></html>").
Proof.
  intros H0. rewrite build_website_result, deploy_result, H0.
  cbn [fst snd advance store sent]. rewrite app_nil_r.
  repeat split; apply (read_handler_fails id w H0).
Qed.

Lemma failed_select_escapes_stage_handlers_witness :
  fst (deploy 3%N "s1"
         {| store := acme_deployed; faults := [true]; sent := [] |})
  = Unhandled "storage failure" /\
  fst (download "s1"
         {| store := acme_deployed; faults := [true]; sent := [] |})
  = Reply 500 (error_body "DB error" None).
Proof.
  destruct (failed_select_escapes_stage_handlers plain_prompts
              (canned "<p>x</p>") 3%N "s1"
              {| store := acme_deployed; faults := [true]; sent := [] |}
              eq_refl) as (_ & (Hd & _) & Hl & _).
  split; [exact Hd|exact Hl].
Defined.

(* ================================================================== *)
(** * What a successful stage leaves behind *)
(* ================================================================== *)

(** X16.  After a successful deploy the reply, the website row and the
    SME row carry the same URL, [https://<slug>.netlify.app] for the slug
    of the SME's name; the row holds that slug, the SME is marked
    deployed, and the stored page and its build time are untouched. *)
Theorem deploy_mirrors_url (now : timestamp) (id : uuid) (w : world)
        (row : sme_row) :
  faults w = [] ->
  hd_error (sme_of id (store w)) = Some row ->
  website_of id (store w) <> [] ->
  let slug_ := deploy_slug (sme_name row) in
  let url := "https://" ++ slug_ ++ ".netlify.app" in
  let after := store (snd (deploy now id w)) in
  fst (deploy now id w) = Reply 200 (deploy_body url slug_ deploy_note) /\
  Forall (fun site => w_deployed_url site = Some url /\
                      w_slug site = Some slug_ /\
                      w_deployed_at site = Some now)
         (website_of id after) /\
  Forall (fun r => sme_deployed_url r = Some url /\ sme_status r = deployed)
         (sme_of id after) /\
  map w_html (website_of id after) = map w_html (website_of id (store w)) /\
  map w_built_at (website_of id after)
  = map w_built_at (website_of id (store w)).
Proof.
  intros Hq Hrow Hsite. cbv zeta.
  destruct (deploy_succeeds now id w row Hq Hrow Hsite) as (d' & E & Hw & Hs).
  cbv zeta in E. unfold site_url in *. rewrite E. cbn [fst snd store].
  rewrite Hw, Hs, !map_map. cbn [deployed_site w_html w_built_at].
  repeat split.
  - apply Forall_forall. intros site Hin.
    apply in_map_iff in Hin as (r & <- & _). repeat split.
  - apply Forall_forall. intros r Hin.
    apply in_map_iff in Hin as (r0 & <- & _). repeat split.
Qed.

Lemma deploy_mirrors_url_witness :
  fst (deploy 8%N "s1" (quiet acme_deployed))
  = Reply 200 (deploy_body "https://acme-co.netlify.app" "acme-co"
                 deploy_note).
Proof.
  destruct (deploy_mirrors_url 8%N "s1" (quiet acme_deployed) acme)
    as (H & _).
  - reflexivity.
  - reflexivity.
  - discriminate.
  - exact H.
Defined.

(** ** A later run of a stage absorbs an earlier one *)

Lemma build_website_quiet_store (P : prompts) (llm : oracle) (now : timestamp)
      (id : uuid) (w : world) (raw prompt : string) (row : sme_row) :
  faults w = [] ->
  hd_error (sme_of id (store w)) = Some row ->
  builder_prompt_of P row = Some prompt ->
  answers llm raw ->
  has_nul (extractHtmlDocument raw) = false ->
  build_website P llm now id w =
  (Reply 200 ok_body,
   {| store := built_tables now id (extractHtmlDocument raw) (store w);
      faults := []; sent := sent w ++ [builder_request P prompt] |}).
Proof.
  intros Hq Hrow Hprompt Hllm Hpage.
  rewrite (build_website_runs P llm now id w raw prompt row
             (fails_at_quiet 0 w Hq) Hrow Hprompt Hllm).
  cbv zeta. unfold fails_at, advance, built_tables. rewrite Hq.
  cbn [nth skipn]. rewrite (store_page_runs _ _ _ _ Hpage).
  destruct (ran_upsert_website now id (extractHtmlDocument raw) (store w)
              (hd_error_nonempty _ _ Hrow)) as (-> & _ & _).
  reflexivity.
Qed.

(** A build that fails leaves the tables as they are when no statement
    of the schedule fails. *)
Lemma build_website_quiet_failure (P : prompts) (llm : oracle)
      (now : timestamp) (id : uuid) (w : world) (raw : string)
      (row : sme_row) :
  faults w = [] ->
  hd_error (sme_of id (store w)) = Some row ->
  answers llm raw ->
  builder_prompt_of P row = None \/ has_nul (extractHtmlDocument raw) = true ->
  exists reqs,
    snd (build_website P llm now id w)
    = {| store := store w; faults := []; sent := sent w ++ reqs |}.
Proof.
  intros Hq Hrow Hllm Hfail. rewrite build_website_result.
  rewrite (fails_at_quiet 0 w Hq), Hrow.
  destruct (builder_prompt_of P row) as [prompt|] eqn:Hprompt.
  - destruct Hfail as [Hfail|Hpage]; [discriminate|]. cbv zeta.
    destruct (Hllm (builder_request P prompt)) as [rest Hreq].
    unfold generated. rewrite Hreq, (fails_at_quiet 1 w Hq).
    unfold store_page, with_text. rewrite Hpage. cbn [snd].
    rewrite (advance_quiet _ _ _ _ Hq). eauto.
  - cbn [snd]. rewrite (advance_quiet _ _ _ _ Hq). eauto.
Qed.

Lemma deploy_quiet_store (now : timestamp) (id : uuid) (w : world)
      (row : sme_row) :
  faults w = [] ->
  hd_error (sme_of id (store w)) = Some row ->
  website_of id (store w) <> [] ->
  deploy now id w =
  (Reply 200 (deploy_body (site_url (deploy_slug (sme_name row)))
                          (deploy_slug (sme_name row)) deploy_note),
   {| store := deployed_tables now (site_url (deploy_slug (sme_name row)))
                 (deploy_slug (sme_name row)) id (store w);
      faults := []; sent := sent w |}).
Proof.
  intros Hq Hrow Hsite. rewrite deploy_result. cbv zeta.
  unfold fails_at, advance. rewrite Hq, Hrow, app_nil_r. cbn [nth skipn].
  destruct (website_of id (store w)); [congruence|reflexivity].
Qed.

Lemma map_no_match {A} (q : A -> bool) (f : A -> A) (l : list A) :
  existsb q l = false -> map (fun a => if q a then f a else a) l = l.
Proof.
  induction l as [|a l IH]; [reflexivity|]. cbn [existsb map].
  intros H. apply orb_false_iff in H as [-> H]. now rewrite IH.
Qed.

Lemma map_update_twice {A} (q : A -> bool) (f g : A -> A) (l : list A) :
  (forall a, q (f a) = q a) ->
  (forall a, g (f a) = g a) ->
  map (fun a => if q a then g a else a)
      (map (fun a => if q a then f a else a) l)
  = map (fun a => if q a then g a else a) l.
Proof.
  intros Hq Hg. rewrite map_map. apply map_ext. intros a.
  destruct (q a) eqn:E; [|now rewrite E].
  now rewrite Hq, E, Hg.
Qed.

Lemma update_smes_twice (id : uuid) (f g : sme_row -> sme_row) (d : database) :
  (forall r, sme_id (f r) = sme_id r) ->
  (forall r, g (f r) = g r) ->
  ran (update_smes id g) (ran (update_smes id f) d) = ran (update_smes id g) d.
Proof.
  intros Hf Hg. unfold ran, update_smes. cbn [smes websites]. f_equal.
  apply (map_update_twice (fun r => sme_id r =? id) f g); [|exact Hg].
  intros r. now rewrite Hf.
Qed.

Lemma update_smes_commutes_upsert (id : uuid) (f : sme_row -> sme_row)
      (now : timestamp) (page : string) (d : database) :
  (forall r, sme_id (f r) = sme_id r) ->
  ran (upsert_website now id page) (ran (update_smes id f) d)
  = ran (update_smes id f) (ran (upsert_website now id page) d).
Proof.
  intros Hf. unfold ran, upsert_website, update_smes. cbn [smes websites].
  destruct (existsb _ (websites d)); [reflexivity|].
  rewrite existsb_map_key.
  - destruct (existsb _ (smes d)); reflexivity.
  - intros r. cbv beta. destruct (sme_id r =? id) eqn:E; [|exact E].
    now rewrite Hf.
Qed.

Lemma upsert_website_twice (now1 now2 : timestamp) (id : uuid)
      (page1 page2 : string) (d : database) :
  ran (upsert_website now2 id page2) (ran (upsert_website now1 id page1) d)
  = ran (upsert_website now2 id page2) d.
Proof.
  unfold ran, upsert_website.
  destruct (existsb (fun r => w_sme_id r =? id) (websites d)) eqn:Ew.
  - cbn [smes websites]. rewrite existsb_map_key, Ew.
    + cbn [smes websites]. f_equal.
      apply (map_update_twice (fun r => w_sme_id r =? id)); reflexivity.
    + intros r. cbv beta. destruct (w_sme_id r =? id) eqn:E; exact E.
  - destruct (existsb (fun r => sme_id r =? id) (smes d)) eqn:Es.
    + cbn [smes websites]. rewrite existsb_app. cbn [existsb fresh_website
        w_sme_id]. rewrite String.eqb_refl, orb_true_r. cbn [smes websites].
      f_equal. rewrite map_app, (map_no_match _ _ _ Ew).
      cbn [map fresh_website w_sme_id]. rewrite String.eqb_refl. reflexivity.
    + rewrite Ew, Es. reflexivity.
Qed.

Lemma built_tables_twice (now1 now2 : timestamp) (id : uuid)
      (page1 page2 : string) (d : database) :
  built_tables now2 id page2 (built_tables now1 id page1 d)
  = built_tables now2 id page2 d.
Proof.
  unfold built_tables, mark_built.
  rewrite (update_smes_commutes_upsert id as_built now2 page2) by reflexivity.
  rewrite upsert_website_twice.
  apply update_smes_twice; reflexivity.
Qed.

(** X17.  A second build that stores its page absorbs the first: when
    the page of the second build holds no U+0000, the tables are those
    that the second build alone would have left, so nothing of the
    earlier page survives.  This holds whether or not the first build
    went through. *)
Theorem rebuild_absorbs_earlier_build
        (P : prompts) (llm1 llm2 : oracle) (now1 now2 : timestamp) (id : uuid)
        (w : world) (raw1 raw2 : string) :
  faults w = [] ->
  sme_of id (store w) <> [] ->
  answers llm1 raw1 ->
  answers llm2 raw2 ->
  has_nul (extractHtmlDocument raw2) = false ->
  store (snd (build_website P llm2 now2 id
                (snd (build_website P llm1 now1 id w))))
  = store (snd (build_website P llm2 now2 id w)).
Proof.
  intros Hq Hsme H1 H2 Hpage2.
  destruct (sme_of id (store w)) as [|row rows] eqn:E; [congruence|].
  assert (Hrow : hd_error (sme_of id (store w)) = Some row)
    by (now rewrite E).
  assert (Hsame : forall reqs,
             store (snd (build_website P llm2 now2 id
                           {| store := store w; faults := [];
                              sent := sent w ++ reqs |}))
             = store (snd (build_website P llm2 now2 id w))).
  { intros reqs. rewrite !build_website_result.
    rewrite (fails_at_quiet 0 w Hq). unfold fails_at at 1.
    cbn [faults store nth]. rewrite Hrow.
    destruct (builder_prompt_of P row) as [prompt|]; [|reflexivity].
    cbv zeta. destruct (generated llm2 _) as [raw|]; [|reflexivity].
    rewrite (fails_at_quiet 1 w Hq), (fails_at_quiet 2 w Hq).
    unfold fails_at. cbn [faults nth].
    destruct (store_page now2 id (extractHtmlDocument raw) (store w))
      as [e|[d1 []]]; [reflexivity|].
    destruct (mark_built id d1) as [e|[d2 []]]; reflexivity. }
  destruct (builder_prompt_of P row) as [prompt|] eqn:Hprompt.
  2:{ destruct (build_website_quiet_failure P llm1 now1 id w raw1 row Hq Hrow
                  H1 (or_introl Hprompt)) as [reqs ->].
      apply Hsame. }
  destruct (has_nul (extractHtmlDocument raw1)) eqn:Hpage1.
  { destruct (build_website_quiet_failure P llm1 now1 id w raw1 row Hq Hrow
                H1 (or_intror Hpage1)) as [reqs ->].
    apply Hsame. }
  rewrite (build_website_quiet_store P llm1 now1 id w raw1 prompt row Hq Hrow
             Hprompt H1 Hpage1).
  rewrite (build_website_quiet_store P llm2 now2 id w raw2 prompt row Hq Hrow
             Hprompt H2 Hpage2).
  cbn [snd].
  destruct (build_website_succeeds P llm1 now1 id w raw1 prompt row Hq Hrow
              Hprompt H1 Hpage1)
    as (d1 & E1 & _ & Hs1).
  rewrite (build_website_quiet_store P llm1 now1 id w raw1 prompt row Hq Hrow
             Hprompt H1 Hpage1) in E1.
  injection E1 as E1.
  set (w1 := {| store := built_tables now1 id (extractHtmlDocument raw1)
                           (store w);
                faults := []; sent := sent w ++ [builder_request P prompt] |}).
  assert (Hrow1 : hd_error (sme_of id (store w1)) = Some (as_built row)).
  { unfold w1. cbn [store]. rewrite E1, Hs1, E. reflexivity. }
  rewrite (build_website_quiet_store P llm2 now2 id w1 raw2 prompt
             (as_built row) eq_refl Hrow1 Hprompt H2 Hpage2).
  cbn [snd store w1]. unfold w1. cbn [store].
  apply built_tables_twice.
Qed.

Lemma rebuild_absorbs_earlier_build_witness :
  store (snd (build_website plain_prompts (canned "<p>two</p>") 4%N "s1"
                (snd (build_website plain_prompts (canned "<p>one</p>") 3%N
                        "s1" (quiet acme_discovered)))))
  = store (snd (build_website plain_prompts (canned "<p>two</p>") 4%N "s1"
                  (quiet acme_discovered))).
Proof.
  apply (rebuild_absorbs_earlier_build plain_prompts (canned "<p>one</p>")
           (canned "<p>two</p>") 3%N 4%N "s1" (quiet acme_discovered)
           "<p>one</p>" "<p>two</p>").
  - reflexivity.
  - discriminate.
  - intros req. now exists [].
  - intros req. now exists [].
  - reflexivity.
Defined.

Lemma deployed_tables_twice (now1 now2 : timestamp) (url slug_ : string)
      (id : uuid) (d : database) :
  deployed_tables now2 url slug_ id (deployed_tables now1 url slug_ id d)
  = deployed_tables now2 url slug_ id d.
Proof.
  unfold deployed_tables, mark_deployed.
  change (ran (set_deployment now2 url slug_ id)
            (ran (update_smes id (as_deployed url))
               (ran (set_deployment now1 url slug_ id) d)))
    with (ran (update_smes id (as_deployed url))
            (ran (set_deployment now2 url slug_ id)
               (ran (set_deployment now1 url slug_ id) d))).
  rewrite update_smes_twice by reflexivity. f_equal.
  unfold ran, set_deployment. cbn [smes websites]. f_equal.
  apply (map_update_twice (fun r => w_sme_id r =? id)); reflexivity.
Qed.

(** X18.  Deploying again gives the same reply and leaves the tables as
    the later deploy alone would have: the URL and the slug do not
    change, only the deployment time moves. *)
Theorem redeploy_absorbs_earlier_deploy
        (now1 now2 : timestamp) (id : uuid) (w : world) :
  faults w = [] ->
  sme_of id (store w) <> [] ->
  website_of id (store w) <> [] ->
  fst (deploy now2 id (snd (deploy now1 id w))) = fst (deploy now2 id w) /\
  store (snd (deploy now2 id (snd (deploy now1 id w))))
  = store (snd (deploy now2 id w)).
Proof.
  intros Hq Hsme Hsite.
  destruct (sme_of id (store w)) as [|row rows] eqn:E; [congruence|].
  assert (Hrow : hd_error (sme_of id (store w)) = Some row)
    by (now rewrite E).
  destruct (deploy_succeeds now1 id w row Hq Hrow Hsite)
    as (d1 & E1 & Hw1 & Hs1).
  cbv zeta in E1, Hw1, Hs1.
  rewrite (deploy_quiet_store now2 id w row Hq Hrow Hsite).
  rewrite (deploy_quiet_store now1 id w row Hq Hrow Hsite) in E1 |- *.
  injection E1 as E1. cbn [fst snd].
  set (url := site_url (deploy_slug (sme_name row))) in *.
  set (slug_ := deploy_slug (sme_name row)) in *.
  set (w1 := {| store := deployed_tables now1 url slug_ id (store w);
                faults := []; sent := sent w |}).
  assert (Hrow1 : hd_error (sme_of id (store w1)) = Some (as_deployed url row)).
  { unfold w1. cbn [store]. rewrite E1, Hs1, E. reflexivity. }
  assert (Hsite1 : website_of id (store w1) <> []).
  { unfold w1. cbn [store]. rewrite E1, Hw1.
    destruct (website_of id (store w)); [congruence|discriminate]. }
  rewrite (deploy_quiet_store now2 id w1 (as_deployed url row) eq_refl
             Hrow1 Hsite1).
  cbn [fst snd store as_deployed sme_name]. fold slug_ url.
  split; [reflexivity|]. unfold w1. cbn [store].
  apply deployed_tables_twice.
Qed.

Lemma redeploy_absorbs_earlier_deploy_witness :
  fst (deploy 9%N "s1" (snd (deploy 8%N "s1" (quiet acme_deployed))))
  = fst (deploy 9%N "s1" (quiet acme_deployed)) /\
  store (snd (deploy 9%N "s1" (snd (deploy 8%N "s1" (quiet acme_deployed)))))
  = store (snd (deploy 9%N "s1" (quiet acme_deployed))).
Proof.
  apply (redeploy_absorbs_earlier_deploy 8%N 9%N "s1" (quiet acme_deployed)).
  - reflexivity.
  - discriminate.
  - discriminate.
Defined.

(** ** Reading back what a build stored *)

Lemma read_handlers_run (id : uuid) (w : world) (site : website_row) :
  faults w = [] ->
  hd_error (website_of id (store w)) = Some site ->
  fst (preview id w) = Reply 200 (text_body (w_html site)) /\
  fst (download id w)
  = Reply 200 (attachment (download_name (sme_of id (store w)) ++ ".html")
                          (w_html site)) /\
  fst (get_website id w)
  = Reply 200 (metadata_body (w_deployed_url site) (w_slug site)
                             (w_built_at site)).
Proof.
  intros Hq Hsite.
  assert (H0 : hd false (faults w) = false) by (now rewrite Hq).
  repeat split.
  - unfold preview, handler. cbv beta delta [bind try_catch ret throw].
    rewrite (pool_query_runs _ _ H0). cbn [select_website].
    fold (website_of id (store w)). now rewrite Hsite.
  - now rewrite (download_runs id w site (fails_at_quiet 0 w Hq)
                   (fails_at_quiet 1 w Hq) Hsite).
  - unfold get_website, handler. cbv beta delta [bind try_catch ret throw].
    rewrite (pool_query_runs _ _ H0). cbn [select_website].
    fold (website_of id (store w)). now rewrite Hsite.
Qed.

Lemma download_name_as_built (rows : list sme_row) :
  download_name (map as_built rows) = download_name rows.
Proof. now destruct rows. Qed.

(** X19.  What a build that goes through stores is what the read
    handlers serve: when the template of the prompt evaluates for the
    row, the model answers with text, the cleaned page holds no U+0000
    and no statement fails, preview sends the cleaned page, download
    sends it as an attachment named after the SME, and the metadata
    shows no deployed URL and the time of this build. *)
Theorem build_then_read_back
        (P : prompts) (llm : oracle) (now : timestamp) (id : uuid) (w : world)
        (row : sme_row) (prompt raw : string) :
  faults w = [] ->
  hd_error (sme_of id (store w)) = Some row ->
  builder_prompt_of P row = Some prompt ->
  answers llm raw ->
  has_nul (extractHtmlDocument raw) = false ->
  let w' := snd (build_website P llm now id w) in
  let page := extractHtmlDocument raw in
  fst (preview id w') = Reply 200 (text_body page) /\
  fst (download id w')
  = Reply 200 (attachment (download_name (sme_of id (store w)) ++ ".html")
                          page) /\
  exists kept_slug,
    fst (get_website id w') = Reply 200 (metadata_body None kept_slug now).
Proof.
  intros Hq Hrow Hprompt Hllm Hpage. cbv zeta.
  destruct (build_website_succeeds P llm now id w raw prompt row Hq Hrow
              Hprompt Hllm Hpage)
    as (d' & E' & Hw & Hs).
  rewrite E'. cbn [snd].
  set (w' := {| store := d'; faults := [];
                sent := sent w ++ [builder_request P prompt] |}).
  assert (Hsite : exists site,
             hd_error (website_of id (store w')) = Some site /\
             w_html site = extractHtmlDocument raw /\
             w_deployed_url site = None /\ w_built_at site = now).
  { unfold w'. cbn [store]. rewrite Hw.
    destruct (website_of id (store w)) as [|s l]; eexists;
      (split; [reflexivity|repeat split]). }
  destruct Hsite as (site & Hsite & Hhtml & Hurl & Hbuilt).
  destruct (read_handlers_run id w' site eq_refl Hsite) as (Hp & Hd & Hg).
  rewrite Hp, Hd, Hg, Hhtml, Hurl, Hbuilt.
  unfold w'. cbn [store]. rewrite Hs, download_name_as_built.
  repeat split. eauto.
Qed.

Lemma build_then_read_back_witness :
  fst (preview "s1"
         (snd (build_website plain_prompts (canned (fenced "html" "<html>x</html>"))
                 3%N "s1" (quiet acme_discovered))))
  = Reply 200 (text_body "<html>x</html>").
Proof.
  destruct (build_then_read_back plain_prompts
              (canned (fenced "html" "<html>x</html>")) 3%N "s1"
              (quiet acme_discovered)
              {| sme_id := "s1"; country_id := "c1";
                 sme_name := "Acme & Co."; profile := [];
                 sme_status := discovered; sme_deployed_url := None |}
              "build Acme & Co." (fenced "html" "<html>x</html>"))
    as (H & _).
  - reflexivity.
  - reflexivity.
  - reflexivity.
  - intros req. now exists [].
  - reflexivity.
  - exact H.
Defined.

(* ================================================================== *)
(** * The marketing stage and the deletion of a country *)
(* ================================================================== *)

Lemma generate_email_result (E : mail_prompts) (llm : oracle) (now : timestamp)
      (id : uuid) (p : portal) :
  generate_email E llm now id p =
  if stalls 0 p then (unanswered "storage failure", settle 1 [] (tables p) p)
  else
    match hd_error (sme_of id (base (tables p))) with
    | None => (sent_error 404 "SME not found" None, settle 1 [] (tables p) p)
    | Some row =>
        if stalls 1 p
        then (unanswered "storage failure", settle 2 [] (tables p) p)
        else
          match mail_prompt_in E row (base (tables p)) with
          | None => (unanswered "TypeError", settle 2 [] (tables p) p)
          | Some prompt =>
              let failed e :=
                sent_error 500 "Marketing agent failed" (Some e) in
              let req := mail_request E prompt in
              match generated llm req with
              | None => (failed (generation_error llm req),
                         settle 2 [req] (tables p) p)
              | Some raw =>
                  match JSON_parse (clean_email raw) with
                  | None => (failed "SyntaxError", settle 2 [req] (tables p) p)
                  | Some email =>
                      match property "subject" email, property "body" email
                      with
                      | inr subject, inr body =>
                          if stalls 2 p
                          then (failed "storage failure",
                                settle 3 [req] (tables p) p)
                          else
                            match upsert_email now id subject body (tables p)
                            with
                            | inl e => (failed e, settle 3 [req] (tables p) p)
                            | inr (a1, _) =>
                                if stalls 3 p
                                then (failed "storage failure",
                                      settle 4 [req] a1 p)
                                else (sent_json 200 email,
                                      settle 4 [req]
                                        (with_base a1
                                           (ran (mark_email_ready id)
                                                (base a1)))
                                        p)
                            end
                      | _, _ =>
                          (failed "TypeError", settle 2 [req] (tables p) p)
                      end
                  end
              end
          end
    end.
Proof.
  unfold stalls, settle.
  rewrite <- (hd_tl_nth false (schedule p) 0), <- (hd_tl_nth false (schedule p) 1),
    <- (hd_tl_nth false (schedule p) 2), <- (hd_tl_nth false (schedule p) 3).
  rewrite !skipn_tl, !app_nil_r. cbn [skipn].
  destruct p as [[d es cs] sch out]. cbn [tables schedule outbox base].
  unfold generate_email, portal_handler.
  cbv beta delta [pbind ptry_catch on_world callClaude messages_create ret throw
                  bind pret pthrow lift_p].
  unfold pool_query at 1.
  cbn [world_of tables schedule outbox base store faults sent].
  destruct (hd false sch); [reflexivity|].
  cbn [select_sme store faults sent]. fold (sme_of id d).
  destruct (hd_error (sme_of id d)) as [row|] eqn:Hrow; [|reflexivity].
  pose proof (sme_of_key _ _ _ Hrow) as Hid.
  unfold with_world at 1, pool_query at 1, world_of at 1.
  cbn [tables schedule outbox base store faults sent emails countries].
  destruct (hd false (tl sch)); [reflexivity|].
  cbn [select_website]. cbv zeta. unfold mail_prompt_in, website_of.
  cbn [with_world world_of tables schedule outbox base store faults sent
       emails countries].
  destruct (mail_prompt E _ _ _) as [prompt|]; [|reflexivity].
  unfold mail_request, generated, generation_error, user_says.
  cbn [with_world world_of tables schedule outbox base store faults sent
       emails countries].
  destruct (llm _) as [[|[raw| | |] rest]|]; try reflexivity.
  cbn beta iota.
  destruct (JSON_parse (clean_email raw)) as [email|]; [|reflexivity].
  destruct (property "subject" email) as [e1|subject] eqn:Hs.
  { destruct email; try discriminate. injection Hs as <-. reflexivity. }
  destruct (property "body" email) as [e2|body] eqn:Hb.
  { destruct email; try discriminate. }
  cbn beta iota. rewrite Hid.
  unfold archive_query.
  cbn [with_world world_of tables schedule outbox base store faults sent
       emails countries].
  destruct (hd false (tl (tl sch))); [reflexivity|].
  destruct (upsert_email now id subject body _) as [e|[[d1 es1 cs1] []]];
    [reflexivity|].
  unfold pool_query, world_of, with_world, with_base, ran, mark_email_ready,
    update_smes.
  cbn [tables schedule outbox base store faults sent emails countries].
  destruct (hd false (tl (tl (tl sch)))); reflexivity.
Qed.

Lemma upsert_email_keeps (now : timestamp) (id : uuid)
      (subject body : option json) (a a' : archive) :
  upsert_email now id subject body a = inr (a', tt) ->
  base a' = base a /\ countries a' = countries a.
Proof.
  unfold upsert_email.
  destruct (refused subject || refused body); [discriminate|].
  destruct (bound subject), (bound body); try discriminate.
  destruct (existsb _ (emails a)); [intros [= <-]; now split|].
  destruct (existsb _ (smes (base a))); [intros [= <-]; now split|discriminate].
Qed.

Lemma email_key_resent (now : timestamp) (s b : text_value) (id : uuid)
      (r : email_row) :
  (e_sme_id (resent now s b r) =? id) = (e_sme_id r =? id).
Proof. reflexivity. Qed.

Lemma upsert_email_other (now : timestamp) (id id' : uuid)
      (subject body : option json) (a a' : archive) :
  upsert_email now id subject body a = inr (a', tt) ->
  id' <> id -> email_of id' a' = email_of id' a.
Proof.
  unfold upsert_email, email_of. intros H Hne.
  destruct (refused subject || refused body); [discriminate|].
  destruct (bound subject) as [s|], (bound body) as [b|]; try discriminate.
  destruct (existsb _ (emails a)).
  - injection H as <-. cbn [emails].
    apply (filter_map_other (fun r => e_sme_id r =? id')
                            (fun r => e_sme_id r =? id)).
    + intros r. now apply other_key.
    + reflexivity.
  - destruct (existsb _ (smes (base a))); [|discriminate].
    injection H as <-. cbn [emails]. rewrite filter_app. cbn [filter e_sme_id].
    assert (E : (id =? id') = false).
    { apply String.eqb_neq. congruence. }
    rewrite E. apply app_nil_r.
Qed.

Lemma email_of_missing (id : uuid) (a : archive) :
  existsb (fun r => e_sme_id r =? id) (emails a) = false -> email_of id a = [].
Proof.
  unfold email_of. rewrite existsb_filter_length.
  destruct (filter _ (emails a)); [reflexivity|discriminate].
Qed.

Lemma email_of_present (id : uuid) (a : archive) :
  existsb (fun r => e_sme_id r =? id) (emails a) = true -> email_of id a <> [].
Proof.
  unfold email_of. rewrite existsb_filter_length.
  destruct (filter _ (emails a)); [discriminate|congruence].
Qed.

Lemma kept_text_of (v : json) (units : list N) :
  kept v = Some units -> sends_nul v = false /\ text_of v = verbatim units.
Proof.
  destruct v as [| | |us| |]; try discriminate. cbn [kept sends_nul text_of].
  destruct (holds_nul us); [discriminate|].
  destruct (paired us); [|discriminate].
  intros [= ->]. now split.
Qed.

Lemma upsert_email_rows (now : timestamp) (id : uuid)
      (subject body : option json) (s b : json) (a : archive) :
  bound subject = Some s -> bound body = Some b ->
  sends_nul s = false -> sends_nul b = false ->
  existsb (fun r => sme_id r =? id) (smes (base a)) = true ->
  exists a',
    upsert_email now id subject body a = inr (a', tt) /\
    email_of id a' =
      match email_of id a with
      | [] => [{| e_sme_id := id; e_subject := text_of s;
                  e_body := text_of b; e_created_at := now |}]
      | rows => map (resent now (text_of s) (text_of b)) rows
      end.
Proof.
  intros Hs Hb Hns Hnb Hsme. unfold upsert_email, refused.
  rewrite Hs, Hb, Hns, Hnb, Hsme. cbn [orb].
  destruct (existsb _ (emails a)) eqn:Hex.
  - eexists. split; [reflexivity|].
    pose proof (email_of_present _ _ Hex) as Hne.
    unfold email_of in *. cbn [emails].
    rewrite (filter_map_update (fun r => e_sme_id r =? id)) by reflexivity.
    destruct (filter _ (emails a)); [congruence|reflexivity].
  - eexists. split; [reflexivity|].
    pose proof (email_of_missing _ _ Hex) as Hnone.
    unfold email_of in *. cbn [emails]. rewrite filter_app, Hnone.
    cbn [filter e_sme_id app]. now rewrite String.eqb_refl.
Qed.

Lemma upsert_email_unique (now : timestamp) (id : uuid)
      (subject body : option json) (a a' : archive) :
  upsert_email now id subject body a = inr (a', tt) ->
  unique_emails a -> unique_emails a'.
Proof.
  intros H Hu id'. destruct (String.eqb_spec id' id) as [->|Hne].
  - specialize (Hu id). revert H. unfold upsert_email.
    destruct (refused subject || refused body); [discriminate|].
    destruct (bound subject) as [s|], (bound body) as [b|]; try discriminate.
    destruct (existsb _ (emails a)) eqn:Hex.
    + intros [= <-]. unfold email_of in *. cbn [emails].
      rewrite (filter_map_update (fun r => e_sme_id r =? id)) by reflexivity.
      now rewrite length_map.
    + destruct (existsb _ (smes (base a))); [|discriminate].
      intros [= <-]. pose proof (email_of_missing _ _ Hex) as Hnone.
      unfold email_of in *. cbn [emails]. rewrite filter_app, Hnone.
      cbn [filter e_sme_id app]. rewrite String.eqb_refl. cbn. lia.
  - rewrite (upsert_email_other _ _ _ _ _ _ _ H Hne). apply Hu.
Qed.

Lemma upsert_email_references (now : timestamp) (id : uuid)
      (subject body : option json) (a a' : archive) :
  upsert_email now id subject body a = inr (a', tt) ->
  emails_reference_smes a -> emails_reference_smes a'.
Proof.
  unfold upsert_email, emails_reference_smes.
  destruct (refused subject || refused body); [discriminate|].
  destruct (bound subject) as [s|], (bound body) as [b|]; try discriminate.
  destruct (existsb _ (emails a)).
  - intros [= <-] Hr e. cbn [emails base]. intros Hin.
    apply in_map_iff in Hin as (r & <- & Hin).
    destruct (e_sme_id r =? id); cbn [resent e_sme_id]; now apply Hr.
  - destruct (existsb _ (smes (base a))) eqn:Hsme; [|discriminate].
    intros [= <-] Hr e. cbn [emails base]. intros Hin.
    apply in_app_iff in Hin as [Hin|[<-|[]]]; [now apply Hr|exact Hsme].
Qed.

Lemma mark_email_ready_references (id : uuid) (a : archive) :
  emails_reference_smes a ->
  emails_reference_smes (with_base a (ran (mark_email_ready id) (base a))).
Proof.
  unfold emails_reference_smes, with_base, ran, mark_email_ready, update_smes.
  cbn [emails base smes]. intros Hr e Hin. specialize (Hr e Hin).
  rewrite <- Hr. clear Hr Hin.
  induction (smes (base a)) as [|r l IH]; [reflexivity|].
  cbn [map existsb]. rewrite IH. f_equal.
  now destruct (sme_id r =? id).
Qed.

(** The tables that the marketing stage leaves: those it found, those
    after its upsert, or those after both of its writes. *)
Lemma generate_email_tables (E : mail_prompts) (llm : oracle)
      (now : timestamp) (id : uuid) (p : portal) :
  let a := tables (snd (generate_email E llm now id p)) in
  a = tables p \/
  exists subject body a1,
    upsert_email now id subject body (tables p) = inr (a1, tt) /\
    (a = a1 \/ a = with_base a1 (ran (mark_email_ready id) (base a1))).
Proof.
  cbv zeta. rewrite generate_email_result.
  destruct (stalls 0 p); [now left|].
  destruct (hd_error _) as [row|]; [|now left].
  destruct (stalls 1 p); [now left|].
  destruct (mail_prompt_in _ _ _) as [prompt|]; [|now left]. cbv zeta.
  destruct (generated _ _) as [raw|]; [|now left].
  destruct (JSON_parse _) as [email|]; [|now left].
  destruct (property "subject" email) as [|subject]; [now left|].
  destruct (property "body" email) as [|body]; [now left|].
  destruct (stalls 2 p); [now left|].
  destruct (upsert_email now id subject body (tables p)) as [e|[a1 []]] eqn:Hu;
    [now left|].
  right. exists subject, body, a1. split; [exact Hu|].
  destruct (stalls 3 p); [now left|now right].
Qed.

Lemma generate_email_preserves (Q : archive -> Prop)
      (E : mail_prompts) (llm : oracle) (now : timestamp) (id : uuid)
      (p : portal) :
  (forall subject body a a1,
      upsert_email now id subject body a = inr (a1, tt) -> Q a -> Q a1) ->
  (forall a, Q a -> Q (with_base a (ran (mark_email_ready id) (base a)))) ->
  Q (tables p) ->
  Q (tables (snd (generate_email E llm now id p))).
Proof.
  intros Hup Hmark Hq.
  destruct (generate_email_tables E llm now id p)
    as [->|(subject & body & a1 & Hu & [->| ->])].
  - exact Hq.
  - exact (Hup _ _ _ _ Hu Hq).
  - apply Hmark. exact (Hup _ _ _ _ Hu Hq).
Qed.

Lemma stalls_calm (k : nat) (p : portal) : schedule p = [] -> stalls k p = false.
Proof. unfold stalls. intros ->. now destruct k. Qed.

Lemma settle_calm (k : nat) (reqs : list request) (a : archive) (p : portal) :
  schedule p = [] ->
  settle k reqs a p
  = {| tables := a; schedule := []; outbox := outbox p ++ reqs |}.
Proof. unfold settle. intros ->. now destruct k. Qed.

Lemma get_email_result (id : uuid) (p : portal) :
  get_email id p =
  if stalls 0 p
  then (sent_error 500 "DB error" (Some "storage failure"),
        settle 1 [] (tables p) p)
  else
    (match hd_error (email_of id (tables p)) with
     | None => sent_error 404 "No email generated yet" None
     | Some r => sent_email (e_subject r) (e_body r)
     end, settle 1 [] (tables p) p).
Proof.
  unfold stalls, settle, get_email, portal_handler.
  rewrite <- (hd_tl_nth false (schedule p) 0), app_nil_r. cbn [skipn].
  cbv beta delta [pbind ptry_catch pret archive_query].
  destruct (hd false (schedule p)); [reflexivity|].
  cbn [select_email]. fold (email_of id (tables p)).
  now destruct (hd_error (email_of id (tables p))).
Qed.

Lemma email_in_usable (llm : oracle) (req : request) (email s b : json) :
  email_in llm req = Some (email, s, b) ->
  exists raw subject body,
    generated llm req = Some raw /\
    JSON_parse (clean_email raw) = Some email /\
    property "subject" email = inr subject /\
    property "body" email = inr body /\
    bound subject = Some s /\ bound body = Some b.
Proof.
  unfold email_in, usable_email.
  destruct (generated llm req) as [raw|]; [|discriminate].
  destruct (JSON_parse _) as [v|] eqn:Hv; [|discriminate].
  destruct (property "subject" v) as [|subject] eqn:Hsub; [discriminate|].
  destruct (property "body" v) as [|body] eqn:Hbody; [discriminate|].
  destruct (bound subject) as [s'|] eqn:Hs; [|discriminate].
  destruct (bound body) as [b'|] eqn:Hb; [|discriminate].
  intros [= -> -> ->]. exists raw, subject, body. repeat split; assumption.
Qed.

Lemma sme_of_email_ready (id : uuid) (d : database) :
  sme_of id (ran (mark_email_ready id) d) = map as_email_ready (sme_of id d).
Proof.
  unfold ran, mark_email_ready, update_smes, sme_of. cbn [smes].
  now rewrite (filter_map_update (fun r => sme_id r =? id)).
Qed.

(** X20.  A reply that holds an email is stored and served.  When the
    template of the prompt evaluates for the row, the reply parses to a
    value whose subject and body are strings without U+0000 and without
    unpaired surrogate, no SME has two emails and no statement fails,
    generate-email answers the parsed value, leaves one email row for the
    SME with the subject and body of this reply as they are and the time
    of this request (replacing an earlier email), sets the status to
    email_ready, and the email endpoint then sends that subject and
    body. *)
Theorem generate_email_then_read_back
        (E : mail_prompts) (llm : oracle) (now : timestamp) (id : uuid)
        (p : portal) (row : sme_row) (prompt : string) (email s b : json)
        (subject_units body_units : list N) :
  schedule p = [] ->
  unique_emails (tables p) ->
  hd_error (sme_of id (base (tables p))) = Some row ->
  mail_prompt_in E row (base (tables p)) = Some prompt ->
  email_in llm (mail_request E prompt) = Some (email, s, b) ->
  kept s = Some subject_units -> kept b = Some body_units ->
  let p' := snd (generate_email E llm now id p) in
  fst (generate_email E llm now id p) = sent_json 200 email /\
  email_of id (tables p')
  = [{| e_sme_id := id; e_subject := verbatim subject_units;
        e_body := verbatim body_units; e_created_at := now |}] /\
  map sme_status (sme_of id (base (tables p')))
  = map (fun _ => email_ready) (sme_of id (base (tables p))) /\
  fst (get_email id p')
  = sent_email (verbatim subject_units) (verbatim body_units).
Proof.
  intros Hq Hu Hrow Hprompt Hmail Hks Hkb. cbv zeta.
  destruct (email_in_usable _ _ _ _ _ Hmail)
    as (raw & subject & body & Hgen & Hparse & Hsub & Hbody & Hs & Hb).
  destruct (kept_text_of _ _ Hks) as [Hns Hts].
  destruct (kept_text_of _ _ Hkb) as [Hnb Htb].
  assert (Hsme : existsb (fun r => sme_id r =? id) (smes (base (tables p)))
                 = true).
  { apply sme_of_exists. now apply hd_error_nonempty in Hrow. }
  destruct (upsert_email_rows now id subject body s b (tables p) Hs Hb
              Hns Hnb Hsme)
    as (a1 & Hup & Hrows).
  rewrite Hts, Htb in Hrows.
  destruct (upsert_email_keeps _ _ _ _ _ _ Hup) as [Hbase _].
  rewrite generate_email_result, !(stalls_calm _ _ Hq), Hrow, Hprompt.
  cbv zeta.
  rewrite Hgen, Hparse, Hsub, Hbody, Hup. cbn [fst snd].
  rewrite get_email_result, settle_calm by exact Hq.
  unfold stalls. cbn [schedule nth tables fst].
  assert (Hone : email_of id a1
                 = [{| e_sme_id := id; e_subject := verbatim subject_units;
                       e_body := verbatim body_units;
                       e_created_at := now |}]).
  { rewrite Hrows. specialize (Hu id).
    destruct (email_of id (tables p)) as [|r [|r' l]] eqn:Hel;
      [reflexivity| |cbn in Hu; lia].
    assert (Hin : In r (email_of id (tables p))) by (rewrite Hel; now left).
    apply filter_In in Hin as [_ Hk]. apply String.eqb_eq in Hk.
    cbn [map]. unfold resent. now rewrite Hk. }
  assert (Hsame : email_of id (with_base a1 (ran (mark_email_ready id) (base a1)))
                  = email_of id a1) by reflexivity.
  rewrite Hsame, Hone. cbn [hd_error e_subject e_body with_base base].
  rewrite sme_of_email_ready, Hbase, map_map.
  repeat split.
Qed.

Lemma two_countries_unique_emails : unique_emails two_countries.
Proof.
  intros id. unfold email_of.
  cbn [two_countries emails filter e_sme_id].
  destruct ("s1" =? id) eqn:E1, ("s2" =? id) eqn:E2; cbn; try lia.
  apply String.eqb_eq in E1, E2. congruence.
Defined.

Lemma generate_email_then_read_back_witness :
  email_of "s1"
    (tables (snd (generate_email plain_mail
                    (canned (fenced "json" smile_reply)) 5%N "s1"
                    (calm two_countries))))
  = [{| e_sme_id := "s1"; e_subject := verbatim [55357%N; 56832%N];
        e_body := verbatim [72%N; 101%N; 108%N; 108%N; 111%N];
        e_created_at := 5%N |}] /\
  fst (get_email "s1"
         (snd (generate_email plain_mail
                 (canned (fenced "json" smile_reply)) 5%N "s1"
                 (calm two_countries))))
  = sent_email (verbatim [55357%N; 56832%N])
               (verbatim [72%N; 101%N; 108%N; 108%N; 111%N]).
Proof.
  destruct (generate_email_then_read_back
              plain_mail (canned (fenced "json" smile_reply)) 5%N "s1"
              (calm two_countries) acme
              "write to Acme & Co. about https://acme-co.netlify.app"
              (JObject [(units_of "subject", JString [55357%N; 56832%N]);
                        (units_of "body",
                         JString [72%N; 101%N; 108%N; 108%N; 111%N])])
              (JString [55357%N; 56832%N])
              (JString [72%N; 101%N; 108%N; 108%N; 111%N])
              [55357%N; 56832%N] [72%N; 101%N; 108%N; 108%N; 111%N]
              eq_refl two_countries_unique_emails eq_refl eq_refl eq_refl
              eq_refl eq_refl)
    as (_ & Hrows & _ & Hget).
  split; [exact Hrows|exact Hget].
Defined.

(** X21.  A reply without a storable email writes nothing: when the two
    reads succeed and, for the prompt of the row, the model gives no
    text, text that is not JSON, [null], or a value whose subject or body
    is missing or null, the stage answers 500 "Marketing agent failed"
    and the four tables are as before, whatever the rest of the schedule.
    When the template of the prompt throws for the row, no reply is sent
    and the tables are as before as well. *)
Theorem generate_email_unusable_reply_writes_nothing
        (E : mail_prompts) (llm : oracle) (now : timestamp) (id : uuid)
        (p : portal) (row : sme_row) :
  stalls 0 p = false -> stalls 1 p = false ->
  hd_error (sme_of id (base (tables p))) = Some row ->
  (forall prompt, mail_prompt_in E row (base (tables p)) = Some prompt ->
                  email_in llm (mail_request E prompt) = None) ->
  tables (snd (generate_email E llm now id p)) = tables p /\
  match mail_prompt_in E row (base (tables p)) with
  | Some _ =>
      exists detail,
        fst (generate_email E llm now id p)
        = sent_error 500 "Marketing agent failed" (Some detail)
  | None => fst (generate_email E llm now id p) = unanswered "TypeError"
  end.
Proof.
  intros H0 H1 Hrow Hmail.
  rewrite generate_email_result, H0, H1, Hrow.
  destruct (mail_prompt_in E row (base (tables p))) as [prompt|];
    [|now split].
  specialize (Hmail prompt eq_refl). cbv zeta.
  unfold email_in, usable_email in Hmail.
  destruct (generated _ _) as [raw|]; [|split; [|eexists]; reflexivity].
  destruct (JSON_parse _) as [email|]; [|split; [|eexists]; reflexivity].
  destruct (property "subject" email) as [|subject];
    [split; [|eexists]; reflexivity|].
  destruct (property "body" email) as [|body];
    [split; [|eexists]; reflexivity|].
  destruct (stalls 2 p); [split; [|eexists]; reflexivity|].
  unfold upsert_email.
  destruct (refused subject || refused body);
    [split; [|eexists]; reflexivity|].
  destruct (bound subject), (bound body); try discriminate;
    split; [|eexists| |eexists| |eexists]; reflexivity.
Qed.

Lemma generate_email_unusable_reply_writes_nothing_witness :
  (exists detail,
      fst (generate_email plain_mail (canned "{}") 5%N "s1"
             (calm two_countries))
      = sent_error 500 "Marketing agent failed" (Some detail)) /\
  tables (snd (generate_email plain_mail (canned "{}") 5%N "s1"
                 (calm two_countries)))
  = tables (calm two_countries).
Proof.
  destruct (generate_email_unusable_reply_writes_nothing
              plain_mail (canned "{}") 5%N "s1" (calm two_countries) acme
              eq_refl eq_refl eq_refl) as [Ht Hr].
  - intros prompt _. reflexivity.
  - split; [exact Hr|exact Ht].
Defined.

Lemma with_base_email_of (id : uuid) (a : archive) (d : database) :
  email_of id (with_base a d) = email_of id a.
Proof. reflexivity. Qed.

Lemma mark_email_ready_rows (id : uuid) (d : database) :
  Forall2 same_but_status (smes d) (smes (ran (mark_email_ready id) d)).
Proof.
  unfold ran, mark_email_ready, update_smes. cbn [smes].
  induction (smes d) as [|r l IH]; constructor; [|exact IH].
  destruct (sme_id r =? id); repeat split.
Qed.

Lemma same_but_status_refl (l : list sme_row) : Forall2 same_but_status l l.
Proof. induction l; constructor; [repeat split|assumption]. Qed.

(** X22.  generate-email touches the status of its SME and the email of
    its SME, nothing else: whatever the model answers and whichever
    statements fail, the websites and the countries are as before, every
    SME row keeps its key, country, name, profile and deployed URL, and
    the SME rows and emails of any other SME are as before. *)
Theorem generate_email_leaves_the_rest
        (E : mail_prompts) (llm : oracle) (now : timestamp) (id other : uuid)
        (p : portal) :
  other <> id ->
  let a' := tables (snd (generate_email E llm now id p)) in
  websites (base a') = websites (base (tables p)) /\
  countries a' = countries (tables p) /\
  Forall2 same_but_status (smes (base (tables p))) (smes (base a')) /\
  sme_of other (base a') = sme_of other (base (tables p)) /\
  email_of other a' = email_of other (tables p).
Proof.
  intros Hne. cbv zeta.
  destruct (generate_email_tables E llm now id p)
    as [->|(subject & body & a1 & Hu & [->| ->])].
  - repeat split. apply same_but_status_refl.
  - destruct (upsert_email_keeps _ _ _ _ _ _ Hu) as [-> ->].
    repeat split; [apply same_but_status_refl|].
    exact (upsert_email_other _ _ _ _ _ _ _ Hu Hne).
  - destruct (upsert_email_keeps _ _ _ _ _ _ Hu) as [Hb Hc].
    rewrite with_base_email_of. cbn [with_base base countries].
    rewrite Hb, Hc. repeat split.
    + apply mark_email_ready_rows.
    + apply update_smes_other; [reflexivity|exact Hne].
    + exact (upsert_email_other _ _ _ _ _ _ _ Hu Hne).
Qed.

Lemma generate_email_leaves_the_rest_witness :
  websites (base (tables (snd (generate_email plain_mail (canned hello_reply)
                                 5%N "s1" (calm two_countries)))))
  = websites (base (tables (calm two_countries))) /\
  email_of "s2" (tables (snd (generate_email plain_mail (canned hello_reply)
                                5%N "s1" (calm two_countries))))
  = email_of "s2" (tables (calm two_countries)).
Proof.
  assert (Hne : "s2" <> "s1") by discriminate.
  destruct (generate_email_leaves_the_rest
              plain_mail (canned hello_reply) 5%N "s1" "s2"
              (calm two_countries) Hne) as (Hw & _ & _ & _ & He).
  split; [exact Hw|exact He].
Defined.

(** X23.  generate-email keeps the constraints of [emails]: if no SME had
    two emails and every email referred to an existing SME before, the
    same holds afterwards, whatever the model answers and whichever
    statements fail. *)
Theorem generate_email_keeps_constraints
        (E : mail_prompts) (llm : oracle) (now : timestamp) (id : uuid)
        (p : portal) :
  unique_emails (tables p) -> emails_reference_smes (tables p) ->
  unique_emails (tables (snd (generate_email E llm now id p))) /\
  emails_reference_smes (tables (snd (generate_email E llm now id p))).
Proof.
  intros Hu Hr.
  apply (generate_email_preserves
           (fun a => unique_emails a /\ emails_reference_smes a));
    [| |now split].
  - intros subject body a a1 Hup [Hu' Hr']. split.
    + exact (upsert_email_unique _ _ _ _ _ _ Hup Hu').
    + exact (upsert_email_references _ _ _ _ _ _ Hup Hr').
  - intros a [Hu' Hr']. split.
    + exact Hu'.
    + now apply mark_email_ready_references.
Qed.

Lemma two_countries_emails_reference : emails_reference_smes two_countries.
Proof. intros e [<-|[<-|[]]]; reflexivity. Defined.

Lemma generate_email_keeps_constraints_witness :
  unique_emails (tables (snd (generate_email plain_mail (canned hello_reply)
                                5%N "s1" (calm two_countries)))) /\
  emails_reference_smes
    (tables (snd (generate_email plain_mail (canned hello_reply)
                    5%N "s1" (calm two_countries)))).
Proof.
  exact (generate_email_keeps_constraints
           plain_mail (canned hello_reply) 5%N "s1" (calm two_countries)
           two_countries_unique_emails two_countries_emails_reference).
Defined.

Lemma generate_email_request (E : mail_prompts) (llm : oracle)
      (now : timestamp) (id : uuid) (p : portal) (row : sme_row)
      (prompt : string) :
  stalls 0 p = false -> stalls 1 p = false ->
  hd_error (sme_of id (base (tables p))) = Some row ->
  mail_prompt_in E row (base (tables p)) = Some prompt ->
  outbox (snd (generate_email E llm now id p))
  = (outbox p ++ [mail_request E prompt])%list.
Proof.
  intros H0 H1 Hrow Hprompt.
  rewrite generate_email_result, H0, H1, Hrow, Hprompt. cbv zeta.
  destruct (generated _ _) as [raw|]; [|reflexivity].
  destruct (JSON_parse _) as [email|]; [|reflexivity].
  destruct (property "subject" email) as [|subject]; [reflexivity|].
  destruct (property "body" email) as [|body]; [reflexivity|].
  destruct (stalls 2 p); [reflexivity|].
  destruct (upsert_email _ _ _ _ _) as [e|[a1 []]]; [reflexivity|].
  destruct (stalls 3 p); reflexivity.
Qed.

Lemma link_for_deployed (now : timestamp) (slug_ : string)
      (rows : list website_row) :
  rows <> [] ->
  link_for (map (deployed_site now (site_url slug_) slug_) rows)
  = site_url slug_.
Proof. destruct rows; [congruence|reflexivity]. Qed.

(** X24.  The email prompt carries the current deployment: with no
    statement failing, after a deploy the marketing stage asks the model
    with the prompt for the deployed URL of the site, and after a rebuild
    that follows the deploy it asks with the prompt for the placeholder
    [WEBSITE_LINK] again.  The rebuild is one that goes through (its
    prompt is built, the model answers with text and the page holds no
    U+0000), and the templates of the two email prompts evaluate. *)
Theorem email_links_current_deployment
        (E : mail_prompts) (P : prompts) (llm builder : oracle)
        (now : timestamp) (id : uuid) (p : portal) (row : sme_row)
        (prompt raw with_url with_placeholder : string) :
  schedule p = [] ->
  hd_error (sme_of id (base (tables p))) = Some row ->
  website_of id (base (tables p)) <> [] ->
  builder_prompt_of P row = Some prompt ->
  answers builder raw ->
  has_nul (extractHtmlDocument raw) = false ->
  mail_prompt E (sme_name row) (profile row)
              (site_url (deploy_slug (sme_name row))) = Some with_url ->
  mail_prompt E (sme_name row) (profile row) link_placeholder
  = Some with_placeholder ->
  let shipped := stage (deploy now id) p in
  let redone := stage (build_website P builder now id) shipped in
  outbox (snd (generate_email E llm now id shipped))
  = (outbox shipped ++ [mail_request E with_url])%list /\
  outbox (snd (generate_email E llm now id redone))
  = (outbox redone ++ [mail_request E with_placeholder])%list.
Proof.
  intros Hq Hrow Hsite Hprompt Hraw Hpage Hurl Hplace. cbv zeta.
  pose proof (sme_of_key _ _ _ Hrow) as Hid.
  destruct (deploy_succeeds now id (world_of p) row Hq Hrow Hsite)
    as (d1 & Hdep & Hw1 & Hs1). cbv zeta in Hdep, Hw1, Hs1.
  set (url := site_url (deploy_slug (sme_name row))) in *.
  assert (Hrow1 : hd_error (sme_of id d1) = Some (as_deployed url row)).
  { rewrite Hs1. now apply hd_error_map. }
  unfold stage. rewrite !Hdep. cbn [snd].
  set (p1 := with_world p _).
  assert (Hq1 : schedule p1 = []) by reflexivity.
  split.
  - apply (generate_email_request E llm now id p1 (as_deployed url row));
      [now apply stalls_calm|now apply stalls_calm|exact Hrow1|].
    unfold mail_prompt_in.
    cbn [p1 with_world tables base store sme_id sme_name profile as_deployed].
    rewrite Hid, Hw1. unfold url. now rewrite link_for_deployed.
  - destruct (build_website_succeeds P builder now id (world_of p1) raw prompt
                (as_deployed url row) Hq1 Hrow1 Hprompt Hraw Hpage)
      as (d2 & Hbuild & Hw2 & Hs2).
    rewrite Hbuild. cbn [snd].
    set (p2 := with_world p1 _).
    assert (Hrow2 : hd_error (sme_of id (base (tables p2)))
                    = Some (as_built (as_deployed url row))).
    { cbn [p2 with_world tables base store]. rewrite Hs2.
      now apply hd_error_map. }
    apply (generate_email_request E llm now id p2 _ _
             (stalls_calm 0 p2 eq_refl) (stalls_calm 1 p2 eq_refl) Hrow2).
    unfold mail_prompt_in.
    cbn [p2 with_world tables base store sme_id sme_name profile as_built
         as_deployed].
    rewrite Hid, Hw2. cbn [p1 with_world world_of tables base store].
    destruct (website_of id d1); exact Hplace.
Qed.

Lemma email_links_current_deployment_witness :
  outbox (snd (generate_email plain_mail (canned hello_reply) 3%N "s1"
                 (stage (deploy 3%N "s1") (calm acme_archive))))
  = (outbox (stage (deploy 3%N "s1") (calm acme_archive))
     ++ [mail_request plain_mail
           ("write to Acme & Co. about " ++ acme_url)])%list /\
  outbox (snd (generate_email plain_mail (canned hello_reply) 3%N "s1"
                 (stage (build_website plain_prompts (canned "<p>x</p>")
                           3%N "s1")
                    (stage (deploy 3%N "s1") (calm acme_archive)))))
  = (outbox (stage (build_website plain_prompts (canned "<p>x</p>") 3%N "s1")
               (stage (deploy 3%N "s1") (calm acme_archive)))
     ++ [mail_request plain_mail
           ("write to Acme & Co. about " ++ link_placeholder)])%list.
Proof.
  assert (Hsite : website_of "s1" (base (tables (calm acme_archive))) <> [])
    by discriminate.
  assert (Hraw : answers (canned "<p>x</p>") "<p>x</p>")
    by (intros req; now exists []).
  exact (email_links_current_deployment
           plain_mail plain_prompts (canned hello_reply) (canned "<p>x</p>")
           3%N "s1" (calm acme_archive) acme "build Acme & Co." "<p>x</p>"
           ("write to Acme & Co. about " ++ acme_url)
           ("write to Acme & Co. about " ++ link_placeholder)
           eq_refl eq_refl Hsite eq_refl Hraw eq_refl eq_refl eq_refl).
Defined.

(** The archive after a country is deleted, with what the cascade
    removes. *)
Lemma delete_country_handler_result (id : uuid) (p : portal) :
  delete_country_handler id p =
  if stalls 0 p
  then (sent_error 500 "DB error" (Some "storage failure"),
        settle 1 [] (tables p) p)
  else (sent_ok, settle 1 [] (swept id (tables p)) p).
Proof.
  unfold stalls, settle, delete_country_handler, portal_handler, swept.
  rewrite <- (hd_tl_nth false (schedule p) 0), app_nil_r. cbn [skipn].
  cbv beta delta [pbind ptry_catch pret archive_query].
  destruct (hd false (schedule p)); [reflexivity|].
  unfold delete_country.
  now destruct (existsb _ (countries (tables p))).
Qed.

Lemma among_spec (ids : list uuid) (k : uuid) :
  among ids k = true <-> In k ids.
Proof.
  unfold among. rewrite existsb_exists. split.
  - intros (i & Hin & E). apply String.eqb_eq in E. now subst.
  - intros Hin. exists k. split; [exact Hin|apply String.eqb_refl].
Qed.

Lemma smes_of_country_spec (id k : uuid) (d : database) :
  In k (smes_of_country id d) <->
  exists r, In r (smes d) /\ country_id r = id /\ sme_id r = k.
Proof.
  unfold smes_of_country. rewrite in_map_iff. split.
  - intros (r & Hk & Hin). apply filter_In in Hin as [Hin E].
    apply String.eqb_eq in E. now exists r.
  - intros (r & Hin & Hc & Hk). exists r. split; [exact Hk|].
    apply filter_In. split; [exact Hin|]. now apply String.eqb_eq.
Qed.

Lemma filter_none {A} (p : A -> bool) (l : list A) :
  (forall a, In a l -> p a = false) -> filter p l = [].
Proof.
  induction l as [|a l IH]; [reflexivity|]. intros H. cbn [filter].
  rewrite (H a (or_introl eq_refl)). apply IH. intros b Hb. apply H. now right.
Qed.

Lemma filter_filter_keep {A} (p q : A -> bool) (l : list A) :
  (forall a, In a l -> p a = true -> q a = true) ->
  filter p (filter q l) = filter p l.
Proof.
  induction l as [|a l IH]; [reflexivity|]. intros H. cbn [filter].
  assert (IH' : filter p (filter q l) = filter p l).
  { apply IH. intros b Hb. apply H. now right. }
  destruct (q a) eqn:Hq; cbn [filter].
  - now rewrite IH'.
  - destruct (p a) eqn:Hp; [|exact IH'].
    rewrite (H a (or_introl eq_refl) Hp) in Hq. discriminate.
Qed.

Lemma swept_present (id : uuid) (a : archive) :
  existsb (fun c => c_id c =? id) (countries a) = true ->
  swept id a =
  {| base :=
       {| smes := filter (fun r => negb (country_id r =? id)) (smes (base a));
          websites :=
            filter (fun s => negb (among (smes_of_country id (base a))
                                         (w_sme_id s)))
                   (websites (base a)) |};
     emails :=
       filter (fun e => negb (among (smes_of_country id (base a))
                                    (e_sme_id e)))
              (emails a);
     countries := filter (fun c => negb (c_id c =? id)) (countries a) |}.
Proof. unfold swept, delete_country. now intros ->. Qed.

Lemma swept_absent (id : uuid) (a : archive) :
  existsb (fun c => c_id c =? id) (countries a) = false -> swept id a = a.
Proof. unfold swept, delete_country. now intros ->. Qed.

(** X25.  Deleting a country takes what hangs on it: when the statement
    succeeds for a country of the table, the answer is ok, and afterwards
    no country has that key, no SME belongs to it, and no website or
    email is left for any SME that belonged to it. *)
Theorem delete_country_cascades (id : uuid) (p : portal) :
  stalls 0 p = false ->
  existsb (fun c => c_id c =? id) (countries (tables p)) = true ->
  let a' := tables (snd (delete_country_handler id p)) in
  fst (delete_country_handler id p) = sent_ok /\
  existsb (fun c => c_id c =? id) (countries a') = false /\
  (forall r, In r (smes (base a')) -> country_id r <> id) /\
  (forall r, In r (smes (base (tables p))) -> country_id r = id ->
             website_of (sme_id r) (base a') = [] /\
             email_of (sme_id r) a' = []).
Proof.
  intros H0 Hc. cbv zeta.
  rewrite delete_country_handler_result, H0. cbn [fst snd settle tables].
  rewrite (swept_present _ _ Hc). cbn [base smes websites emails countries].
  split; [reflexivity|]. split; [|split].
  - apply not_true_is_false. rewrite existsb_exists.
    intros (c & Hin & E). apply filter_In in Hin as [_ Hn].
    rewrite E in Hn. discriminate.
  - intros r Hin. apply filter_In in Hin as [_ Hn].
    intros E. apply String.eqb_eq in E. rewrite E in Hn. discriminate.
  - intros r Hin Hr.
    assert (Hgone : among (smes_of_country id (base (tables p))) (sme_id r)
                    = true).
    { apply among_spec, smes_of_country_spec. now exists r. }
    unfold website_of, email_of. cbn [websites emails]. split.
    + apply filter_none. intros s Hs. apply filter_In in Hs as [_ Hn].
      destruct (w_sme_id s =? sme_id r) eqn:E; [|reflexivity].
      apply String.eqb_eq in E. rewrite E, Hgone in Hn. discriminate.
    + apply filter_none. intros e He. apply filter_In in He as [_ Hn].
      destruct (e_sme_id e =? sme_id r) eqn:E; [|reflexivity].
      apply String.eqb_eq in E. rewrite E, Hgone in Hn. discriminate.
Qed.

Lemma delete_country_cascades_witness :
  fst (delete_country_handler "c1" (calm two_countries)) = sent_ok /\
  website_of "s1"
    (base (tables (snd (delete_country_handler "c1" (calm two_countries)))))
  = [] /\
  email_of "s1"
    (tables (snd (delete_country_handler "c1" (calm two_countries)))) = [].
Proof.
  destruct (delete_country_cascades "c1" (calm two_countries)
              eq_refl eq_refl) as (Hok & _ & _ & Hrows).
  split; [exact Hok|].
  exact (Hrows acme (or_introl eq_refl) eq_refl).
Defined.

Lemma swept_other (id k : uuid) (a : archive) :
  (forall r, In r (smes (base a)) -> sme_id r = k -> country_id r <> id) ->
  sme_of k (base (swept id a)) = sme_of k (base a) /\
  website_of k (base (swept id a)) = website_of k (base a) /\
  email_of k (swept id a) = email_of k a.
Proof.
  intros Hk.
  destruct (existsb (fun c => c_id c =? id) (countries a)) eqn:Hc;
    [|now rewrite (swept_absent _ _ Hc)].
  rewrite (swept_present _ _ Hc).
  assert (Hkept : among (smes_of_country id (base a)) k = false).
  { apply not_true_is_false. rewrite among_spec, smes_of_country_spec.
    intros (r & Hin & Hr & Hkey). exact (Hk r Hin Hkey Hr). }
  unfold sme_of, website_of, email_of. cbn [base smes websites emails].
  repeat split; apply filter_filter_keep.
  - intros r Hin E. apply String.eqb_eq in E.
    apply negb_true_iff, String.eqb_neq. now apply Hk.
  - intros s _ E. apply String.eqb_eq in E. now rewrite E, Hkept.
  - intros e _ E. apply String.eqb_eq in E. now rewrite E, Hkept.
Qed.

(** X26.  Deleting a country leaves the others alone: for a key that no
    SME of the deleted country has, the SME rows, the website and the
    email with that key are as before, and so is every other country,
    whether or not the statement succeeds. *)
Theorem delete_country_spares_others (id k : uuid) (p : portal) :
  (forall r, In r (smes (base (tables p))) -> sme_id r = k ->
             country_id r <> id) ->
  let a' := tables (snd (delete_country_handler id p)) in
  sme_of k (base a') = sme_of k (base (tables p)) /\
  website_of k (base a') = website_of k (base (tables p)) /\
  email_of k a' = email_of k (tables p) /\
  filter (fun c => negb (c_id c =? id)) (countries a')
  = filter (fun c => negb (c_id c =? id)) (countries (tables p)).
Proof.
  intros Hk. cbv zeta. rewrite delete_country_handler_result.
  destruct (stalls 0 p); cbn [snd settle tables]; [now repeat split|].
  destruct (swept_other id k (tables p) Hk) as (-> & -> & ->).
  repeat split.
  destruct (existsb (fun c => c_id c =? id) (countries (tables p))) eqn:Hc;
    [|now rewrite (swept_absent _ _ Hc)].
  rewrite (swept_present _ _ Hc). cbn [countries].
  now apply filter_filter_keep.
Qed.

Lemma delete_country_spares_others_witness :
  website_of "s2"
    (base (tables (snd (delete_country_handler "c1" (calm two_countries)))))
  = [bakery_site] /\
  countries (tables (snd (delete_country_handler "c1" (calm two_countries))))
  = [georgia].
Proof.
  assert (Hk : forall r, In r (smes (base (tables (calm two_countries)))) ->
                         sme_id r = "s2" -> country_id r <> "c1").
  { intros r [<-|[<-|[]]]; discriminate. }
  destruct (delete_country_spares_others "c1" "s2" (calm two_countries) Hk)
    as (_ & Hw & _ & _).
  split; [exact Hw|reflexivity].
Defined.

Lemma swept_references (id : uuid) (a : archive) :
  sites_reference_smes (base a) /\ emails_reference_smes a /\
  smes_reference_countries a ->
  sites_reference_smes (base (swept id a)) /\
  emails_reference_smes (swept id a) /\
  smes_reference_countries (swept id a).
Proof.
  intros (Hs & He & Hc).
  destruct (existsb (fun c => c_id c =? id) (countries a)) eqn:Hex;
    [|now rewrite (swept_absent _ _ Hex)].
  rewrite (swept_present _ _ Hex).
  assert (Hkeep : forall k,
             among (smes_of_country id (base a)) k = false ->
             existsb (fun r => sme_id r =? k) (smes (base a)) = true ->
             existsb (fun r => sme_id r =? k)
                     (filter (fun r => negb (country_id r =? id))
                             (smes (base a))) = true).
  { intros k Hk Hin. apply existsb_exists in Hin as (r & Hin & E).
    apply existsb_exists. exists r. split; [|exact E].
    apply filter_In. split; [exact Hin|].
    apply negb_true_iff, not_true_is_false. intros Hr.
    apply String.eqb_eq in Hr, E.
    assert (Hg : among (smes_of_country id (base a)) k = true).
    { apply among_spec, smes_of_country_spec. now exists r. }
    congruence. }
  unfold sites_reference_smes, emails_reference_smes, smes_reference_countries.
  cbn [base smes websites emails countries]. repeat split.
  - intros s Hin. apply filter_In in Hin as [Hin Hn].
    apply Hkeep; [now apply negb_true_iff|now apply Hs].
  - intros e Hin. apply filter_In in Hin as [Hin Hn].
    apply Hkeep; [now apply negb_true_iff|now apply He].
  - intros r Hin. apply filter_In in Hin as [Hin Hn].
    specialize (Hc r Hin). apply existsb_exists in Hc as (c & Hcin & E).
    apply existsb_exists. exists c. split; [|exact E].
    apply filter_In. split; [exact Hcin|].
    apply String.eqb_eq in E. now rewrite E.
Qed.

(** X27.  Deleting a country keeps the foreign keys of the schema: if
    every website and every email referred to an existing SME and every
    SME to an existing country before, they do afterwards, whether or
    not the statement succeeds. *)
Theorem delete_country_keeps_references (id : uuid) (p : portal) :
  sites_reference_smes (base (tables p)) ->
  emails_reference_smes (tables p) ->
  smes_reference_countries (tables p) ->
  let a' := tables (snd (delete_country_handler id p)) in
  sites_reference_smes (base a') /\ emails_reference_smes a' /\
  smes_reference_countries a'.
Proof.
  intros Hs He Hc. cbv zeta. rewrite delete_country_handler_result.
  destruct (stalls 0 p); cbn [snd settle tables]; [now repeat split|].
  apply swept_references. now repeat split.
Qed.

Lemma two_countries_sites_reference : sites_reference_smes (base two_countries).
Proof. intros s [<-|[<-|[]]]; reflexivity. Defined.

Lemma two_countries_smes_reference : smes_reference_countries two_countries.
Proof. intros r [<-|[<-|[]]]; reflexivity. Defined.

Lemma delete_country_keeps_references_witness :
  sites_reference_smes
    (base (tables (snd (delete_country_handler "c1" (calm two_countries))))) /\
  emails_reference_smes
    (tables (snd (delete_country_handler "c1" (calm two_countries)))) /\
  smes_reference_countries
    (tables (snd (delete_country_handler "c1" (calm two_countries)))).
Proof.
  exact (delete_country_keeps_references "c1" (calm two_countries)
           two_countries_sites_reference two_countries_emails_reference
           two_countries_smes_reference).
Defined.

Lemma swept_gone (id k : uuid) (a : archive) (row : sme_row) :
  existsb (fun c => c_id c =? id) (countries a) = true ->
  hd_error (sme_of k (base a)) = Some row ->
  (forall r, In r (sme_of k (base a)) -> country_id r = id) ->
  sme_of k (base (swept id a)) = [] /\
  website_of k (base (swept id a)) = [] /\
  email_of k (swept id a) = [].
Proof.
  intros Hc Hrow Hall.
  assert (Hin : In row (sme_of k (base a))).
  { destruct (sme_of k (base a)); [discriminate|].
    injection Hrow as ->. now left. }
  pose proof (Hall row Hin) as Hcountry.
  apply filter_In in Hin as [Hin Hkey]. apply String.eqb_eq in Hkey.
  assert (Hgone : among (smes_of_country id (base a)) k = true).
  { apply among_spec, smes_of_country_spec. now exists row. }
  rewrite (swept_present _ _ Hc).
  unfold website_of, email_of. cbn [base smes websites emails].
  repeat split.
  - unfold sme_of. cbn [smes]. apply filter_none.
    intros r Hr. apply filter_In in Hr as [Hr Hn].
    destruct (sme_id r =? k) eqn:E; [|reflexivity].
    assert (Hrk : In r (sme_of k (base a))) by (apply filter_In; now split).
    apply Hall, String.eqb_eq in Hrk. rewrite Hrk in Hn. discriminate.
  - apply filter_none. intros s Hs. apply filter_In in Hs as [_ Hn].
    destruct (w_sme_id s =? k) eqn:E; [|reflexivity].
    apply String.eqb_eq in E. rewrite E, Hgone in Hn. discriminate.
  - apply filter_none. intros e He. apply filter_In in He as [_ Hn].
    destruct (e_sme_id e =? k) eqn:E; [|reflexivity].
    apply String.eqb_eq in E. rewrite E, Hgone in Hn. discriminate.
Qed.

(** X28.  After a country is deleted its SMEs are gone for every stage:
    with no statement failing, for an SME of the deleted country
    build-website, deploy and generate-email answer 404 "SME not found"
    and the email endpoint answers 404 "No email generated yet". *)
Theorem stages_answer_404_after_country_deleted
        (E : mail_prompts) (P : prompts) (llm : oracle) (now : timestamp)
        (id k : uuid) (p : portal) (row : sme_row) :
  schedule p = [] ->
  existsb (fun c => c_id c =? id) (countries (tables p)) = true ->
  hd_error (sme_of k (base (tables p))) = Some row ->
  (forall r, In r (sme_of k (base (tables p))) -> country_id r = id) ->
  let p' := snd (delete_country_handler id p) in
  fst (build_website P llm now k (world_of p'))
  = Reply 404 (error_body "SME not found" None) /\
  fst (deploy now k (world_of p'))
  = Reply 404 (error_body "SME not found" None) /\
  fst (generate_email E llm now k p') = sent_error 404 "SME not found" None /\
  fst (get_email k p') = sent_error 404 "No email generated yet" None.
Proof.
  intros Hq Hc Hrow Hall. cbv zeta.
  destruct (swept_gone id k (tables p) row Hc Hrow Hall) as (Hs & _ & He).
  rewrite delete_country_handler_result, (stalls_calm _ _ Hq).
  cbn [snd]. rewrite settle_calm by exact Hq.
  rewrite build_website_result, deploy_result, generate_email_result,
    get_email_result.
  unfold fails_at, stalls.
  cbn [world_of schedule tables store faults nth]. rewrite Hs, He.
  repeat split.
Qed.

Lemma stages_answer_404_after_country_deleted_witness :
  fst (generate_email plain_mail (canned hello_reply) 5%N "s1"
         (snd (delete_country_handler "c1" (calm two_countries))))
  = sent_error 404 "SME not found" None /\
  fst (get_email "s1" (snd (delete_country_handler "c1" (calm two_countries))))
  = sent_error 404 "No email generated yet" None.
Proof.
  assert (Hall : forall r,
             In r (sme_of "s1" (base (tables (calm two_countries)))) ->
             country_id r = "c1").
  { intros r [<-|[]]. reflexivity. }
  destruct (stages_answer_404_after_country_deleted
              plain_mail plain_prompts (canned hello_reply) 5%N "c1" "s1"
              (calm two_countries) acme eq_refl eq_refl eq_refl Hall)
    as (_ & _ & Hg & He).
  split; [exact Hg|exact He].
Defined.

(** X29.  generate-email leaves a request unanswered exactly when
    something fails before its [try] block: the SELECT of the SME, or,
    for an SME that exists, the SELECT of its website or the template of
    the prompt.  Every later failure is answered. *)
Theorem generate_email_unanswered_iff
        (E : mail_prompts) (llm : oracle) (now : timestamp) (id : uuid)
        (p : portal) :
  (exists msg, fst (generate_email E llm now id p) = unanswered msg) <->
  (stalls 0 p = true \/
   exists row,
     stalls 0 p = false /\
     hd_error (sme_of id (base (tables p))) = Some row /\
     (stalls 1 p = true \/ mail_prompt_in E row (base (tables p)) = None)).
Proof.
  rewrite generate_email_result.
  destruct (stalls 0 p).
  { split; [now left|]. intros _. now eexists. }
  destruct (hd_error (sme_of id (base (tables p)))) as [row|].
  2:{ split; [intros [msg H]; discriminate|].
      intros [H|(row & _ & H & _)]; discriminate. }
  destruct (stalls 1 p).
  { split; [|intros _; now eexists].
    intros _. right. exists row. repeat split. now left. }
  destruct (mail_prompt_in E row (base (tables p))) as [prompt|] eqn:Hprompt.
  2:{ split; [|intros _; now eexists].
      intros _. right. exists row. repeat split. now right. }
  split.
  2:{ intros [H|(row' & _ & Hrow' & [H|H])]; try discriminate.
      injection Hrow' as <-. congruence. }
  intros [msg H]. exfalso. revert H. cbv zeta.
  destruct (generated _ _) as [raw|]; [|discriminate].
  destruct (JSON_parse _) as [email|]; [|discriminate].
  destruct (property "subject" email) as [|subject]; [discriminate|].
  destruct (property "body" email) as [|body]; [discriminate|].
  destruct (stalls 2 p); [discriminate|].
  destruct (upsert_email _ _ _ _ _) as [e|[a1 []]]; [discriminate|].
  destruct (stalls 3 p); discriminate.
Qed.

(** X30.  The email endpoint and the country deletion answer every
    request: their statement runs inside the [try] block.  The email
    endpoint writes nothing, and a country deletion whose statement fails
    leaves the tables as they are. *)
Theorem email_and_country_handlers_always_answer
        (id : uuid) (p : portal) (msg : string) :
  fst (get_email id p) <> unanswered msg /\
  tables (snd (get_email id p)) = tables p /\
  fst (delete_country_handler id p) <> unanswered msg /\
  (if stalls 0 p
   then tables (snd (delete_country_handler id p)) = tables p
   else fst (delete_country_handler id p) = sent_ok).
Proof.
  rewrite get_email_result, delete_country_handler_result.
  destruct (stalls 0 p); cbn [fst snd settle tables];
    repeat split; try discriminate.
  now destruct (hd_error (email_of id (tables p))).
Qed.
